(** * JSON.stringify of the ChakraCore runtime (lib/Runtime/Library/JSON.cpp)

    A shallow embedding of the stringify engine: the replacer name table,
    the indentation gap, value preprocessing, the cycle stack and the
    object and array serializers, followed by the properties proved of
    them.

    Conventions of the embedding.
    - A [Js::Var] is a value of the tagged union [Var]; heap objects are
      referred to by identity ([ObjId]) and live in the recycler of the
      [ScriptContext].
    - The heap is read-only while a call runs: script functions ([toJSON],
      the replacer function) are given by what they return or throw for
      their arguments, and reading a property or an element twice gives the
      same value. The resolution of a replacer array is given a second
      time with conversions that run script and write to the heap
      ([Stringify_nameTable_scripted]).
    - The members of [StringifySession] that the C++ code mutates are
      threaded through the monad [M]; a thrown exception carries the session
      as it was when it was thrown.
    - [PROBE_STACK] is a budget of nested calls: a call that finds the
      budget exhausted throws [StackOverflow]. *)

From Stdlib Require Import ZArith List String Ascii Bool Lia DecimalString.
Import ListNotations.

Local Open Scope list_scope.
Local Open Scope string_scope.
Local Open Scope Z_scope.

(** ** Machine integers *)

(** The bounds of the 32-bit integer types. *)
Definition UINT32_MODULUS : Z := 2 ^ 32.
Definition INT_MAX : Z := 2 ^ 31 - 1.
Definition INT_MIN : Z := - 2 ^ 31.

(** [uint32] arithmetic wraps around. *)
Definition uint32_wrap (z : Z) : Z := z mod UINT32_MODULUS.

(** [#define MAX_JSON_STRINGIFY_NAMES_ON_STACK 20] *)
Definition MAX_JSON_STRINGIFY_NAMES_ON_STACK : Z := 20.

(** [static const int JSONspaceSize = 10;] ES5 limit on the indentation. *)
Definition JSONspaceSize : Z := 10.

(** [JavascriptString::MaxCharCount], declared with the string class:
    the largest number of characters a string can hold, [INT_MAX]. *)
Definition MaxCharCount : Z := INT_MAX.

(** The [min] and [max] macros of the C++ sources. *)
Definition min_ (a b : Z) : Z := if a <? b then a else b.
Definition max_ (a b : Z) : Z := if a >? b then a else b.

(** ** Doubles

    A double is NaN, an infinity, or the finite value [m * 2 ^ e]; every
    finite IEEE-754 double has this form. Only classification, ordering
    against an integer and truncation are used by the serializer. *)

Inductive double : Type :=
| NaN
| Infinity (negative : bool)
| Finite (m e : Z).

(** [NumberUtilities::IsFinite]. *)
Definition IsFinite (d : double) : bool :=
  match d with
  | Finite _ _ => true
  | _ => false
  end.

(** The integer part of [m * 2 ^ e], rounding toward zero. *)
Definition truncate (m e : Z) : Z :=
  if 0 <=? e then m * 2 ^ e else Z.quot m (2 ^ (- e)).

(** [static_cast<double>] of an integer. *)
Definition double_of_Z (z : Z) : double := Finite z 0.

(** [a < b] on doubles; false as soon as one side is NaN. *)
Definition double_lt (a b : double) : bool :=
  match a, b with
  | NaN, _ | _, NaN => false
  | Infinity true, Infinity true => false
  | Infinity true, _ => true
  | _, Infinity true => false
  | Infinity false, _ => false
  | _, Infinity false => true
  | Finite m1 e1, Finite m2 e2 =>
      let e := Z.min e1 e2 in
      m1 * 2 ^ (e1 - e) <? m2 * 2 ^ (e2 - e)
  end.

(** [min(a, b)] of the C++ macro at type double: [(a < b) ? a : b]. *)
Definition min_double (a b : double) : double :=
  if double_lt a b then a else b.

(** Modelled from the spec: [JavascriptConversion::ToInteger(double)], the
    conversion to an integer by truncation toward zero; NaN becomes 0 and
    the infinities stay. *)
Definition ToInteger_double (d : double) : double :=
  match d with
  | NaN => Finite 0 0
  | Infinity n => Infinity n
  | Finite m e => Finite (truncate m e) 0
  end.

(** [static_cast<int>(double)]. The conversion truncates; outside the range
    of [int] the conversion instruction of the supported targets yields
    [INT_MIN] (the only overflow that reaches the cast of this file is on
    the negative side, its operand being at most [JSONspaceSize]). *)
Definition static_cast_int (d : double) : Z :=
  match d with
  | Finite m e =>
      let t := truncate m e in
      if (INT_MIN <=? t) && (t <=? INT_MAX) then t else INT_MIN
  | _ => INT_MIN
  end.

(** ** Strings

    A [JavascriptString] is a sequence of character codes; the literal
    macro [_u("...")] is a plain string literal here. *)

Definition JavascriptString : Type := string.

(** Modelled from the spec: [JavascriptString::GetLength()], the number of
    characters. *)
Definition GetLength (s : JavascriptString) : Z := Z.of_nat (String.length s).

(** Modelled from the spec: [JavascriptString::NewCopyBuffer(buffer, len)],
    the first [len] characters of [buffer]. *)
Definition NewCopyBuffer (buffer : JavascriptString) (len : Z) : JavascriptString :=
  substring 0 (Z.to_nat len) buffer.

(** Modelled from the spec: [JavascriptString::Concat], the concatenation
    of two strings. *)
Definition Concat (a b : JavascriptString) : JavascriptString := a ++ b.

(** Modelled from the spec: [scriptContext->GetIntegerString], the decimal
    string of an integer. *)
Definition GetIntegerString (i : Z) : JavascriptString :=
  NilZero.string_of_int (Z.to_int i).

(** [JSONSpace::Buffer]: [JSONspaceSize] spaces. *)
Definition jsonSpace_Buffer : JavascriptString := "          ".

(** ** Values and type ids *)

(** Identity of a heap object ([RecyclableObject*]). *)
Definition ObjId : Type := nat.

(** [Js::Var]. Primitive values carry their payload; an object is known by
    its identity. *)
Inductive Var : Type :=
| VUndefined
| VNull
| VBoolean (b : bool)
| VInteger (i : Z)                  (* tagged 32-bit integer *)
| VNumber (d : double)
| VInt64Number (i : Z)
| VUInt64Number (i : Z)
| VString (s : JavascriptString)
| VSymbol (description : JavascriptString)
| VObject (o : ObjId).

(** Type ids of heap objects. [TypeIds_HostDispatch] stands for the objects
    that are not native to the script engine. *)
Inductive ObjectTypeId : Type :=
| TypeIds_HostDispatch
| TypeIds_Object
| TypeIds_Function
| TypeIds_Array
| TypeIds_ES5Array
| TypeIds_BooleanObject
| TypeIds_NumberObject
| TypeIds_StringObject
| TypeIds_Proxy.

(** [Js::TypeId]: the primitive type ids, then those of objects. *)
Inductive TypeId : Type :=
| TypeIds_Undefined
| TypeIds_Null
| TypeIds_Boolean
| TypeIds_Integer
| TypeIds_Number
| TypeIds_Int64Number
| TypeIds_UInt64Number
| TypeIds_String
| TypeIds_Symbol
| TypeIds_OfObject (t : ObjectTypeId).

Coercion TypeIds_OfObject : ObjectTypeId >-> TypeId.

Definition ObjectTypeId_eqb (a b : ObjectTypeId) : bool :=
  match a, b with
  | TypeIds_HostDispatch, TypeIds_HostDispatch
  | TypeIds_Object, TypeIds_Object
  | TypeIds_Function, TypeIds_Function
  | TypeIds_Array, TypeIds_Array
  | TypeIds_ES5Array, TypeIds_ES5Array
  | TypeIds_BooleanObject, TypeIds_BooleanObject
  | TypeIds_NumberObject, TypeIds_NumberObject
  | TypeIds_StringObject, TypeIds_StringObject
  | TypeIds_Proxy, TypeIds_Proxy => true
  | _, _ => false
  end.

Definition TypeId_eqb (a b : TypeId) : bool :=
  match a, b with
  | TypeIds_Undefined, TypeIds_Undefined
  | TypeIds_Null, TypeIds_Null
  | TypeIds_Boolean, TypeIds_Boolean
  | TypeIds_Integer, TypeIds_Integer
  | TypeIds_Number, TypeIds_Number
  | TypeIds_Int64Number, TypeIds_Int64Number
  | TypeIds_UInt64Number, TypeIds_UInt64Number
  | TypeIds_String, TypeIds_String
  | TypeIds_Symbol, TypeIds_Symbol => true
  | TypeIds_OfObject x, TypeIds_OfObject y => ObjectTypeId_eqb x y
  | _, _ => false
  end.

(** ** Exceptions and completions *)

(** The error codes thrown by this file. *)
Inductive HRESULT : Type :=
| JSERR_JSONSerializeCircular
| JSERR_OutOfBoundString.

(** What can be thrown during a call. *)
Inductive Exception : Type :=
| TypeError (code : HRESULT)        (* JavascriptError::ThrowTypeError *)
| RangeError (code : HRESULT)       (* JavascriptError::ThrowRangeError *)
| StackOverflow                     (* PROBE_STACK *)
| FatalInternalError                (* Js::Throw::FatalInternalError *)
| ScriptException (thrown : Var).   (* thrown by a script function *)

(** What a call of a script function comes to: a value returned, or a
    value thrown. *)
Inductive CallResult : Type :=
| Returns (value : Var)
| Throws (thrown : Var).

(** What a C++ call that may throw comes to. *)
Inductive Completion (A : Type) : Type :=
| Normal (a : A)
| Throw (e : Exception).

Arguments Normal {A} a.
Arguments Throw {A} e.

(** ** Property ids

    The script context interns property names: two names get the same
    [PropertyId] exactly when they are the same string, so the id of a
    named property is represented by its name. *)

Inductive PropertyId : Type :=
| NoProperty                                   (* Js::Constants::NoProperty *)
| PropertyIdOfName (name : JavascriptString)
| PropertyIdOfSymbol (n : nat).

Definition PropertyId_eqb (a b : PropertyId) : bool :=
  match a, b with
  | NoProperty, NoProperty => true
  | PropertyIdOfName x, PropertyIdOfName y => String.eqb x y
  | PropertyIdOfSymbol x, PropertyIdOfSymbol y => Nat.eqb x y
  | _, _ => false
  end.

Record PropertyRecord : Type := mkPropertyRecord {
  GetPropertyId : PropertyId
}.

(** Modelled from the spec: [scriptContext->GetOrAddPropertyRecord(propertyName,
    &propertyRecord)], the record of the interned name. *)
Definition GetOrAddPropertyRecord (propertyName : JavascriptString) : PropertyRecord :=
  mkPropertyRecord (PropertyIdOfName propertyName).

(** Modelled from the spec: [propertyRecord->IsSymbol()]. *)
Definition IsSymbol (propRecord : PropertyRecord) : bool :=
  match GetPropertyId propRecord with
  | PropertyIdOfSymbol _ => true
  | _ => false
  end.

(** [Js::PropertyIds::toJSON] and [Js::PropertyIds::length]. *)
Definition PropertyIds_toJSON : PropertyId := PropertyIdOfName "toJSON".
Definition PropertyIds_length : PropertyId := PropertyIdOfName "length".

(** The array index a property name denotes, if it is the canonical
    decimal form of an index below [2^32 - 1]. *)
Definition NumericValue (name : JavascriptString) : option Z :=
  match NilEmpty.uint_of_string name with
  | Some u =>
      let z := Z.of_uint u in
      if (z <? UINT32_MODULUS - 1) && String.eqb name (GetIntegerString z)
      then Some z else None
  | None => None
  end.

(** Modelled from the spec: [propertyRecord->IsNumeric()], whether the
    property is an indexed one. *)
Definition IsNumeric (propRecord : PropertyRecord) : bool :=
  match GetPropertyId propRecord with
  | PropertyIdOfName name =>
      match NumericValue name with Some _ => true | None => false end
  | _ => false
  end.

(** ** Heap objects *)

(** One entry of a type handler: the property id at a property index
    ([NoProperty] once deleted), whether it is enumerable, whether the
    property has a data slot ([GetPropertyIndex] is not [NoSlot]), and the
    value a read of the property gives. *)
Record PropertyEntry : Type := mkPropertyEntry {
  entryId : PropertyId;
  entryEnumerable : bool;
  entryHasSlot : bool;
  entryValue : Var
}.

(** What a wrapper object wraps. *)
Inductive PrimitiveValue : Type :=
| NoPrimitive
| PrimitiveBoolean (b : bool)
| PrimitiveNumber (d : double)
| PrimitiveString (s : JavascriptString).

(** [Js::RecyclableObject], as far as the serializer looks at it. *)
Record RecyclableObject : Type := mkRecyclableObject {
  (* GetTypeId() *)
  typeId : ObjectTypeId;
  (* GetPrototype(), then the prototype of that, ... up to null *)
  prototypes : list ObjId;
  (* IsCrossSiteObject() *)
  crossSite : bool;
  (* GetEntryPoint() of a callable object: the arguments (receiver first)
     to the completion of the call *)
  entryPoint : option (list Var -> CallResult);
  (* the [[PrimitiveValue]] of a Boolean, Number or String object *)
  primitiveValue : PrimitiveValue;
  (* DynamicObject::Is *)
  isDynamicObject : bool;
  (* the indexed properties; [None] when a dynamic object has no object
     array. For an array, its elements. *)
  objectArray : option (list (Z * Var));
  (* JavascriptArray::GetLength() *)
  arrayLength : Z;
  (* the named properties, in definition order *)
  typeHandler : list PropertyEntry;
  (* the names GetEnumerator's enumerator yields, in order; [None] when
     GetEnumerator returns FALSE *)
  enumerator : option (list JavascriptString);
  (* JavascriptProxy::PropertyKeysTrap(GetOwnPropertyNamesKind) *)
  propertyKeysTrap : list JavascriptString;
  (* whether a proxy or remote object stands for an array *)
  targetIsArray : bool;
  (* GetRemoteObject() *)
  remoteObject : option ObjId;
  (* InvokeBuiltInOperationRemotely(Stringify, args, &result) *)
  invokeRemotely : list Var -> option Var
}.

(** [Js::ScriptContext]: the recycler heap and the library's number
    conversions, which are outside this file. *)
Record ScriptContext : Type := mkScriptContext {
  recycler : ObjId -> RecyclableObject;
  (* the first identity not yet allocated *)
  nextObject : ObjId;
  (* JavascriptConversion::ToString of a double *)
  NumberToString : double -> JavascriptString;
  (* JavascriptConversion::ToNumber of a string *)
  StringToNumber : JavascriptString -> double
}.

Section Runtime.

Variable scriptContext : ScriptContext.

(** The object an identity denotes ([RecyclableObject::FromVar]). *)
Definition GetObject (o : ObjId) : RecyclableObject := recycler scriptContext o.

(** Modelled from the spec: [JavascriptOperators::GetTypeId], the type
    classification of a value. *)
Definition GetTypeId (value : Var) : TypeId :=
  match value with
  | VUndefined => TypeIds_Undefined
  | VNull => TypeIds_Null
  | VBoolean _ => TypeIds_Boolean
  | VInteger _ => TypeIds_Integer
  | VNumber _ => TypeIds_Number
  | VInt64Number _ => TypeIds_Int64Number
  | VUInt64Number _ => TypeIds_UInt64Number
  | VString _ => TypeIds_String
  | VSymbol _ => TypeIds_Symbol
  | VObject o => typeId (GetObject o)
  end.

(** Modelled from the spec: [JavascriptOperators::IsObject], whether the
    type id is past the primitive ones. *)
Definition IsObject (value : Var) : bool :=
  match value with
  | VObject _ => true
  | _ => false
  end.

(** Modelled from the spec: [JavascriptOperators::IsJsNativeObject], whether
    the value is an object of the script engine itself, as opposed to a
    host object. *)
Definition IsJsNativeObject (value : Var) : bool :=
  match value with
  | VObject o =>
      match typeId (GetObject o) with
      | TypeIds_HostDispatch => false
      | _ => true
      end
  | _ => false
  end.

(** Modelled from the spec: [JavascriptConversion::IsCallable], whether the
    value is a callable object. *)
Definition IsCallable (value : Var) : bool :=
  match value with
  | VObject o =>
      match entryPoint (GetObject o) with Some _ => true | None => false end
  | _ => false
  end.

(** Modelled from the spec: [JavascriptArray::Is], whether the value is a
    genuine array. *)
Definition JavascriptArray_Is (value : Var) : bool :=
  match value with
  | VObject o =>
      match typeId (GetObject o) with
      | TypeIds_Array => true
      | _ => false
      end
  | _ => false
  end.

(** Modelled from the spec: [JavascriptOperators::IsArray], whether the
    value is an array, or a proxy or remote object standing for one. *)
Definition IsArray (value : Var) : bool :=
  match value with
  | VObject o =>
      match typeId (GetObject o) with
      | TypeIds_Array | TypeIds_ES5Array => true
      | TypeIds_Proxy | TypeIds_HostDispatch => targetIsArray (GetObject o)
      | _ => false
      end
  | _ => false
  end.

(** Modelled from the spec: [JavascriptProxy::Is], whether the value is an
    object with a key-enumeration hook of its own. *)
Definition JavascriptProxy_Is (value : Var) : bool :=
  match value with
  | VObject o =>
      match typeId (GetObject o) with
      | TypeIds_Proxy => true
      | _ => false
      end
  | _ => false
  end.

(** *** Reading elements and properties *)

(** The element stored at an index, and the type handler entry of a
    property id. *)
Fixpoint lookupItem (items : list (Z * Var)) (index : Z) : option Var :=
  match items with
  | [] => None
  | (i, v) :: rest => if i =? index then Some v else lookupItem rest index
  end%list.

Fixpoint lookupEntry (entries : list PropertyEntry) (id : PropertyId)
  : option PropertyEntry :=
  match entries with
  | [] => None
  | entry :: rest =>
      if PropertyId_eqb (entryId entry) id then Some entry
      else lookupEntry rest id
  end%list.

(** Modelled from the spec: the element of an object itself at an index
    (the host's property lookup; the object model is outside this file). *)
Definition GetOwnItem (o : ObjId) (index : Z) : option Var :=
  match objectArray (GetObject o) with
  | Some items => lookupItem items index
  | None => None
  end.

(** The first level of a prototype chain at which [read] finds something. *)
Fixpoint firstFound {A : Type} (read : ObjId -> option A) (levels : list ObjId)
  : option A :=
  match levels with
  | [] => None
  | o :: up =>
      match read o with
      | Some a => Some a
      | None => firstFound read up
      end
  end%list.

(** Modelled from the spec: [JavascriptOperators::GetItem(holder, index,
    &value, scriptContext)], the element of the object or of the nearest
    prototype that has one; [None] when the call returns FALSE. *)
Definition GetItem (holder : Var) (index : Z) : option Var :=
  match holder with
  | VObject o => firstFound (fun l => GetOwnItem l index) (o :: prototypes (GetObject o))
  | _ => None
  end.

(** Modelled from the spec: [JavascriptArray::DirectGetItem(index)], the
    element when there is one and undefined for a missing one. *)
Definition DirectGetItem (holder : Var) (index : Z) : Var :=
  match GetItem holder index with
  | Some v => v
  | None => VUndefined
  end.

(** Modelled from the spec: [object->GetPropertyQuery(object, id, &value,
    ...)], the lookup of a property on one object, without its
    prototypes; [None] stands for [Property_NotFound]. *)
Definition GetPropertyQuery (object : ObjId) (id : PropertyId) : option Var :=
  match id with
  | NoProperty => None
  | PropertyIdOfSymbol _ => option_map entryValue (lookupEntry (typeHandler (GetObject object)) id)
  | PropertyIdOfName name =>
      match NumericValue name with
      | Some index => GetOwnItem object index
      | None => option_map entryValue (lookupEntry (typeHandler (GetObject object)) id)
      end
  end.

(** Modelled from the spec: [JavascriptOperators::GetProperty(instance, id,
    &value, scriptContext)], own or inherited; [None] when it returns
    FALSE. *)
Definition GetProperty (instance : Var) (id : PropertyId) : option Var :=
  match instance with
  | VObject o => firstFound (fun l => GetPropertyQuery l id) (o :: prototypes (GetObject o))
  | _ => None
  end.

(** Modelled from the spec: [JavascriptOperators::OP_GetLength], a read of
    the property [length]. *)
Definition OP_GetLength (instance : Var) : Var :=
  match GetProperty instance PropertyIds_length with
  | Some v => v
  | None => VUndefined
  end.

(** Modelled from the spec: [JavascriptFunction::CallFunction<true>(func,
    func->GetEntryPoint(), args)]. *)
Definition CallFunction (func : Var) (args : list Var) : Completion Var :=
  match func with
  | VObject f =>
      match entryPoint (GetObject f) with
      | Some body =>
          match body args with
          | Returns v => Normal v
          | Throws thrown => Throw (ScriptException thrown)
          end
      | None => Normal VUndefined
      end
  | _ => Normal VUndefined
  end.

(** *** Conversions *)

(** Modelled from the spec: [JavascriptConversion::ToNumber], the numeric
    conversion of a value; a wrapper object converts as what it wraps. *)
Definition ToNumber (value : Var) : double :=
  match value with
  | VUndefined => NaN
  | VNull => Finite 0 0
  | VBoolean b => if b then Finite 1 0 else Finite 0 0
  | VInteger i | VInt64Number i | VUInt64Number i => double_of_Z i
  | VNumber d => d
  | VString s => StringToNumber scriptContext s
  | VSymbol _ => NaN
  | VObject o =>
      match primitiveValue (GetObject o) with
      | PrimitiveNumber d => d
      | PrimitiveString s => StringToNumber scriptContext s
      | PrimitiveBoolean b => if b then Finite 1 0 else Finite 0 0
      | NoPrimitive => NaN
      end
  end.

(** Modelled from the spec: [JavascriptConversion::ToString], the string
    conversion of a value; a wrapper object converts as what it wraps. *)
Definition ToString (value : Var) : JavascriptString :=
  match value with
  | VUndefined => "undefined"
  | VNull => "null"
  | VBoolean b => if b then "true" else "false"
  | VInteger i | VInt64Number i | VUInt64Number i => GetIntegerString i
  | VNumber d => NumberToString scriptContext d
  | VString s => s
  | VSymbol description => description
  | VObject o =>
      match primitiveValue (GetObject o) with
      | PrimitiveNumber d => NumberToString scriptContext d
      | PrimitiveString s => s
      | PrimitiveBoolean b => if b then "true" else "false"
      | NoPrimitive => "[object Object]"
      end
  end.

(** Modelled from the spec: [JavascriptConversion::ToInteger(Var,
    scriptContext)]. *)
Definition ToInteger (value : Var) : double := ToInteger_double (ToNumber value).

(** Modelled from the spec: [JavascriptConversion::ToUInt32], the integer
    part modulo [2^32], 0 for NaN and the infinities. *)
Definition ToUInt32 (value : Var) : Z :=
  match ToNumber value with
  | Finite m e => uint32_wrap (truncate m e)
  | _ => 0
  end.

(** Modelled from the spec: [JavascriptConversion::ToLength], the integer
    part clamped to [0, 2^53 - 1], as an [int64]. *)
Definition ToLength (value : Var) : Z :=
  match ToInteger value with
  | NaN => 0
  | Infinity negative => if negative then 0 else 2 ^ 53 - 1
  | Finite m e => Z.max 0 (Z.min (truncate m e) (2 ^ 53 - 1))
  end.

End Runtime.

(** ** Quoting *)

(** The string of one character, given by its code. *)
Definition char (code : nat) : JavascriptString := String (ascii_of_nat code) EmptyString.

Definition QUOTE : JavascriptString := char 34.
Definition BACKSLASH : JavascriptString := char 92.

Definition hexDigit (n : nat) : JavascriptString :=
  char (if Nat.ltb n 10 then 48 + n else 87 + n)%nat.

(** The escape of one character. *)
Definition EscapeChar (c : ascii) : JavascriptString :=
  let code := nat_of_ascii c in
  if Nat.eqb code 34 then BACKSLASH ++ QUOTE
  else if Nat.eqb code 92 then BACKSLASH ++ BACKSLASH
  else if Nat.eqb code 8 then BACKSLASH ++ "b"
  else if Nat.eqb code 12 then BACKSLASH ++ "f"
  else if Nat.eqb code 10 then BACKSLASH ++ "n"
  else if Nat.eqb code 13 then BACKSLASH ++ "r"
  else if Nat.eqb code 9 then BACKSLASH ++ "t"
  else if Nat.ltb code 32
       then BACKSLASH ++ "u00" ++ hexDigit (code / 16) ++ hexDigit (code mod 16)
  else String c EmptyString.

Fixpoint EscapeChars (s : JavascriptString) : JavascriptString :=
  match s with
  | EmptyString => EmptyString
  | String c rest => EscapeChar c ++ EscapeChars rest
  end.

(** Modelled from the spec: [JSONString::Escape], the canonical JSON
    escaping: the text between double quotes, with the quote, the backslash
    and the control characters below 0x20 escaped. *)
Definition Escape (value : JavascriptString) : JavascriptString :=
  QUOTE ++ EscapeChars value ++ QUOTE.

(** [StringifySession::Quote]. *)
Definition Quote (value : JavascriptString) : JavascriptString := Escape value.

(** ** The cycle stack *)

(** Pointer equality of two values that are objects. *)
Definition SameObject (a b : Var) : bool :=
  match a, b with
  | VObject x, VObject y => Nat.eqb x y
  | _, _ => false
  end.

(** Modelled from the spec: [JSONStack] (Library/JSONStack.h), the stack of
    the identities of the objects being serialized. Its operations take a
    flag telling an object of the script engine from any other object, and
    keep one stack for each. *)
Record JSONStack : Type := mkJSONStack {
  jsObjectStack : list Var;
  domObjectStack : list Var
}.

(** The empty stack ([Anew(tempAlloc, JSONStack, ...)]). *)
Definition JSONStack_new : JSONStack := mkJSONStack [] [].

(** Modelled from the spec: [JSONStack::Has(data, bJsObject = true)],
    membership by identity. *)
Definition Has (data : Var) (bJsObject : bool) (stack : JSONStack) : bool :=
  existsb (SameObject data)
          (if bJsObject then jsObjectStack stack else domObjectStack stack).

(** Modelled from the spec: [JSONStack::Push(data, bJsObject = true)]. *)
Definition Push (data : Var) (bJsObject : bool) (stack : JSONStack) : JSONStack :=
  if bJsObject
  then mkJSONStack (data :: jsObjectStack stack) (domObjectStack stack)
  else mkJSONStack (jsObjectStack stack) (data :: domObjectStack stack).

(** Modelled from the spec: [JSONStack::Pop(bJsObject = true)]. *)
Definition Pop (bJsObject : bool) (stack : JSONStack) : JSONStack :=
  if bJsObject
  then mkJSONStack (tl (jsObjectStack stack)) (domObjectStack stack)
  else mkJSONStack (jsObjectStack stack) (tl (domObjectStack stack)).

(** ** The session *)

(** [StringifySession::StringTable]: a property name and its record. *)
Record StringTable : Type := mkStringTable {
  propName : JavascriptString;
  propRecord : PropertyRecord
}.

(** [replacerType] with the union [replacer] it discriminates:
    [ReplacerFunction] holds the function, [ReplacerArray] the
    [propertyList] (the name table and the number of entries in use). *)
Inductive Replacer : Type :=
| ReplacerNone
| ReplacerFunction (func : Var)
| ReplacerArray (propertyNames : list StringTable) (length : Z).

(** The data members of [StringifySession]. *)
Record StringifySession : Type := mkStringifySession {
  replacer : Replacer;
  objectStack : JSONStack;
  indent : Z;
  gap : option JavascriptString;                (* nullptr when there is no gap *)
  propertySeparator : option JavascriptString   (* nullptr until first used *)
}.

(** Modelled from the spec: the constructor [StringifySession(scriptContext)]
    (Library/JSON.h): no replacer, no gap, depth 0. *)
Definition StringifySession_new : StringifySession :=
  mkStringifySession ReplacerNone JSONStack_new 0 None None.

(** Assignments to the data members. *)
Definition set_replacer (r : Replacer) (s : StringifySession) : StringifySession :=
  mkStringifySession r (objectStack s) (indent s) (gap s) (propertySeparator s).
Definition set_objectStack (st : JSONStack) (s : StringifySession) : StringifySession :=
  mkStringifySession (replacer s) st (indent s) (gap s) (propertySeparator s).
Definition set_indent (i : Z) (s : StringifySession) : StringifySession :=
  mkStringifySession (replacer s) (objectStack s) i (gap s) (propertySeparator s).
Definition set_gap (g : option JavascriptString) (s : StringifySession) : StringifySession :=
  mkStringifySession (replacer s) (objectStack s) (indent s) g (propertySeparator s).
Definition set_propertySeparator (p : option JavascriptString) (s : StringifySession)
  : StringifySession :=
  mkStringifySession (replacer s) (objectStack s) (indent s) (gap s) p.

(** Modelled from the spec: [StringifySession::InitReplacer] (Library/JSON.h),
    for a name table and for a function. *)
Definition InitReplacer_array (nameTable : list StringTable) (tableLen : Z)
  (s : StringifySession) : StringifySession :=
  set_replacer (ReplacerArray nameTable tableLen) s.

Definition InitReplacer_function (func : Var) (s : StringifySession) : StringifySession :=
  set_replacer (ReplacerFunction func) s.

(** ** The monad of session methods

    A method reads and updates the session and either returns or throws. *)

Definition M (A : Type) : Type := StringifySession -> Completion A * StringifySession.

(** [return a;], [throw e;], and one statement after another. *)
Definition ret {A : Type} (a : A) : M A := fun s => (Normal a, s).

Definition throw {A : Type} (e : Exception) : M A := fun s => (Throw e, s).

Definition bind {A B : Type} (m : M A) (k : A -> M B) : M B :=
  fun s =>
    match m s with
    | (Normal a, s') => k a s'
    | (Throw e, s') => (Throw e, s')
    end.

(** A read of the session, and an update of it. *)
Definition gets {A : Type} (f : StringifySession -> A) : M A := fun s => (Normal (f s), s).

Definition modify (f : StringifySession -> StringifySession) : M unit :=
  fun s => (Normal tt, f s).

(** A call outside the session that may throw. *)
Definition lift {A : Type} (c : Completion A) : M A := fun s => (c, s).

Notation "x <- m ;; k" := (bind m (fun x => k))
  (at level 100, m at next level, right associativity).
Notation "m ;;; k" := (bind m (fun _ => k))
  (at level 100, right associativity).

(** ** The replacer name table *)

(** [IsValidReplacerType]. *)
Definition IsValidReplacerType (typeId : TypeId) : bool :=
  match typeId with
  | TypeIds_Integer
  | TypeIds_String
  | TypeIds_Number
  | TypeIds_OfObject TypeIds_NumberObject
  | TypeIds_Int64Number
  | TypeIds_UInt64Number
  | TypeIds_OfObject TypeIds_StringObject => true
  | _ => false
  end.

(** Modelled from the spec: [TaggedInt::ToInt32], the value of a tagged
    integer. *)
Definition ToInt32 (value : Var) : Z :=
  match value with
  | VInteger i => i
  | _ => 0
  end.

(** Modelled from the spec: [JavascriptString::FromVar], the string a value
    is. *)
Definition JavascriptString_FromVar (value : Var) : JavascriptString :=
  match value with
  | VString s => s
  | _ => ""
  end.

(** [table[index] = entry] on a buffer; the buffer has a fixed size and
    every store of this file is inside it (a store past the end is
    undefined in C++ and leaves the list as it is here). *)
Fixpoint store {A : Type} (table : list A) (index : nat) (entry : A) : list A :=
  match table, index with
  | [], _ => []
  | _ :: rest, O => entry :: rest
  | first :: rest, S index' => first :: store rest index' entry
  end%list.

(** The content of a name table entry that was never written. *)
Definition uninitialized : StringTable := mkStringTable "" (mkPropertyRecord NoProperty).

(** [nameTable[index]]. *)
Definition entryAt (nameTable : list StringTable) (index : Z) : StringTable :=
  nth (Z.to_nat index) nameTable uninitialized.

(** A buffer of [count] entries ([_alloca] or [AnewArray]). *)
Definition AnewArray (count : Z) : list StringTable :=
  repeat uninitialized (Z.to_nat count).

(** The indices [0 .. length - 1] a [for (uint32 i = 0; i < length; i++)]
    loop goes through. *)
Definition indices (length : Z) : list Z :=
  map Z.of_nat (seq 0 (Z.to_nat length)).

Section NameTable.

Variable scriptContext : ScriptContext.

(** [AddToNameTable]: the table and the new [tableLen]. *)
Definition AddToNameTable (nameTable : list StringTable) (tableLen size : Z)
  (item : Var) : Completion (list StringTable * Z) :=
  let value : option Var :=
    match GetTypeId scriptContext item with
    | TypeIds_Integer => Some (VString (GetIntegerString (ToInt32 item)))
    | TypeIds_String => Some item
    | TypeIds_Number
    | TypeIds_OfObject TypeIds_NumberObject
    | TypeIds_Int64Number
    | TypeIds_UInt64Number
    | TypeIds_OfObject TypeIds_StringObject => Some (VString (ToString scriptContext item))
    | _ => None
    end in
  match value with
  | Some (VString propertyName) =>
      (* Only validate size when about to modify it. *)
      if tableLen =? size
      then Throw FatalInternalError    (* nameTable buffer calculation is wrong *)
      else
        let propertyRecord := GetOrAddPropertyRecord propertyName in
        Normal (store nameTable (Z.to_nat tableLen)
                      (mkStringTable propertyName propertyRecord),
                uint32_wrap (tableLen + 1))
  | _ => Normal (nameTable, tableLen)
  end.

(** Modelled from the spec: [JavascriptArray::GetLength()], the length of
    an array, a [uint32]. *)
Definition JavascriptArray_GetLength (value : Var) : Z :=
  match value with
  | VObject o => uint32_wrap (arrayLength (GetObject scriptContext o))
  | _ => 0
  end.

(** Modelled from the spec: [IsCrossSiteObject()], whether the object comes
    from another script context. *)
Definition IsCrossSiteObject (value : Var) : bool :=
  match value with
  | VObject o => crossSite (GetObject scriptContext o)
  | _ => false
  end.

(** The counting pass over the replacer array (JSON::Stringify, the two
    loops that compute [count]). *)
Definition countValidReplacerItems (replacerArg : Var) (isArray : bool) (length : Z) : Z :=
  fold_left
    (fun count i =>
       if isArray then
         let idn := GetTypeId scriptContext (DirectGetItem scriptContext replacerArg i) in
         if IsValidReplacerType idn then uint32_wrap (count + 1) else count
       else
         match GetItem scriptContext replacerArg i with
         | Some item =>
             let idn := GetTypeId scriptContext item in
             if IsValidReplacerType idn then uint32_wrap (count + 1) else count
         | None => count
         end)
    (indices length) 0.

(** The fill pass (the two loops around [AddToNameTable]), from a table and
    a [tableLen]. *)
Fixpoint fillNameTable (replacerArg : Var) (direct : bool) (count : Z)
  (range : list Z) (nameTable : list StringTable) (tableLen : Z)
  : Completion (list StringTable * Z) :=
  match range with
  | [] => Normal (nameTable, tableLen)
  | i :: rest =>
      if direct then
        let item := DirectGetItem scriptContext replacerArg i in
        match AddToNameTable nameTable tableLen count item with
        | Normal (nameTable', tableLen') =>
            fillNameTable replacerArg direct count rest nameTable' tableLen'
        | Throw e => Throw e
        end
      else
        match GetItem scriptContext replacerArg i with
        | Some item =>
            match AddToNameTable nameTable tableLen count item with
            | Normal (nameTable', tableLen') =>
                fillNameTable replacerArg direct count rest nameTable' tableLen'
            | Throw e => Throw e
            end
        | None => fillNameTable replacerArg direct count rest nameTable tableLen
        end
  end%list.

(** Modelled from the spec: [BVSparse::TestAndSet] on the set of property
    ids seen so far: whether the id was already in, and the set with it. *)
Definition TestAndSet (id : PropertyId) (propIdMap : list PropertyId)
  : bool * list PropertyId :=
  (existsb (PropertyId_eqb id) propIdMap, (id :: propIdMap)%list).

(** The loop that eliminates duplicates in place: the table, the set of
    ids seen and [j] after the indices of [range]. *)
Fixpoint eliminateDuplicates (range : list Z) (nameTable : list StringTable)
  (propIdMap : list PropertyId) (j : Z) : list StringTable * Z :=
  match range with
  | [] => (nameTable, j)
  | i :: rest =>
      let '(seen, propIdMap') :=
        TestAndSet (GetPropertyId (propRecord (entryAt nameTable i))) propIdMap in
      if seen then eliminateDuplicates rest nameTable propIdMap' j  (* continue *)
      else
        let nameTable' :=
          if negb (j =? i) then store nameTable (Z.to_nat j) (entryAt nameTable i)
          else nameTable in
        eliminateDuplicates rest nameTable' propIdMap' (uint32_wrap (j + 1))
  end%list.

(** JSON::Stringify, the branch for an array replacer: the name table and
    [tableLen] handed to [InitReplacer]. *)
Definition Stringify_nameTable (replacerArg : Var) : Completion (list StringTable * Z) :=
  let isArray := JavascriptArray_Is scriptContext replacerArg in
  let length :=
    if isArray then JavascriptArray_GetLength replacerArg
    else ToUInt32 scriptContext (OP_GetLength scriptContext replacerArg) in
  let count := countValidReplacerItems replacerArg isArray length in
  if negb (count =? 0) then
    let nameTable := AnewArray count in
    let direct := isArray && IsCrossSiteObject replacerArg in
    match fillNameTable replacerArg direct count (indices length) nameTable 0 with
    | Normal (nameTable, tableLen) =>
        (* Eliminate duplicates in replacer array. *)
        Normal (eliminateDuplicates (indices tableLen) nameTable [] 0)
    | Throw e => Throw e
    end
  else Normal ([], 0).

(** [StringifySession::CompleteInit]. *)
Definition CompleteInit (space : Var) (s : StringifySession) : StringifySession :=
  let withGap (len : Z) (buffer : JavascriptString) :=
    if negb (len =? 0) then set_gap (Some (NewCopyBuffer buffer len)) s else s in
  let s' :=
    match GetTypeId scriptContext space with
    | TypeIds_Integer =>
        let len := max_ 0 (min_ JSONspaceSize (ToInt32 space)) in
        withGap len jsonSpace_Buffer
    | TypeIds_Number
    | TypeIds_OfObject TypeIds_NumberObject
    | TypeIds_Int64Number
    | TypeIds_UInt64Number =>
        let len := max_ 0 (static_cast_int
                             (min_double (double_of_Z JSONspaceSize)
                                         (ToInteger scriptContext space))) in
        withGap len jsonSpace_Buffer
    | TypeIds_String =>
        let len := min_ JSONspaceSize (GetLength (JavascriptString_FromVar space)) in
        withGap len (JavascriptString_FromVar space)
    | TypeIds_OfObject TypeIds_StringObject =>
        let spaceString := ToString scriptContext space in
        let len := min_ JSONspaceSize (GetLength spaceString) in
        withGap len spaceString
    | _ => s
    end in
  set_objectStack JSONStack_new s'.

End NameTable.

(** ** The serializer *)

(** [library->GetNewLineString()]. *)
Definition NEWLINE : JavascriptString := char 10.

(** The locals a member loop of [StringifyObject] shares with
    [StringifyMemberObject] (passed by reference in C++). *)
Record MemberState : Type := mkMemberState {
  result : JavascriptString;                   (* the ConcatStringBuilder *)
  indentString : option JavascriptString;      (* gap*indent, NULL until needed *)
  memberSeparator : option JavascriptString;   (* comma or comma+linefeed+indent *)
  isFirstMember : bool;
  isEmpty : bool
}.

(** A loop body run for each element of a list in turn. *)
Fixpoint foreach {A S : Type} (l : list A) (body : A -> S -> M S) (acc : S) : M S :=
  match l with
  | [] => ret acc
  | a :: rest => acc' <- body a acc ;; foreach rest body acc'
  end%list.

(** [scriptContext->GetLibrary()->GetUndefined()]. *)
Definition undefined : Var := VUndefined.

(** Modelled from the spec: [JavascriptOperators::IsUndefinedObject]. *)
Definition IsUndefinedObject (value : Var) : bool :=
  match value with
  | VUndefined => true
  | _ => false
  end.

Section Serializer.

Variable scriptContext : ScriptContext.

(** The loop of [Get_ToJSON] over the object and its prototypes. *)
Fixpoint Get_ToJSON_walk (key : JavascriptString) (value : Var) (levels : list ObjId)
  : Completion (bool * Var) :=
  match levels with
  | [] => Normal (false, value)          (* typeId == TypeIds_Null *)
  | object :: up =>
      match GetPropertyQuery scriptContext object PropertyIds_toJSON with
      | Some toJSON =>
          if IsCallable scriptContext toJSON then
            match CallFunction scriptContext toJSON [value; VString key] with
            | Normal v => Normal (true, v)
            | Throw e => Throw e
            end
          else Get_ToJSON_walk key value up
      | None => Get_ToJSON_walk key value up
      end
  end%list.

(** [Get_ToJSON]: whether a hook was called, and [*value] afterwards. *)
Definition Get_ToJSON (key : JavascriptString) (value : Var) : Completion (bool * Var) :=
  match value with
  | VObject o => Get_ToJSON_walk key value (o :: prototypes (GetObject scriptContext o))
  | _ => Normal (false, value)
  end.

(** Modelled from the spec: [JavascriptBooleanObject::FromVar(value)->GetValue()],
    the boolean a Boolean object wraps. *)
Definition JavascriptBooleanObject_GetValue (value : Var) : bool :=
  match value with
  | VObject o =>
      match primitiveValue (GetObject scriptContext o) with
      | PrimitiveBoolean b => b
      | _ => false
      end
  | _ => false
  end.

(** [StringifySession::StrHelper], from its entry to the [switch]: the
    toJSON filter, the replacer function and the unwrapping of wrapper
    objects. The local [id] is [GetTypeId(value)] all along. *)
Definition StrHelper_prepare (key : JavascriptString) (value holder : Var) : M Var :=
  (* check and apply 'toJSON' filter *)
  value <- (if IsJsNativeObject scriptContext value || IsObject value
            then r <- lift (Get_ToJSON key value) ;; ret (snd r)
            else ret value) ;;
  (* check and apply the user defined replacer filter *)
  r <- gets replacer ;;
  value <- (match r with
            | ReplacerFunction func =>
                lift (CallFunction scriptContext func [holder; VString key; value])
            | _ => ret value
            end) ;;
  let id := GetTypeId scriptContext value in
  if TypeId_eqb TypeIds_NumberObject id
  then ret (VNumber (ToNumber scriptContext value))
  else if TypeId_eqb TypeIds_StringObject id
  then ret (VString (ToString scriptContext value))
  else if TypeId_eqb TypeIds_BooleanObject id
  then ret (VBoolean (JavascriptBooleanObject_GetValue value))
  else ret value.

(** [StringifySession::GetIndentString]. *)
Definition GetIndentString (count : Z) : M JavascriptString :=
  g <- gets gap ;;
  ret (match g with
       | Some gap => fold_left (fun res _ => Concat res gap) (indices count) ""
       | None => ""
       end).

(** [StringifySession::GetMemberSeparator]. *)
Definition GetMemberSeparator (indentString : JavascriptString) : M JavascriptString :=
  g <- gets gap ;;
  ret (match g with
       | Some _ => Concat ("," ++ NEWLINE) indentString
       | None => ","
       end).

(** [StringifySession::GetPropertySeparator]. *)
Definition GetPropertySeparator : M JavascriptString :=
  p <- gets propertySeparator ;;
  match p with
  | Some separator => ret separator
  | None =>
      g <- gets gap ;;
      let separator := match g with Some _ => ": " | None => ":" end in
      modify (set_propertySeparator (Some separator)) ;;;
      ret separator
  end.

(** The methods below call [StrHelper] on the members of a value; the
    recursion is closed further down. *)
Variable StrHelper : JavascriptString -> Var -> Var -> M Var.

(** [StringifySession::Str(uint32 index, RecyclableObject* holder)]. *)
Definition Str_index (index : Z) (holder : Var) : M Var :=
  if JavascriptArray_Is scriptContext holder
     && negb (IsCrossSiteObject scriptContext holder)
  then
    let value := DirectGetItem scriptContext holder index in
    if IsUndefinedObject value then ret value
    else StrHelper (GetIntegerString index) value holder
  else
    match GetItem scriptContext holder index with
    | None => ret undefined
    | Some value =>
        if IsUndefinedObject value then ret value
        else StrHelper (GetIntegerString index) value holder
    end.

(** [StringifySession::Str(JavascriptString* key, PropertyId keyId, Var
    holder, Var value)]; [None] is a null [value]. The inline cache tried
    first reads the same property as [GetProperty]. *)
Definition Str (key : JavascriptString) (keyId : PropertyId) (holder : Var)
  (value : option Var) : M Var :=
  match value with
  | Some value => StrHelper key value holder
  | None =>
      match GetProperty scriptContext holder keyId with
      | Some value => StrHelper key value holder
      | None => ret undefined
      end
  end.

(** [StringifySession::GetArrayElementString]. *)
Definition GetArrayElementString (index : Z) (arrayValue : Var) : M JavascriptString :=
  arrayElement <- Str_index index arrayValue ;;
  if IsUndefinedObject arrayElement then ret "null"
  else ret (JavascriptString_FromVar arrayElement).

(** [StringifySession::StringifyMemberObject]. *)
Definition StringifyMemberObject (propertyName : JavascriptString) (id : PropertyId)
  (value : Var) (st : MemberState) (propertyValue : option Var) : M MemberState :=
  propertyObjectString <- Str propertyName id value propertyValue ;;
  if negb (IsUndefinedObject propertyObjectString) then
    st <- (if negb (isFirstMember st) then
             match indentString st with
             | None =>
                 ind <- gets indent ;;
                 indentString' <- GetIndentString ind ;;
                 memberSeparator' <- GetMemberSeparator indentString' ;;
                 ret (mkMemberState (result st) (Some indentString')
                        (Some memberSeparator') (isFirstMember st) (isEmpty st))
             | Some _ => ret st
             end
           else ret st) ;;
    let slot0 :=
      if negb (isFirstMember st)
      then match memberSeparator st with Some sep => sep | None => "" end
      else "" in
    separator <- GetPropertySeparator ;;
    let tempResult :=
      slot0 ++ Quote propertyName ++ separator
            ++ JavascriptString_FromVar propertyObjectString in
    ret (mkMemberState (result st ++ tempResult) (indentString st)
           (memberSeparator st) false false)
  else ret st.

(** [StringifySession::GetPropertyCount(object, enumerator)]: the number of
    names the enumerator yields, counted in a [uint32]. *)
Definition GetPropertyCount (names : list JavascriptString) : Z :=
  fold_left (fun count _ => uint32_wrap (count + 1)) names 0.

(** Modelled from the spec: [scriptContext->GetPropertyString(id)], the
    name of a property id. *)
Definition GetPropertyString (id : PropertyId) : JavascriptString :=
  match id with
  | PropertyIdOfName name => name
  | _ => ""
  end.

(** Modelled from the spec: [JavascriptOperators::GetOwnPropertyDescriptor]
    of an object, reduced to the enumerable flag of the property
    ([None] when the object has no such own property). *)
Definition GetOwnPropertyDescriptor (o : ObjId) (id : PropertyId) : option bool :=
  match id with
  | PropertyIdOfName name =>
      match NumericValue name with
      | Some index => option_map (fun _ => true) (GetOwnItem scriptContext o index)
      | None => option_map entryEnumerable (lookupEntry (typeHandler (GetObject scriptContext o)) id)
      end
  | _ => option_map entryEnumerable (lookupEntry (typeHandler (GetObject scriptContext o)) id)
  end.

(** [StringifyObject], the loop over the indexed properties: the names the
    enumerator yields, up to [propertyCount] of them and, for a dynamic
    object, up to the first name that is not numeric. *)
Fixpoint StringifyObject_indexed (value : Var) (isDynamicObject : bool)
  (names : list JavascriptString) (propertyCount : Z) (st : MemberState)
  : M MemberState :=
  match names with
  | [] => ret st
  | propertyName :: rest =>
      if propertyCount >? 0 then
        let propRecord := GetOrAddPropertyRecord propertyName in
        if isDynamicObject && negb (IsNumeric propRecord) then ret st  (* break *)
        else
          let id := GetPropertyId propRecord in
          st' <- StringifyMemberObject propertyName id value st None ;;
          StringifyObject_indexed value isDynamicObject rest (propertyCount - 1) st'
      else ret st
  end%list.

(** [StringifyObject], the body of the loop over the named properties of a
    dynamic object, for the type handler entry at one property index. *)
Definition StringifyObject_named (value : Var) (dynamicObject : RecyclableObject)
  (entry : PropertyEntry) (st : MemberState) : M MemberState :=
  let id := entryId entry in
  match id with
  | NoProperty => ret st                                  (* continue *)
  | _ =>
      match lookupEntry (typeHandler dynamicObject) id with
      | Some found =>
          if negb (entryEnumerable found) then ret st     (* continue *)
          else
            let propertyName := GetPropertyString id in
            let propRecord := mkPropertyRecord id in
            if negb (IsSymbol propRecord) then
              let property :=
                if entryHasSlot found then Some (entryValue found)
                else None (* slow case *) in
              StringifyMemberObject propertyName id value st property
            else ret st
      | None => ret st
      end
  end.

(** [StringifyObject], the selection and serialization of the members. *)
Definition StringifyObject_members (value : Var) : M MemberState :=
  let st0 := mkMemberState "" None None true true in
  r <- gets replacer ;;
  match value with
  | VObject o =>
      let object := GetObject scriptContext o in
      match r with
      | ReplacerArray propertyNames length =>
          foreach (indices length)
            (fun k st =>
               let propertyName := propName (entryAt propertyNames k) in
               let id := GetPropertyId (propRecord (entryAt propertyNames k)) in
               StringifyMemberObject propertyName id value st None)
            st0
      | _ =>
          if JavascriptProxy_Is scriptContext value then
            (* filter enumerable keys *)
            foreach (propertyKeysTrap object)
              (fun propertyName st =>
                 let id := GetPropertyId (GetOrAddPropertyRecord propertyName) in
                 match GetOwnPropertyDescriptor o id with
                 | Some true => StringifyMemberObject propertyName id value st None
                 | _ => ret st
                 end)
              st0
          else
            match enumerator object with
            | Some names =>
                let isDynamicObject := isDynamicObject object in
                let hasObjectArray :=
                  isDynamicObject
                  && match objectArray object with Some _ => true | None => false end in
                let repFunctionIsReplacerType :=
                  match r with ReplacerFunction _ => true | _ => false end in
                let requiresStoringNames :=
                  repFunctionIsReplacerType && (negb isDynamicObject || hasObjectArray) in
                if negb requiresStoringNames then
                  st <- (if negb isDynamicObject || hasObjectArray then
                           let propertyCount := GetPropertyCount names in
                           StringifyObject_indexed value isDynamicObject names
                             propertyCount st0
                         else ret st0) ;;
                  if isDynamicObject then
                    (* loop over the named properties *)
                    foreach (typeHandler object) (StringifyObject_named value object) st
                  else ret st
                else
                  (* pick the property names before walking the object *)
                  let precisePropertyCount := GetPropertyCount names in
                  if precisePropertyCount >? 0 then
                    let nameTable := firstn (Z.to_nat precisePropertyCount) names in
                    foreach nameTable
                      (fun propertyName st =>
                         let id := GetPropertyId (GetOrAddPropertyRecord propertyName) in
                         StringifyMemberObject propertyName id value st None)
                      st0
                  else ret st0
            | None => ret st0
            end
      end
  | _ => ret st0
  end.

(** [StringifySession::StringifyObject]. *)
Definition StringifyObject (value : Var) : M Var :=
  stepBackIndent <- gets indent ;;
  modify (set_indent (uint32_wrap (stepBackIndent + 1))) ;;;
  st <- StringifyObject_members value ;;
  res <- (if isEmpty st then ret "{}"
          else
            g <- gets gap ;;
            match g with
            | Some _ =>
                indentString <- (match indentString st with
                                 | Some indentString => ret indentString
                                 | None => ind <- gets indent ;; GetIndentString ind
                                 end) ;;
                stepBack <- GetIndentString stepBackIndent ;;
                ret ("{" ++ NEWLINE ++ indentString ++ result st
                         ++ NEWLINE ++ stepBack ++ "}")
            | None => ret ("{" ++ result st ++ "}")
            end) ;;
  modify (set_indent stepBackIndent) ;;;
  ret (VString res).

(** [StringifySession::StringifyArray]. *)
Definition StringifyArray (value : Var) : M Var :=
  stepBackIndent <- gets indent ;;
  modify (set_indent (uint32_wrap (stepBackIndent + 1))) ;;;
  length <- (if JavascriptArray_Is scriptContext value
             then ret (JavascriptArray_GetLength scriptContext value)
             else
               let len := ToLength scriptContext (OP_GetLength scriptContext value) in
               if MaxCharCount <=? len
               then
                 (* failing early *)
                 throw (RangeError JSERR_OutOfBoundString)
               else ret (uint32_wrap len)) ;;
  res <- (if length =? 0 then ret "[]"
          else
            inner <- (if length =? 1 then
                        element <- GetArrayElementString 0 value ;;
                        ret (element, None)
                      else
                        ind <- gets indent ;;
                        indentString <- GetIndentString ind ;;
                        memberSeparator <- GetMemberSeparator indentString ;;
                        built <- foreach (indices length)
                          (fun k (acc : JavascriptString * bool) =>
                             let '(res, isFirstMember) := acc in
                             let res :=
                               if negb isFirstMember then res ++ memberSeparator else res in
                             arrayElementString <- GetArrayElementString k value ;;
                             ret (res ++ arrayElementString, false))
                          ("", true) ;;
                        ret (fst built, Some indentString)) ;;
            let '(res, indentString) := inner in
            g <- gets gap ;;
            match g with
            | Some _ =>
                indentString <- (match indentString with
                                 | Some indentString => ret indentString
                                 | None => ind <- gets indent ;; GetIndentString ind
                                 end) ;;
                stepBack <- GetIndentString stepBackIndent ;;
                ret ("[" ++ NEWLINE ++ indentString ++ res
                         ++ NEWLINE ++ stepBack ++ "]")
            | None => ret ("[" ++ res ++ "]")
            end) ;;
  modify (set_indent stepBackIndent) ;;;
  ret (VString res).

(** [StringifySession::StrHelper], the [switch] on the type id of the
    prepared value. *)
Definition StrHelper_dispatch (value : Var) : M Var :=
  match GetTypeId scriptContext value with
  | TypeIds_Undefined
  | TypeIds_Symbol => ret undefined
  | TypeIds_Null => ret (VString "null")
  | TypeIds_Integer => ret (VString (GetIntegerString (ToInt32 value)))
  | TypeIds_Boolean =>
      ret (VString (match value with VBoolean true => "true" | _ => "false" end))
  | TypeIds_Int64Number
  | TypeIds_UInt64Number
  | TypeIds_Number =>
      if IsFinite (ToNumber scriptContext value)
      then ret (VString (ToString scriptContext value))
      else ret (VString "null")
  | TypeIds_String => ret (VString (Quote (JavascriptString_FromVar value)))
  | TypeIds_OfObject _ =>
      (* default: *)
      if IsJsNativeObject scriptContext value then
        if negb (IsCallable scriptContext value) then
          has <- gets (fun s => Has value true (objectStack s)) ;;
          if has then throw (TypeError JSERR_JSONSerializeCircular)
          else
            modify (fun s => set_objectStack (Push value true (objectStack s)) s) ;;;
            r <- (if IsArray scriptContext value
                  then StringifyArray value
                  else StringifyObject value) ;;
            modify (fun s => set_objectStack (Pop true (objectStack s)) s) ;;;
            ret r
        else ret undefined
      else if IsObject value then
        (* every object which is not a native object gets stringified here *)
        has <- gets (fun s => Has value false (objectStack s)) ;;
        if has then throw (TypeError JSERR_JSONSerializeCircular)
        else
          modify (fun s => set_objectStack (Push value false (objectStack s)) s) ;;;
          r <- StringifyObject value ;;
          modify (fun s => set_objectStack (Pop false (objectStack s)) s) ;;;
          ret r
      else ret undefined
  end.

(** The body of [StringifySession::StrHelper] once the stack probe has
    passed. *)
Definition StrHelper_body (key : JavascriptString) (value holder : Var) : M Var :=
  prepared <- StrHelper_prepare key value holder ;;
  StrHelper_dispatch prepared.

End Serializer.

(** [StringifySession::StrHelper]. [stack] is the room left for nested
    calls: [PROBE_STACK] throws when there is none, and each nested call
    has one unit less. *)
Fixpoint StrHelper (scriptContext : ScriptContext) (stack : nat)
  (key : JavascriptString) (value holder : Var) : M Var :=
  match stack with
  | O => throw StackOverflow
  | S stack' =>
      StrHelper_body scriptContext (StrHelper scriptContext stack') key value holder
  end.

(** ** The entry point *)

(** Modelled from the spec: [library->CreateObject()] followed by
    [InitProperty(wrapper, propertyId, value)]: a fresh plain object
    with the one property. *)
Definition CreateWrapper (scriptContext : ScriptContext) (propertyId : PropertyId)
  (value : Var) : ObjId * ScriptContext :=
  let wrapper := nextObject scriptContext in
  let object :=
    mkRecyclableObject TypeIds_Object [] false None NoPrimitive true None 0
      [mkPropertyEntry propertyId true true value]
      (Some [GetPropertyString propertyId]) [] false None (fun _ => None) in
  (wrapper,
   mkScriptContext
     (fun o => if Nat.eqb o wrapper then object else recycler scriptContext o)
     (S wrapper)
     (NumberToString scriptContext)
     (StringToNumber scriptContext)).

(** The arguments [value], [replacerArg] and [space] of a call:
    [args[0]] is the implicit [this]. *)
Definition argument (args : list Var) (n : nat) : option Var := nth_error args n.

(** [JSON::Stringify]. [args] are the arguments of the call, [this]
    included; the result is the text, or undefined. *)
Definition Stringify (scriptContext : ScriptContext) (stack : nat) (args : list Var)
  : Completion Var :=
  match stack with
  | O => Throw StackOverflow        (* PROBE_STACK *)
  | S stack' =>
      match argument args 1 with
      | None =>
          (* if value is missing it is assumed to be 'undefined'.
             shortcut: the stringify algorithm returns undefined in this case. *)
          Normal VUndefined
      | Some value =>
          let replacerArg := argument args 2 in
          let space := match argument args 3 with Some space => space | None => VNull end in
          let remote : Var + Var :=    (* the value to go on with, or the result *)
            match value with
            | VObject o =>
                match typeId (GetObject scriptContext o) with
                | TypeIds_HostDispatch =>
                    match remoteObject (GetObject scriptContext o) with
                    | Some remote => inl (VObject remote)
                    | None =>
                        match invokeRemotely (GetObject scriptContext o) args with
                        | Some result => inr result
                        | None => inl value
                        end
                    end
                | _ => inl value
                end
            | _ => inl value
            end in
          match remote with
          | inr result => Normal result
          | inl value =>
              let stringifySession := StringifySession_new in
              let initialized : Completion StringifySession :=
                match replacerArg with
                | Some replacerArg =>
                    if IsArray scriptContext replacerArg then
                      match Stringify_nameTable scriptContext replacerArg with
                      | Normal (nameTable, tableLen) =>
                          Normal (InitReplacer_array nameTable tableLen stringifySession)
                      | Throw e => Throw e
                      end
                    else if IsCallable scriptContext replacerArg then
                      Normal (InitReplacer_function replacerArg stringifySession)
                    else Normal stringifySession
                | None => Normal stringifySession
                end in
              match initialized with
              | Throw e => Throw e
              | Normal stringifySession =>
                  let stringifySession := CompleteInit scriptContext space stringifySession in
                  let propertyId := PropertyIdOfName "" in
                  let '(wrapper, scriptContext) :=
                    CreateWrapper scriptContext propertyId value in
                  fst (Str scriptContext (StrHelper scriptContext stack')
                         "" propertyId (VObject wrapper) (Some value) stringifySession)
              end
          end
      end
  end.

(** ** Sample heaps

    Builders for the objects of small heaps, used to run the serializer
    on concrete inputs. *)

(** A plain object with enumerable data properties, in definition order. *)
Definition plainObject (properties : list (JavascriptString * Var)) : RecyclableObject :=
  mkRecyclableObject TypeIds_Object [] false None NoPrimitive true None 0
    (map (fun p => mkPropertyEntry (PropertyIdOfName (fst p)) true true (snd p)) properties)
    (Some (map fst properties)) [] false None (fun _ => None).

(** An array of the given length holding the given leading elements. *)
Definition arrayOfLength (length : Z) (elements : list Var) : RecyclableObject :=
  mkRecyclableObject TypeIds_Array [] false None NoPrimitive true
    (Some (combine (indices (Z.of_nat (List.length elements))) elements))
    length [] (Some []) [] false None (fun _ => None).

(** An array holding the given elements. *)
Definition arrayObject (elements : list Var) : RecyclableObject :=
  arrayOfLength (Z.of_nat (List.length elements)) elements.

(** A function with the given behaviour. *)
Definition functionObject (body : list Var -> CallResult) : RecyclableObject :=
  mkRecyclableObject TypeIds_Function [] false (Some body) NoPrimitive true None 0
    [] (Some []) [] false None (fun _ => None).

(** A proxy of an array: no elements of its own, and the given value for
    its [length] property. *)
Definition arrayProxy (length : Var) : RecyclableObject :=
  mkRecyclableObject TypeIds_Proxy [] false None NoPrimitive false None 0
    [mkPropertyEntry PropertyIds_length false true length]
    None [] true None (fun _ => None).

(** A number conversion that is exact on the integers. *)
Definition sampleNumberToString (d : double) : JavascriptString :=
  match d with
  | NaN => "NaN"
  | Infinity negative => if negative then "-Infinity" else "Infinity"
  | Finite m e => GetIntegerString (truncate m e)
  end.

(** The heap holding the given objects at the identities 0, 1, ... *)
Definition heapOf (objects : list RecyclableObject) : ScriptContext :=
  mkScriptContext (fun o => nth o objects (plainObject []))
    (List.length objects) sampleNumberToString (fun _ => NaN).

(** A replacer function that turns undefined into 7 and returns any other
    value as it is. *)
Definition undefinedToSeven (args : list Var) : CallResult :=
  match args with
  | [_; _; VUndefined] => Returns (VInteger 7)
  | [_; _; v] => Returns v
  | _ => Returns VUndefined
  end%list.

(** The sample heap:
    - 0: [{a: undefined, b: 1}]
    - 1: [[undefined, 1]]
    - 2: [x] with [x.self = x]
    - 3: [{a: 1, b: 2, c: 3}]
    - 4: [["a", "a", "b", "a"]]
    - 5: [{x: [undefined, 1], y: {a: 1, b: 2, c: 3}}]
    - 6: an array of length [MaxCharCount] without elements
    - 7: a proxy of an array whose length reads [2^31]
    - 8: the function [undefinedToSeven]
    - 9: [[true, null]], a replacer array without a name
    - 10: [[x]] with [x] the object 2. *)
Definition sampleContext : ScriptContext :=
  heapOf [plainObject [("a", VUndefined); ("b", VInteger 1)];
          arrayObject [VUndefined; VInteger 1];
          plainObject [("self", VObject 2%nat)];
          plainObject [("a", VInteger 1); ("b", VInteger 2); ("c", VInteger 3)];
          arrayObject [VString "a"; VString "a"; VString "b"; VString "a"];
          plainObject [("x", VObject 1%nat); ("y", VObject 3%nat)];
          arrayOfLength MaxCharCount [];
          arrayProxy (VNumber (Finite 1 31));
          functionObject undefinedToSeven;
          arrayObject [VBoolean true; VNull];
          arrayObject [VObject 2%nat]]%list.

(** A text between double quotes. *)
Definition quoted (text : JavascriptString) : JavascriptString := QUOTE ++ text ++ QUOTE.

(** A wrapper object around a primitive value. *)
Definition wrapperObject (type : ObjectTypeId) (primitive : PrimitiveValue)
  : RecyclableObject :=
  mkRecyclableObject type [] false None primitive true None 0
    [] (Some []) [] false None (fun _ => None).

(** An object without properties of its own, with the given prototype
    chain. *)
Definition objectWithPrototypes (chain : list ObjId) : RecyclableObject :=
  mkRecyclableObject TypeIds_Object chain false None NoPrimitive true None 0
    [] (Some []) [] false None (fun _ => None).

(** A second heap, for hooks and wrapper objects:
    - 0: a function returning 42
    - 1: [{toJSON() { return 42 }}]
    - 2: [{a: NaN, b: Infinity}]
    - 3: [{a: 1, b: 2}]
    - 4: an object whose prototype is the object 1
    - 5: [new Number(5)], 6: [new String("s")], 7: [new Boolean(true)]
    - 8: [[new Number(5), new String("s"), new Boolean(true)]]
    - 9: a function returning the key it is called with
    - 10: [{toJSON(key) { return key }}]
    - 11: [{k: o}] with [o] the object 10. *)
Definition hookContext : ScriptContext :=
  heapOf [functionObject (fun _ => Returns (VInteger 42));
          plainObject [("toJSON", VObject 0%nat)];
          plainObject [("a", VNumber NaN); ("b", VNumber (Infinity false))];
          plainObject [("a", VInteger 1); ("b", VInteger 2)];
          objectWithPrototypes [1%nat];
          wrapperObject TypeIds_NumberObject (PrimitiveNumber (Finite 5 0));
          wrapperObject TypeIds_StringObject (PrimitiveString "s");
          wrapperObject TypeIds_BooleanObject (PrimitiveBoolean true);
          arrayObject [VObject 5%nat; VObject 6%nat; VObject 7%nat];
          functionObject (fun args => match args with
                                      | [_; key] => Returns key
                                      | _ => Returns VUndefined
                                      end);
          plainObject [("toJSON", VObject 9%nat)];
          plainObject [("k", VObject 10%nat)]]%list.

(** ** Words of the specification *)

(** The gap as a text: empty when there is none. *)
Definition gapText (s : StringifySession) : JavascriptString :=
  match gap s with
  | Some g => g
  | None => ""
  end.

(** [n] space characters. *)
Fixpoint spaces (n : nat) : JavascriptString :=
  match n with
  | O => ""
  | S n' => " " ++ spaces n'
  end.

(** An integer clamped to [0, 10]. *)
Definition clampSpace (n : Z) : Z := Z.max 0 (Z.min 10 n).

(** A number truncated toward zero and clamped to [0, 10]. *)
Definition clampNumber (d : double) : Z :=
  match d with
  | NaN => 0
  | Infinity negative => if negative then 0 else 10
  | Finite m e => clampSpace (truncate m e)
  end.

(** The first [min(10, length)] characters of a string. *)
Definition firstTen (s : JavascriptString) : JavascriptString :=
  substring 0 (Nat.min 10 (String.length s)) s.

(** The session the entry point hands to [Str] when there is no replacer:
    a new session after [CompleteInit]. *)
Definition sessionWithSpace (scriptContext : ScriptContext) (space : Var) : StringifySession :=
  CompleteInit scriptContext space StringifySession_new.

Section PreprocessorWords.

Variable scriptContext : ScriptContext.

(** Whether a level of a prototype chain exposes a callable property named
    [toJSON]. *)
Definition exposesHook (level : ObjId) : bool :=
  match GetPropertyQuery scriptContext level PropertyIds_toJSON with
  | Some hook => IsCallable scriptContext hook
  | None => false
  end.

(** The hook of a value: for an object, the [toJSON] of the first level of
    its prototype chain, itself included, that exposes a callable one. *)
Definition hookOf (value : Var) : option Var :=
  match value with
  | VObject o =>
      match find exposesHook (o :: prototypes (GetObject scriptContext o)) with
      | Some level => GetPropertyQuery scriptContext level PropertyIds_toJSON
      | None => None
      end
  | _ => None
  end.

(** Step 1, the toJSON hook: [value.toJSON(key)] when there is a hook. *)
Definition toJSON_step (key : JavascriptString) (value : Var) : Completion Var :=
  match hookOf value with
  | Some hook => CallFunction scriptContext hook [value; VString key]
  | None => Normal value
  end.

(** Step 2, the replacer transform: the replacer function called on the
    holder with the key and the value. *)
Definition replacer_step (r : Replacer) (holder : Var) (key : JavascriptString)
  (value : Var) : Completion Var :=
  match r with
  | ReplacerFunction func => CallFunction scriptContext func [holder; VString key; value]
  | _ => Normal value
  end.

(** Step 3, the unwrapping of a boxed Number, String or Boolean. *)
Definition unwrap_step (value : Var) : Var :=
  match value with
  | VObject o =>
      match typeId (GetObject scriptContext o), primitiveValue (GetObject scriptContext o) with
      | TypeIds_NumberObject, _ => VNumber (ToNumber scriptContext value)
      | TypeIds_StringObject, _ => VString (ToString scriptContext value)
      | TypeIds_BooleanObject, PrimitiveBoolean b => VBoolean b
      | TypeIds_BooleanObject, _ => VBoolean false
      | _, _ => value
      end
  | _ => value
  end.

(** The three steps in order, the first failure ending the sequence. *)
Definition ValuePreprocessor (r : Replacer) (key : JavascriptString)
  (value holder : Var) : Completion Var :=
  match toJSON_step key value with
  | Throw e => Throw e
  | Normal hooked =>
      match replacer_step r holder key hooked with
      | Throw e => Throw e
      | Normal replaced => Normal (unwrap_step replaced)
      end
  end.

End PreprocessorWords.

(** The prepared values that are left out of the output: undefined, a
    symbol, a function. *)
Definition isOmitted (scriptContext : ScriptContext) (prepared : Var) : bool :=
  match prepared with
  | VUndefined | VSymbol _ => true
  | VObject _ =>
      IsJsNativeObject scriptContext prepared && IsCallable scriptContext prepared
  | _ => false
  end.

Section NameFilterWords.

Variable scriptContext : ScriptContext.

(** The length of the replacer array: of the array itself, or its
    [length] property converted to a [uint32]. *)
Definition replacerLength (replacerArg : Var) : Z :=
  if JavascriptArray_Is scriptContext replacerArg
  then JavascriptArray_GetLength scriptContext replacerArg
  else ToUInt32 scriptContext (OP_GetLength scriptContext replacerArg).

(** The elements found at the given indices of the replacer array, in
    the order of the indices. *)
Definition elementsAt (replacerArg : Var) (range : list Z) : list Var :=
  flat_map (fun i => match GetItem scriptContext replacerArg i with
                     | Some item => [item]
                     | None => []
                     end%list) range.

(** The elements of the replacer array, in index order. *)
Definition replacerElements (replacerArg : Var) : list Var :=
  elementsAt replacerArg (indices (replacerLength replacerArg)).

(** The name-producing elements: Integer, String, Number, and the boxed
    forms of these. *)
Definition producesName (item : Var) : bool :=
  match item with
  | VInteger _ | VString _ | VNumber _ | VInt64Number _ | VUInt64Number _ => true
  | VObject o =>
      match typeId (GetObject scriptContext o) with
      | TypeIds_NumberObject | TypeIds_StringObject => true
      | _ => false
      end
  | _ => false
  end.

(** The name-producing elements at the given indices. *)
Definition nameProducingAt (replacerArg : Var) (range : list Z) : list Var :=
  filter producesName (elementsAt replacerArg range).

(** The name an element produces: the decimal string of an integer, a
    string itself, the conversion of a number or of a boxed form. *)
Definition nameOf (item : Var) : JavascriptString := ToString scriptContext item.

(** A list of names without its duplicates: of each name, the first
    occurrence stays. *)
Fixpoint keepFirst (names : list JavascriptString) : list JavascriptString :=
  match names with
  | [] => []
  | name :: rest => name :: filter (fun other => negb (String.eqb other name)) (keepFirst rest)
  end%list.

(** The name filter a replacer array resolves to. *)
Definition NameFilter (replacerArg : Var) : list JavascriptString :=
  keepFirst (map nameOf (nameProducingAt replacerArg
                           (indices (replacerLength replacerArg)))).

End NameFilterWords.

(** The name table entry of a name. *)
Definition entryOfName (name : JavascriptString) : StringTable :=
  mkStringTable name (GetOrAddPropertyRecord name).

(** The entries of a list that are kept when the ids in [seen] have been
    met already. *)
Fixpoint keepUnseen (seen : list PropertyId) (entries : list StringTable)
  : list StringTable :=
  match entries with
  | [] => []
  | entry :: rest =>
      let id := GetPropertyId (propRecord entry) in
      if existsb (PropertyId_eqb id) seen
      then keepUnseen (id :: seen) rest
      else entry :: keepUnseen (id :: seen) rest
  end%list.

(** Whether the id of a name is not among the ids met already. *)
Definition unseen (seen : list PropertyId) (name : JavascriptString) : bool :=
  negb (existsb (PropertyId_eqb (PropertyIdOfName name)) seen).

(** ** Statements about the session *)

(** [keeps m]: running [m] never changes the gap or the replacer, and when
    [m] returns normally the cycle stack and the depth are what they were
    on entry. *)
Definition keeps {A : Type} (m : M A) : Prop :=
  forall s r s',
    m s = (r, s') ->
    gap s' = gap s /\ replacer s' = replacer s
    /\ (forall a, r = Normal a ->
        objectStack s' = objectStack s /\ indent s' = indent s).

(** [restores i m]: like [keeps m], but the depth on normal return is [i]
    whatever it was on entry. *)
Definition restores {A : Type} (i : Z) (m : M A) : Prop :=
  forall s r s',
    m s = (r, s') ->
    gap s' = gap s /\ replacer s' = replacer s
    /\ (forall a, r = Normal a -> objectStack s' = objectStack s /\ indent s' = i).

(** The claim as it is worded: whatever the way [StrHelper] is left, the
    cycle stack is the one it was entered with. *)
Definition popped_on_every_exit : Prop :=
  forall scriptContext stack key value holder s r s',
    StrHelper scriptContext stack key value holder s = (r, s') ->
    objectStack s' = objectStack s.

(** ** Words for the text the serializer builds *)

(** A string repeated [n] times. *)
Fixpoint repeatString (n : nat) (text : JavascriptString) : JavascriptString :=
  match n with
  | O => ""
  | S n' => text ++ repeatString n' text
  end.

(** The indentation at a depth: the gap repeated, nothing without a gap. *)
Definition indentation (g : option JavascriptString) (depth : Z) : JavascriptString :=
  match g with
  | Some gap => repeatString (Z.to_nat depth) gap
  | None => ""
  end.

(** ** Statements about what a method returns *)

(** [post P m]: whenever [m] returns, what it returns satisfies [P]. *)
Definition post {A : Type} (P : A -> Prop) (m : M A) : Prop :=
  forall s a s', m s = (Normal a, s') -> P a.

(** What [Str] gives back: undefined, or a string. *)
Definition isText (v : Var) : Prop := v = VUndefined \/ exists text, v = VString text.

(** A string. *)
Definition isString (v : Var) : Prop := exists text, v = VString text.

(** The value [Stringify] goes on with when it does not hand the call to a
    remote object: the value itself, or the remote object of a host
    dispatch object; [None] when the remote invocation gives the result. *)
Definition localValue (scriptContext : ScriptContext) (args : list Var) (value : Var)
  : option Var :=
  match value with
  | VObject o =>
      match typeId (GetObject scriptContext o) with
      | TypeIds_HostDispatch =>
          match remoteObject (GetObject scriptContext o) with
          | Some remote => Some (VObject remote)
          | None =>
              match invokeRemotely (GetObject scriptContext o) args with
              | Some _ => None
              | None => Some value
              end
          end
      | _ => Some value
      end
  | _ => Some value
  end.

(** [maintains I E m]: from a session satisfying [I], [m] leaves a session
    satisfying [I], whether it returns or throws, and throws only
    exceptions satisfying [E]. *)
Definition maintains (I : StringifySession -> Prop) (E : Exception -> Prop)
  {A : Type} (m : M A) : Prop :=
  forall s r s', I s -> m s = (r, s') -> I s' /\ (forall e, r = Throw e -> E e).

(** No identity is twice on the cycle stack. *)
Definition distinctIdentities (stack : JSONStack) : Prop :=
  NoDup (jsObjectStack stack) /\ NoDup (domObjectStack stack).

(** The separator between a name and its value that goes with a gap. *)
Definition separatorFor (g : option JavascriptString) : JavascriptString :=
  match g with
  | Some _ => ": "
  | None => ":"
  end.

(** The cached property separator, when there is one, is the one that goes
    with the gap of the session. *)
Definition separatorConsistent (s : StringifySession) : Prop :=
  propertySeparator s = None \/ propertySeparator s = Some (separatorFor (gap s)).

(** ** Words for the text of an array and of an object *)

(** Each element of a list run in turn, the results collected in order;
    the first exception ends the run. *)
Fixpoint collect {A B : Type} (f : A -> M B) (l : list A) : M (list B) :=
  match l with
  | [] => ret []
  | a :: rest => b <- f a ;; bs <- collect f rest ;; ret (b :: bs)
  end%list.

(** The members of an array or of an object between their brackets, for a
    value met at depth [depth]: nothing between the brackets when there is
    no member; with a gap, each member on a line of its own, indented one
    level more than the closing bracket. *)
Definition enclosed (opening closing : JavascriptString) (g : option JavascriptString)
  (depth : Z) (members : list JavascriptString) : JavascriptString :=
  match members with
  | nil => opening ++ closing
  | _ =>
      match g with
      | Some _ =>
          let indentString := indentation g (uint32_wrap (depth + 1)) in
          opening ++ NEWLINE ++ indentString
            ++ String.concat ("," ++ NEWLINE ++ indentString) members
            ++ NEWLINE ++ indentation g depth ++ closing
      | None => opening ++ String.concat "," members ++ closing
      end
  end.

(** The number of elements [StringifyArray] serializes; [None] when it
    fails early. *)
Definition arrayLikeLength (scriptContext : ScriptContext) (value : Var) : option Z :=
  if JavascriptArray_Is scriptContext value
  then Some (JavascriptArray_GetLength scriptContext value)
  else
    let len := ToLength scriptContext (OP_GetLength scriptContext value) in
    if MaxCharCount <=? len then None else Some (uint32_wrap len).

(** What comes after the first member of a joined text. *)
Fixpoint tails (sep : JavascriptString) (texts : list JavascriptString) : JavascriptString :=
  match texts with
  | nil => ""
  | cons x rest => sep ++ x ++ tails sep rest
  end.

(** The accumulator of the element loop of [StringifyArray]. *)
Definition arrayStep (memberSeparator : JavascriptString)
  (acc : JavascriptString * bool) (text : JavascriptString) : JavascriptString * bool :=
  ((if negb (snd acc) then fst acc ++ memberSeparator else fst acc) ++ text, false).

(** A member [StringifyObject] visits: its name, its property id, and its
    value when the loop has it in hand already. *)
Record Member : Type := mkMember {
  memberName : JavascriptString;
  memberId : PropertyId;
  memberValue : option Var
}.

(** The member looked up by a name. *)
Definition memberOfName (propertyName : JavascriptString) : Member :=
  mkMember propertyName (GetPropertyId (GetOrAddPropertyRecord propertyName)) None.

(** The values that are there, in order. *)
Definition present {A : Type} (l : list (option A)) : list A :=
  flat_map (fun x => match x with Some a => cons a nil | None => nil end) l.

(** The names the loop over the indexed properties visits: for a dynamic
    object, the names before the first one that is not numeric. *)
Fixpoint indexedNames (isDynamicObject : bool) (names : list JavascriptString)
  : list JavascriptString :=
  match names with
  | nil => nil
  | cons propertyName rest =>
      if isDynamicObject && negb (IsNumeric (GetOrAddPropertyRecord propertyName))
      then nil
      else cons propertyName (indexedNames isDynamicObject rest)
  end.

(** The member the loop over the named properties visits for the type
    handler entry at one property index, if any. *)
Definition namedMember (dynamicObject : RecyclableObject) (entry : PropertyEntry)
  : option Member :=
  let id := entryId entry in
  match id with
  | NoProperty => None
  | _ =>
      match lookupEntry (typeHandler dynamicObject) id with
      | Some found =>
          if negb (entryEnumerable found) then None
          else if negb (IsSymbol (mkPropertyRecord id)) then
            Some (mkMember (GetPropertyString id) id
                    (if entryHasSlot found then Some (entryValue found) else None))
          else None
      | None => None
      end
  end.

(** The members [StringifyObject] visits, in the order it visits them. *)
Definition members (scriptContext : ScriptContext) (r : Replacer) (value : Var)
  : list Member :=
  match value with
  | VObject o =>
      let object := GetObject scriptContext o in
      match r with
      | ReplacerArray propertyNames length =>
          map (fun k => mkMember (propName (entryAt propertyNames k))
                          (GetPropertyId (propRecord (entryAt propertyNames k))) None)
              (indices length)
      | _ =>
          if JavascriptProxy_Is scriptContext value then
            map memberOfName
              (filter (fun propertyName =>
                         match GetOwnPropertyDescriptor scriptContext o
                                 (GetPropertyId (GetOrAddPropertyRecord propertyName)) with
                         | Some true => true
                         | _ => false
                         end)
                      (propertyKeysTrap object))
          else
            match enumerator object with
            | Some names =>
                let isDynamicObject := isDynamicObject object in
                let hasObjectArray :=
                  isDynamicObject
                  && match objectArray object with Some _ => true | None => false end in
                let repFunctionIsReplacerType :=
                  match r with ReplacerFunction _ => true | _ => false end in
                let requiresStoringNames :=
                  repFunctionIsReplacerType && (negb isDynamicObject || hasObjectArray) in
                let propertyCount := Z.to_nat (GetPropertyCount names) in
                if negb requiresStoringNames then
                  (if negb isDynamicObject || hasObjectArray
                   then map memberOfName
                          (indexedNames isDynamicObject (firstn propertyCount names))
                   else nil)
                  ++ (if isDynamicObject
                      then present (map (namedMember object) (typeHandler object))
                      else nil)
                else map memberOfName (firstn propertyCount names)
            | None => nil
            end
      end
  | _ => nil
  end%list.

(** The text of one member, [None] when the member is omitted. *)
Definition memberText (scriptContext : ScriptContext)
  (rec : JavascriptString -> Var -> Var -> M Var) (value : Var) (m : Member)
  : M (option JavascriptString) :=
  propertyObjectString <-
    Str scriptContext rec (memberName m) (memberId m) value (memberValue m) ;;
  if negb (IsUndefinedObject propertyObjectString) then
    separator <- GetPropertySeparator ;;
    ret (Some (Quote (memberName m) ++ separator
                 ++ JavascriptString_FromVar propertyObjectString))
  else ret None.

(** The separator between two members at depth [depth]. *)
Definition memberSeparatorFor (g : option JavascriptString) (depth : Z)
  : JavascriptString :=
  match g with
  | Some _ => Concat ("," ++ NEWLINE) (indentation g depth)
  | None => ","
  end.

(** The locals of a member loop after the members of the texts [texts]. *)
Definition joinedSoFar (g : option JavascriptString) (depth : Z) (st : MemberState)
  (texts : list JavascriptString) : Prop :=
  isEmpty st = match texts with nil => true | _ => false end
  /\ isFirstMember st = isEmpty st
  /\ result st = String.concat (memberSeparatorFor g depth) texts
  /\ ((indentString st = None /\ memberSeparator st = None)
      \/ (indentString st = Some (indentation g depth)
          /\ memberSeparator st = Some (memberSeparatorFor g depth))).

(** [StringifyMemberObject] on a member. *)
Definition visit (scriptContext : ScriptContext)
  (rec : JavascriptString -> Var -> Var -> M Var) (value : Var) (m : Member)
  (st : MemberState) : M MemberState :=
  StringifyMemberObject scriptContext rec (memberName m) (memberId m) value st
    (memberValue m).

(** ** Words for the cycle stack *)

(** The stack of [objectStack] a value goes on in the [default:] case of
    [StrHelper]: the one of the objects of the script engine ([Some true]),
    the one of the other objects ([Some false]), or none, for a function
    of the script engine. *)
Definition cycleStackOf (scriptContext : ScriptContext) (value : Var) : option bool :=
  if IsJsNativeObject scriptContext value then
    if negb (IsCallable scriptContext value) then Some true else None
  else if IsObject value then Some false
  else None.

(** The serializer [StrHelper] runs between the push and the pop. *)
Definition serializeMembers (scriptContext : ScriptContext)
  (rec : JavascriptString -> Var -> Var -> M Var) (value : Var) : M Var :=
  if IsJsNativeObject scriptContext value then
    if IsArray scriptContext value
    then StringifyArray scriptContext rec value
    else StringifyObject scriptContext rec value
  else StringifyObject scriptContext rec value.

(** [stack] is [base] with more identities pushed on it. *)
Definition stackExtends (base stack : JSONStack) : Prop :=
  exists js dom,
    jsObjectStack stack = (js ++ jsObjectStack base)%list
    /\ domObjectStack stack = (dom ++ domObjectStack base)%list.

(** ** Words for the elements and members left out *)

(** The text of an array element, from what [Str] gives for it: the
    literal [null] for the omit signal. *)
Definition arrayElementText (arrayElement : Var) : JavascriptString :=
  if IsUndefinedObject arrayElement then "null"
  else JavascriptString_FromVar arrayElement.

(** A callable object of the host: not an object of the script engine. *)
Definition hostFunction : RecyclableObject :=
  mkRecyclableObject TypeIds_HostDispatch [] false (Some (fun _ => Returns VUndefined))
    NoPrimitive false None 0 [] None [] false None (fun _ => None).

(** A heap with a callable host object [h] (0), the array [[h]] (1) and the
    object [{m: h}] (2). *)
Definition hostContext : ScriptContext :=
  heapOf [hostFunction; arrayObject [VObject 0%nat]; plainObject [("m", VObject 0%nat)]]%list.


(** ** The replacer name table when a conversion runs script

    [JavascriptConversion::ToString] on a Number object or a String object
    calls the [toString] or [valueOf] that the object exposes: script,
    which may write to the heap. The definitions below are
    [AddToNameTable] and the array branch of [JSON::Stringify] once more,
    with that call given by what it returns or throws and by the heap it
    leaves, and the heap threaded through the fill pass. *)

(** The outcome of a conversion by script. *)
Inductive Converted : Type :=
| ConvertedTo (text : JavascriptString)
| ConversionThrows (thrown : Var).

(** Modelled from the spec: [JavascriptConversion::ToString] on a wrapper
    object, with the heap it leaves. *)
Definition ScriptedToString : Type := ScriptContext -> Var -> Converted * ScriptContext.

(** [AddToNameTable]: the table and the new [tableLen], and the heap after
    the conversion of the item. *)
Definition AddToNameTable_scripted (toString : ScriptedToString)
  (scriptContext : ScriptContext) (nameTable : list StringTable) (tableLen size : Z)
  (item : Var) : Completion (list StringTable * Z) * ScriptContext :=
  let value : Completion (option Var) * ScriptContext :=
    match GetTypeId scriptContext item with
    | TypeIds_Integer =>
        (Normal (Some (VString (GetIntegerString (ToInt32 item)))), scriptContext)
    | TypeIds_String => (Normal (Some item), scriptContext)
    | TypeIds_Number
    | TypeIds_Int64Number
    | TypeIds_UInt64Number =>
        (Normal (Some (VString (ToString scriptContext item))), scriptContext)
    | TypeIds_OfObject TypeIds_NumberObject
    | TypeIds_OfObject TypeIds_StringObject =>
        match toString scriptContext item with
        | (ConvertedTo text, after) => (Normal (Some (VString text)), after)
        | (ConversionThrows thrown, after) => (Throw (ScriptException thrown), after)
        end
    | _ => (Normal None, scriptContext)
    end in
  match value with
  | (Normal (Some (VString propertyName)), after) =>
      (* Only validate size when about to modify it. *)
      if tableLen =? size
      then (Throw FatalInternalError, after)  (* nameTable buffer calculation is wrong *)
      else
        let propertyRecord := GetOrAddPropertyRecord propertyName in
        (Normal (store nameTable (Z.to_nat tableLen)
                       (mkStringTable propertyName propertyRecord),
                 uint32_wrap (tableLen + 1)),
         after)
  | (Normal _, after) => (Normal (nameTable, tableLen), after)
  | (Throw e, after) => (Throw e, after)
  end.

(** The fill pass (the two loops around [AddToNameTable]): each element is
    read from the heap the conversions before it have left. *)
Fixpoint fillNameTable_scripted (toString : ScriptedToString) (replacerArg : Var)
  (direct : bool) (count : Z) (range : list Z) (scriptContext : ScriptContext)
  (nameTable : list StringTable) (tableLen : Z)
  : Completion (list StringTable * Z) * ScriptContext :=
  match range with
  | nil => (Normal (nameTable, tableLen), scriptContext)
  | cons i rest =>
      let item : option Var :=
        if direct then Some (DirectGetItem scriptContext replacerArg i)
        else GetItem scriptContext replacerArg i in
      match item with
      | Some item =>
          match AddToNameTable_scripted toString scriptContext nameTable tableLen count
                  item with
          | (Normal (nameTable', tableLen'), after) =>
              fillNameTable_scripted toString replacerArg direct count rest after
                nameTable' tableLen'
          | (Throw e, after) => (Throw e, after)
          end
      | None =>
          fillNameTable_scripted toString replacerArg direct count rest scriptContext
            nameTable tableLen
      end
  end.

(** JSON::Stringify, the branch for an array replacer: the length and the
    count are taken from the heap of the call, before any conversion. *)
Definition Stringify_nameTable_scripted (toString : ScriptedToString)
  (scriptContext : ScriptContext) (replacerArg : Var)
  : Completion (list StringTable * Z) * ScriptContext :=
  let isArray := JavascriptArray_Is scriptContext replacerArg in
  let length :=
    if isArray then JavascriptArray_GetLength scriptContext replacerArg
    else ToUInt32 scriptContext (OP_GetLength scriptContext replacerArg) in
  let count := countValidReplacerItems scriptContext replacerArg isArray length in
  if negb (count =? 0) then
    let nameTable := AnewArray count in
    let direct := isArray && IsCrossSiteObject scriptContext replacerArg in
    match fillNameTable_scripted toString replacerArg direct count (indices length)
            scriptContext nameTable 0 with
    | (Normal (nameTable, tableLen), after) =>
        (* Eliminate duplicates in replacer array. *)
        (Normal (eliminateDuplicates (indices tableLen) nameTable nil 0), after)
    | (Throw e, after) => (Throw e, after)
    end
  else (Normal (nil, 0), scriptContext).

(** A conversion that runs no script: the one of the definitions above. *)
Definition passiveToString : ScriptedToString :=
  fun scriptContext item => (ConvertedTo (ToString scriptContext item), scriptContext).

(** The heap of [var n = new Number(1); var r = [n, true];] with [r] at 0
    and [n] at 1, and the conversion of [n.toString = function () { r[1] =
    'x'; return '1'; }]: it returns ['1'] and leaves [r = [n, 'x']]. *)
Definition writingContext : ScriptContext :=
  heapOf [arrayObject [VObject 1%nat; VBoolean true];
          wrapperObject TypeIds_NumberObject (PrimitiveNumber (Finite 1 0))]%list.

Definition writingToString : ScriptedToString :=
  fun _ _ =>
    (ConvertedTo "1",
     heapOf [arrayObject [VObject 1%nat; VString "x"];
             wrapperObject TypeIds_NumberObject (PrimitiveNumber (Finite 1 0))]%list).

(** * Properties *)

(** ** The monad *)

Lemma bind_Normal {A B : Type} (m : M A) (k : A -> M B) s a s' :
  m s = (Normal a, s') -> bind m k s = k a s'.
Proof. intros H. unfold bind. rewrite H. reflexivity. Qed.

Lemma bind_Throw {A B : Type} (m : M A) (k : A -> M B) s e s' :
  m s = (Throw e, s') -> bind m k s = (Throw e, s').
Proof. intros H. unfold bind. rewrite H. reflexivity. Qed.

(** Inversion of a bind: either the first computation threw, or it
    returned and the continuation ran from the state it left. *)
Lemma bind_inv {A B : Type} (m : M A) (k : A -> M B) s r s' :
  bind m k s = (r, s') ->
  (exists e, m s = (Throw e, s') /\ r = Throw e)
  \/ (exists a s1, m s = (Normal a, s1) /\ k a s1 = (r, s')).
Proof.
  unfold bind. destruct (m s) as [[a | e] s1] eqn:E; intros H.
  - right. eauto.
  - left. inversion H; subst. eauto.
Qed.

(** ** What a method leaves of the session *)

Lemma keeps_ret {A : Type} (a : A) : keeps (ret a).
Proof. intros s r s' H. inversion H; subst. auto. Qed.

Lemma keeps_throw {A : Type} (e : Exception) : keeps (@throw A e).
Proof. intros s r s' H. inversion H; subst. repeat split; intros; discriminate. Qed.

Lemma keeps_gets {A : Type} (f : StringifySession -> A) : keeps (gets f).
Proof. intros s r s' H. inversion H; subst. auto. Qed.

Lemma keeps_lift {A : Type} (c : Completion A) : keeps (lift c).
Proof. intros s r s' H. inversion H; subst. auto. Qed.

Lemma keeps_set_propertySeparator p : keeps (modify (set_propertySeparator p)).
Proof. intros s r s' H. inversion H; subst. simpl. auto. Qed.

Lemma keeps_bind {A B : Type} (m : M A) (k : A -> M B) :
  keeps m -> (forall a, keeps (k a)) -> keeps (bind m k).
Proof.
  intros Hm Hk s r s' H.
  apply bind_inv in H as [(e & Hs & ->) | (a & s1 & Hs & Hka)].
  - destruct (Hm _ _ _ Hs) as (Hg & Hr & _).
    repeat split; auto; intros; discriminate.
  - destruct (Hm _ _ _ Hs) as (Hg & Hr & Hn).
    destruct (Hn a eq_refl) as (Ho & Hi).
    destruct (Hk a _ _ _ Hka) as (Hg' & Hr' & Hn').
    split; [congruence | split; [congruence |]].
    intros b Hb. destruct (Hn' b Hb). split; congruence.
Qed.

Lemma restores_bind {A B : Type} i (m : M A) (k : A -> M B) :
  keeps m -> (forall a, restores i (k a)) -> restores i (bind m k).
Proof.
  intros Hm Hk s r s' H.
  apply bind_inv in H as [(e & Hs & ->) | (a & s1 & Hs & Hka)].
  - destruct (Hm _ _ _ Hs) as (Hg & Hr & _).
    repeat split; auto; intros; discriminate.
  - destruct (Hm _ _ _ Hs) as (Hg & Hr & Hn).
    destruct (Hn a eq_refl) as (Ho & Hi).
    destruct (Hk a _ _ _ Hka) as (Hg' & Hr' & Hn').
    split; [congruence | split; [congruence |]].
    intros b Hb. destruct (Hn' b Hb). split; congruence.
Qed.

Lemma restores_set_indent {A : Type} i j (m : M A) :
  restores i m -> restores i (modify (set_indent j) ;;; m).
Proof.
  intros Hm s r s' H. unfold bind, modify in H.
  destruct (Hm _ _ _ H) as (Hg & Hr & Hn). simpl in *. auto.
Qed.

Lemma restores_final {A : Type} i (a : A) :
  restores i (modify (set_indent i) ;;; ret a).
Proof. intros s r s' H. inversion H; subst. simpl. auto. Qed.

(** The depth is saved on entry and restored on normal return. *)
Lemma keeps_saved_indent {A : Type} (k : Z -> M A) :
  (forall i, restores i (k i)) -> keeps (stepBackIndent <- gets indent ;; k stepBackIndent).
Proof.
  intros Hk s r s' H. unfold bind, gets in H.
  destruct (Hk _ _ _ _ H) as (Hg & Hr & Hn). auto.
Qed.

Lemma Pop_Push data bJsObject stack : Pop bJsObject (Push data bJsObject stack) = stack.
Proof. destruct stack, bJsObject; reflexivity. Qed.

(** An identity is pushed for the body and popped on normal return. *)
Lemma keeps_push_pop {A : Type} (body : M A) value bJsObject :
  keeps body ->
  keeps (modify (fun s => set_objectStack (Push value bJsObject (objectStack s)) s) ;;;
         r <- body ;;
         modify (fun s => set_objectStack (Pop bJsObject (objectStack s)) s) ;;;
         ret r).
Proof.
  intros Hbody s r s' H. unfold bind, modify, ret in H.
  destruct (body (set_objectStack (Push value bJsObject (objectStack s)) s))
    as [[a | e] s1] eqn:E;
    inversion H; subst; clear H;
    destruct (Hbody _ _ _ E) as (Hg & Hr & Hn); simpl in *.
  - destruct (Hn a eq_refl) as (Ho & Hi). rewrite Ho, Pop_Push. repeat split; auto.
  - repeat split; auto; intros; discriminate.
Qed.

Lemma keeps_foreach {A S : Type} (l : list A) (body : A -> S -> M S) :
  (forall a acc, keeps (body a acc)) -> forall acc, keeps (foreach l body acc).
Proof.
  intros Hbody. induction l as [| a l IH]; intros acc; simpl.
  - apply keeps_ret.
  - apply keeps_bind; auto.
Qed.

(** Goals [keeps m] are solved along the structure of [m]. *)
Ltac keeps_step :=
  match goal with
  | |- keeps (bind _ _) => apply keeps_bind; [| intros ?]
  | |- keeps (ret _) => apply keeps_ret
  | |- keeps (throw _) => apply keeps_throw
  | |- keeps (gets _) => apply keeps_gets
  | |- keeps (lift _) => apply keeps_lift
  | |- keeps (modify (set_propertySeparator _)) => apply keeps_set_propertySeparator
  | |- keeps (foreach _ _ _) => apply keeps_foreach; intros ? ?
  | |- keeps (if ?b then _ else _) => destruct b
  | |- keeps (match ?x with _ => _ end) => destruct x
  | H : forall k v h, keeps (?rec k v h) |- keeps (?rec _ _ _) => apply H
  end.

Ltac keeps_auto := repeat keeps_step.

Section SerializerKeeps.

Variable scriptContext : ScriptContext.
Variable rec : JavascriptString -> Var -> Var -> M Var.
Hypothesis rec_keeps : forall key value holder, keeps (rec key value holder).

Lemma StrHelper_prepare_keeps key value holder :
  keeps (StrHelper_prepare scriptContext key value holder).
Proof. unfold StrHelper_prepare. keeps_auto. Qed.

Lemma GetIndentString_keeps count : keeps (GetIndentString count).
Proof. unfold GetIndentString. keeps_auto. Qed.

Lemma GetMemberSeparator_keeps indentString : keeps (GetMemberSeparator indentString).
Proof. unfold GetMemberSeparator. keeps_auto. Qed.

Lemma GetPropertySeparator_keeps : keeps GetPropertySeparator.
Proof. unfold GetPropertySeparator. keeps_auto. Qed.

Lemma Str_index_keeps index holder : keeps (Str_index scriptContext rec index holder).
Proof. unfold Str_index. keeps_auto. Qed.

Lemma Str_keeps key keyId holder value : keeps (Str scriptContext rec key keyId holder value).
Proof. unfold Str. keeps_auto. Qed.

Lemma GetArrayElementString_keeps index arrayValue :
  keeps (GetArrayElementString scriptContext rec index arrayValue).
Proof.
  unfold GetArrayElementString. apply keeps_bind; [apply Str_index_keeps | intros].
  keeps_auto.
Qed.

Lemma StringifyMemberObject_keeps propertyName id value st propertyValue :
  keeps (StringifyMemberObject scriptContext rec propertyName id value st propertyValue).
Proof.
  unfold StringifyMemberObject. apply keeps_bind; [apply Str_keeps | intros].
  destruct (negb (IsUndefinedObject a)); [| apply keeps_ret].
  apply keeps_bind; [| intros].
  - destruct (negb (isFirstMember st)); [| apply keeps_ret].
    destruct (indentString st); [apply keeps_ret |].
    apply keeps_bind; [apply keeps_gets | intros].
    apply keeps_bind; [apply GetIndentString_keeps | intros].
    apply keeps_bind; [apply GetMemberSeparator_keeps | intros]. apply keeps_ret.
  - apply keeps_bind; [apply GetPropertySeparator_keeps | intros]. apply keeps_ret.
Qed.

Lemma StringifyObject_indexed_keeps value isDynamicObject names :
  forall propertyCount st,
    keeps (StringifyObject_indexed scriptContext rec value isDynamicObject names
             propertyCount st).
Proof.
  induction names as [| propertyName rest IH]; intros propertyCount st; simpl.
  - apply keeps_ret.
  - destruct (propertyCount >? 0); [| apply keeps_ret].
    destruct (isDynamicObject && _); [apply keeps_ret |].
    apply keeps_bind; [apply StringifyMemberObject_keeps; assumption | intros; apply IH].
Qed.

Lemma StringifyObject_named_keeps value dynamicObject entry st :
  keeps (StringifyObject_named scriptContext rec value dynamicObject entry st).
Proof.
  unfold StringifyObject_named.
  destruct (entryId entry); try apply keeps_ret;
    (destruct (lookupEntry _ _); [| apply keeps_ret];
     destruct (negb (entryEnumerable _)); [apply keeps_ret |];
     destruct (negb (IsSymbol _)); [| apply keeps_ret];
     apply StringifyMemberObject_keeps; assumption).
Qed.

Lemma StringifyObject_members_keeps value :
  keeps (StringifyObject_members scriptContext rec value).
Proof.
  pose proof StringifyMemberObject_keeps as HM.
  pose proof StringifyObject_indexed_keeps as HI.
  pose proof StringifyObject_named_keeps as HN.
  unfold StringifyObject_members.
  apply keeps_bind; [apply keeps_gets | intros r].
  destruct value; try apply keeps_ret.
  destruct r.
  3: { apply keeps_foreach. intros. apply HM; assumption. }
  all: destruct (JavascriptProxy_Is _ _);
    [ apply keeps_foreach; intros;
      destruct (GetOwnPropertyDescriptor _ _ _) as [[|]|];
      try apply keeps_ret; apply HM; assumption |];
    destruct (enumerator _); [| apply keeps_ret];
    destruct (negb _).
  all: try (apply keeps_bind;
            [ destruct (_ || _); [apply HI | apply keeps_ret]
            | intros; destruct (isDynamicObject _);
              [apply keeps_foreach; intros; apply HN | apply keeps_ret] ]).
  all: destruct (_ >? 0); try apply keeps_ret;
    apply keeps_foreach; intros; apply HM; assumption.
Qed.

Lemma StringifyObject_keeps value : keeps (StringifyObject scriptContext rec value).
Proof.
  unfold StringifyObject. apply keeps_saved_indent. intros i.
  apply restores_set_indent.
  apply restores_bind; [apply StringifyObject_members_keeps | intros st].
  apply restores_bind; [| intros; apply restores_final].
  destruct (isEmpty st); [apply keeps_ret |].
  apply keeps_bind; [apply keeps_gets | intros g].
  destruct g; [| apply keeps_ret].
  apply keeps_bind.
  - destruct (indentString st); [apply keeps_ret |].
    apply keeps_bind; [apply keeps_gets | intros; apply GetIndentString_keeps].
  - intros. apply keeps_bind; [apply GetIndentString_keeps | intros; apply keeps_ret].
Qed.

Lemma StringifyArray_keeps value : keeps (StringifyArray scriptContext rec value).
Proof.
  pose proof GetArrayElementString_keeps as HE.
  unfold StringifyArray. apply keeps_saved_indent. intros i.
  apply restores_set_indent.
  apply restores_bind.
  { destruct (JavascriptArray_Is _ _); [apply keeps_ret |].
    destruct (MaxCharCount <=? _); [apply keeps_throw | apply keeps_ret]. }
  intros length.
  apply restores_bind; [| intros; apply restores_final].
  destruct (length =? 0); [apply keeps_ret |].
  apply keeps_bind.
  - destruct (length =? 1).
    + apply keeps_bind; [apply HE | intros; apply keeps_ret].
    + apply keeps_bind; [apply keeps_gets | intros].
      apply keeps_bind; [apply GetIndentString_keeps | intros].
      apply keeps_bind; [apply GetMemberSeparator_keeps | intros].
      apply keeps_bind; [| intros; apply keeps_ret].
      apply keeps_foreach. intros k [res isFirstMember].
      apply keeps_bind; [apply HE | intros; apply keeps_ret].
  - intros [res indentString].
    apply keeps_bind; [apply keeps_gets | intros g].
    destruct g; [| apply keeps_ret].
    apply keeps_bind.
    + destruct indentString; [apply keeps_ret |].
      apply keeps_bind; [apply keeps_gets | intros; apply GetIndentString_keeps].
    + intros. apply keeps_bind; [apply GetIndentString_keeps | intros; apply keeps_ret].
Qed.

Lemma StrHelper_dispatch_keeps value :
  keeps (StrHelper_dispatch scriptContext rec value).
Proof.
  unfold StrHelper_dispatch.
  destruct (GetTypeId scriptContext value); try apply keeps_ret.
  - destruct (IsFinite _); apply keeps_ret.
  - destruct (IsFinite _); apply keeps_ret.
  - destruct (IsFinite _); apply keeps_ret.
  - destruct (IsJsNativeObject _ _).
    + destruct (negb _); [| apply keeps_ret].
      apply keeps_bind; [apply keeps_gets | intros has].
      destruct has; [apply keeps_throw |].
      apply keeps_push_pop.
      destruct (IsArray _ _); [apply StringifyArray_keeps | apply StringifyObject_keeps].
    + destruct (IsObject value); [| apply keeps_ret].
      apply keeps_bind; [apply keeps_gets | intros has].
      destruct has; [apply keeps_throw |].
      apply keeps_push_pop. apply StringifyObject_keeps.
Qed.

Lemma StrHelper_body_keeps key value holder :
  keeps (StrHelper_body scriptContext rec key value holder).
Proof.
  unfold StrHelper_body.
  apply keeps_bind; [apply StrHelper_prepare_keeps | intros; apply StrHelper_dispatch_keeps].
Qed.

End SerializerKeeps.

(** [StrHelper] keeps the gap and the replacer, and gives back the cycle
    stack and the depth it was given when it returns normally. *)
Lemma StrHelper_keeps scriptContext stack :
  forall key value holder, keeps (StrHelper scriptContext stack key value holder).
Proof.
  induction stack as [| stack IH]; intros key value holder; simpl.
  - apply keeps_throw.
  - apply StrHelper_body_keeps. exact IH.
Qed.

(** ** The cycle stack (C6) *)

(** The frame of a composite value: the identity is pushed, the members
    are serialized from the session with the identity on the stack, and the
    identity is popped when they return; when they throw, the session is
    left as the exception found it. *)
Lemma StrHelper_dispatch_frame scriptContext rec o s :
  IsJsNativeObject scriptContext (VObject o) = true ->
  IsCallable scriptContext (VObject o) = false ->
  Has (VObject o) true (objectStack s) = false ->
  StrHelper_dispatch scriptContext rec (VObject o) s
  = match (if IsArray scriptContext (VObject o)
           then StringifyArray scriptContext rec (VObject o)
           else StringifyObject scriptContext rec (VObject o))
            (set_objectStack (Push (VObject o) true (objectStack s)) s) with
    | (Normal r, s') => (Normal r, set_objectStack (Pop true (objectStack s')) s')
    | (Throw e, s') => (Throw e, s')
    end.
Proof.
  intros Hn Hc Hhas. unfold StrHelper_dispatch. cbn [GetTypeId].
  rewrite Hn, Hc. cbn [negb]. unfold bind at 1. unfold gets at 1. rewrite Hhas.
  unfold bind, modify, ret.
  destruct (IsArray scriptContext (VObject o));
    match goal with |- context [?m (set_objectStack ?st s)] =>
      destruct (m (set_objectStack st s)) as [[r | e] s'] end; reflexivity.
Qed.

(** C6 does not hold on error paths. Serializing the object [x] with [x.self
    = x] (object 2 of the sample heap) throws the circular structure error
    from the nested member; the exception leaves [StrHelper] with the
    identity of [x] still on the cycle stack, which was empty on entry: the
    pop after the members is skipped by the error. *)
Lemma C6_identity_left_on_stack_by_error :
  let s := sessionWithSpace sampleContext VNull in
  let '(r, s') := StrHelper sampleContext 5 "" (VObject 2%nat) (VObject 10%nat) s in
  r = Throw (TypeError JSERR_JSONSerializeCircular)
  /\ jsObjectStack (objectStack s) = []%list
  /\ jsObjectStack (objectStack s') = [VObject 2%nat]%list
  /\ ~ popped_on_every_exit.
Proof.
  cbv zeta.
  destruct (StrHelper sampleContext 5 "" (VObject 2%nat) (VObject 10%nat)
              (sessionWithSpace sampleContext VNull)) as [r s'] eqn:E.
  assert (E' := E). vm_compute in E'. inversion E'; subst r s'; clear E'.
  repeat split.
  intros H. specialize (H _ _ _ _ _ _ _ _ E). discriminate H.
Qed.

(** ** The gap (C5) *)

Lemma length_substring_0 m : forall s,
  String.length (substring 0 m s) = Nat.min m (String.length s).
Proof.
  induction m as [| m IH]; intros [| c s]; simpl; auto.
Qed.

Lemma GetLength_nonneg s : 0 <= GetLength s.
Proof. unfold GetLength. lia. Qed.

Lemma GetLength_NewCopyBuffer buffer len :
  0 <= len -> GetLength (NewCopyBuffer buffer len) = Z.min len (GetLength buffer).
Proof.
  intros H. unfold GetLength, NewCopyBuffer. rewrite length_substring_0. lia.
Qed.

Lemma NewCopyBuffer_spaces len :
  0 <= len <= 10 -> NewCopyBuffer jsonSpace_Buffer len = spaces (Z.to_nat len).
Proof.
  intros H. unfold NewCopyBuffer.
  assert (Hn : (Z.to_nat len <= 10)%nat) by lia.
  revert Hn. generalize (Z.to_nat len). intros n Hn.
  do 11 (destruct n as [| n]; [reflexivity |]). lia.
Qed.

Lemma NewCopyBuffer_firstTen s :
  NewCopyBuffer s (min_ JSONspaceSize (GetLength s)) = firstTen s.
Proof.
  unfold NewCopyBuffer, firstTen, min_, JSONspaceSize, GetLength.
  destruct (10 <? Z.of_nat (String.length s)) eqn:E.
  - apply Z.ltb_lt in E. f_equal. lia.
  - apply Z.ltb_ge in E. f_equal. lia.
Qed.

Lemma max_min_clamp i : max_ 0 (min_ JSONspaceSize i) = clampSpace i.
Proof.
  unfold max_, min_, clampSpace, JSONspaceSize.
  destruct (10 <? i) eqn:E1; [apply Z.ltb_lt in E1 | apply Z.ltb_ge in E1].
  - simpl. lia.
  - destruct (0 >? i) eqn:E2; [apply Z.gtb_lt in E2 | rewrite Z.gtb_ltb in E2; apply Z.ltb_ge in E2]; lia.
Qed.

Lemma clampSpace_range i : 0 <= clampSpace i <= 10.
Proof. unfold clampSpace. lia. Qed.

Lemma clampNumber_range d : 0 <= clampNumber d <= 10.
Proof.
  destruct d as [| [|] | m e]; simpl; try lia. apply clampSpace_range.
Qed.

Lemma truncate_integer t : truncate t 0 = t.
Proof. unfold truncate. simpl. lia. Qed.

Lemma static_cast_int_integer t :
  static_cast_int (Finite t 0)
  = if (INT_MIN <=? t) && (t <=? INT_MAX) then t else INT_MIN.
Proof. unfold static_cast_int. rewrite truncate_integer. reflexivity. Qed.

(** The cast chain of [CompleteInit] on a double is truncation toward zero
    clamped to [0, 10]. *)
Lemma cast_min_ToInteger d :
  max_ 0 (static_cast_int (min_double (double_of_Z JSONspaceSize) (ToInteger_double d)))
  = clampNumber d.
Proof.
  destruct d as [| [|] | m e]; try reflexivity.
  unfold ToInteger_double, min_double, double_of_Z, double_lt, JSONspaceSize, clampNumber.
  rewrite Z.min_id, Z.sub_diag. change (2 ^ 0) with 1. rewrite !Z.mul_1_r.
  generalize (truncate m e). intros t.
  rewrite (Z.ltb_antisym t 10).
  destruct (Z.leb_spec t 10) as [H | H]; simpl negb; cbv iota.
  - rewrite static_cast_int_integer. unfold max_, clampSpace.
    assert (Hmin : INT_MIN = -2147483648) by reflexivity.
    assert (Hmax : INT_MAX = 2147483647) by reflexivity.
    destruct (Z.leb_spec INT_MIN t) as [H1 | H1];
      destruct (Z.leb_spec t INT_MAX) as [H2 | H2]; simpl andb; cbv iota;
      rewrite Z.gtb_ltb;
      match goal with |- context [?a <? ?b] => destruct (Z.ltb_spec a b) end; lia.
  - reflexivity || (unfold clampSpace; vm_compute static_cast_int; unfold max_; simpl; lia).
Qed.

Lemma length_spaces n : String.length (spaces n) = n.
Proof. induction n; simpl; auto. Qed.

Lemma GetLength_spaces z : 0 <= z -> GetLength (spaces (Z.to_nat z)) = z.
Proof. intros H. unfold GetLength. rewrite length_spaces. lia. Qed.

Lemma GetLength_firstTen s : 0 <= GetLength (firstTen s) <= 10.
Proof. unfold GetLength, firstTen. rewrite length_substring_0. lia. Qed.

(** The gap [CompleteInit] leaves, from a session without a gap. *)
Lemma CompleteInit_gapText scriptContext space s :
  gap s = None ->
  gapText (CompleteInit scriptContext space s)
  = match GetTypeId scriptContext space with
    | TypeIds_Integer => spaces (Z.to_nat (clampSpace (ToInt32 space)))
    | TypeIds_Number
    | TypeIds_OfObject TypeIds_NumberObject
    | TypeIds_Int64Number
    | TypeIds_UInt64Number => spaces (Z.to_nat (clampNumber (ToNumber scriptContext space)))
    | TypeIds_String
    | TypeIds_OfObject TypeIds_StringObject => firstTen (ToString scriptContext space)
    | _ => ""
    end.
Proof.
  intros Hgap.
  assert (Hspaces : forall len, 0 <= len <= 10 ->
            gapText (set_objectStack JSONStack_new
                       (if negb (len =? 0)
                        then set_gap (Some (NewCopyBuffer jsonSpace_Buffer len)) s else s))
            = spaces (Z.to_nat len)).
  { intros len Hlen. destruct (Z.eqb_spec len 0) as [-> | Hne]; simpl.
    - unfold gapText. simpl. rewrite Hgap. reflexivity.
    - apply NewCopyBuffer_spaces. assumption. }
  assert (Hstring : forall str,
            gapText (set_objectStack JSONStack_new
                       (if negb (min_ JSONspaceSize (GetLength str) =? 0)
                        then set_gap (Some (NewCopyBuffer str
                                              (min_ JSONspaceSize (GetLength str)))) s
                        else s))
            = firstTen str).
  { intros str. destruct (Z.eqb_spec (min_ JSONspaceSize (GetLength str)) 0) as [E | Hne]; simpl.
    - unfold gapText. simpl. rewrite Hgap.
      rewrite <- NewCopyBuffer_firstTen, E. destruct str; reflexivity.
    - apply NewCopyBuffer_firstTen. }
  unfold CompleteInit.
  destruct space; cbn [GetTypeId JavascriptString_FromVar];
    [ | | | | | | | | | destruct (typeId (GetObject scriptContext o)) ];
    try (unfold gapText; simpl; rewrite Hgap; reflexivity);
    try apply Hstring.
  - rewrite max_min_clamp. apply Hspaces, clampSpace_range.
  - unfold ToInteger. rewrite cast_min_ToInteger. apply Hspaces, clampNumber_range.
  - unfold ToInteger. rewrite cast_min_ToInteger. apply Hspaces, clampNumber_range.
  - unfold ToInteger. rewrite cast_min_ToInteger. apply Hspaces, clampNumber_range.
  - unfold ToInteger. rewrite cast_min_ToInteger. apply Hspaces, clampNumber_range.
Qed.

(** C5. From a session without a gap, [CompleteInit] leaves a gap of 0 to
    10 characters whatever the space argument: for a number-like space,
    as many spaces as the number truncated toward zero and clamped to
    [0, 10]; for a string-like space, its first [min(10, length)]
    characters; for anything else, none. No call of [StrHelper], in any
    heap, returning or throwing, changes the gap afterwards. *)
Theorem C5_gap_clamped_and_constant scriptContext space s :
  gap s = None ->
  let s' := CompleteInit scriptContext space s in
  0 <= GetLength (gapText s') <= 10
  /\ match GetTypeId scriptContext space with
     | TypeIds_Integer =>
         gapText s' = spaces (Z.to_nat (clampSpace (ToInt32 space)))
     | TypeIds_Number
     | TypeIds_OfObject TypeIds_NumberObject
     | TypeIds_Int64Number
     | TypeIds_UInt64Number =>
         gapText s' = spaces (Z.to_nat (clampNumber (ToNumber scriptContext space)))
     | TypeIds_String
     | TypeIds_OfObject TypeIds_StringObject =>
         gapText s' = firstTen (ToString scriptContext space)
     | _ => gapText s' = ""
     end
  /\ forall context stack key value holder r s'',
       StrHelper context stack key value holder s' = (r, s'') -> gap s'' = gap s'.
Proof.
  intros Hgap s'. subst s'.
  pose proof (CompleteInit_gapText scriptContext space s Hgap) as Htext.
  split; [| split].
  - rewrite Htext.
    destruct (GetTypeId scriptContext space) as [| | | | | | | | | []];
      try (vm_compute; split; discriminate);
      try apply GetLength_firstTen;
      try (rewrite GetLength_spaces; [apply clampSpace_range | apply clampSpace_range]);
      rewrite GetLength_spaces; apply clampNumber_range.
  - destruct (GetTypeId scriptContext space) as [| | | | | | | | | []]; exact Htext.
  - intros context stack key value holder r s'' H.
    destruct (StrHelper_keeps _ _ _ _ _ _ _ _ H) as (Hg & _). exact Hg.
Qed.

(** The theorem at [space = 15]: ten spaces. *)
Lemma C5_gap_witness :
  gap StringifySession_new = None
  /\ gapText (CompleteInit sampleContext (VInteger 15) StringifySession_new)
     = "          ".
Proof.
  split; [reflexivity |].
  destruct (C5_gap_clamped_and_constant sampleContext (VInteger 15)
              StringifySession_new eq_refl) as (_ & H & _).
  exact H.
Defined.

(** ** Value preprocessing (C3) *)

Section Preprocessing.

Variable scriptContext : ScriptContext.

(** The walk of [Get_ToJSON] stops at the first level that exposes a
    callable [toJSON] and calls that one on the value itself. *)
Lemma Get_ToJSON_walk_find key value levels :
  Get_ToJSON_walk scriptContext key value levels
  = match find (exposesHook scriptContext) levels with
    | Some level =>
        match GetPropertyQuery scriptContext level PropertyIds_toJSON with
        | Some hook =>
            match CallFunction scriptContext hook [value; VString key] with
            | Normal v => Normal (true, v)
            | Throw e => Throw e
            end
        | None => Normal (false, value)
        end
    | None => Normal (false, value)
    end.
Proof.
  induction levels as [| level up IH]; [reflexivity |].
  cbn [Get_ToJSON_walk find]. unfold exposesHook at 1.
  destruct (GetPropertyQuery scriptContext level PropertyIds_toJSON) as [hook |] eqn:E.
  - destruct (IsCallable scriptContext hook).
    + rewrite ?E. reflexivity.
    + exact IH.
  - exact IH.
Qed.

Lemma Get_ToJSON_toJSON_step key value :
  match Get_ToJSON scriptContext key value with
  | Normal r => Normal (snd r)
  | Throw e => Throw e
  end = toJSON_step scriptContext key value.
Proof.
  unfold Get_ToJSON, toJSON_step, hookOf. destruct value; try reflexivity.
  rewrite Get_ToJSON_walk_find.
  destruct (find _ _) as [level |]; [| reflexivity].
  destruct (GetPropertyQuery scriptContext level PropertyIds_toJSON) as [hook |];
    [| reflexivity].
  destruct (CallFunction _ _ _); reflexivity.
Qed.

Lemma unwrap_step_eq value :
  (let id := GetTypeId scriptContext value in
   if TypeId_eqb TypeIds_NumberObject id
   then VNumber (ToNumber scriptContext value)
   else if TypeId_eqb TypeIds_StringObject id
   then VString (ToString scriptContext value)
   else if TypeId_eqb TypeIds_BooleanObject id
   then VBoolean (JavascriptBooleanObject_GetValue scriptContext value)
   else value) = unwrap_step scriptContext value.
Proof.
  destruct value; try reflexivity. simpl.
  destruct (typeId (GetObject scriptContext o)); simpl; try reflexivity;
    destruct (primitiveValue (GetObject scriptContext o)); reflexivity.
Qed.

Lemma unwrap_tail value s :
  (let id := GetTypeId scriptContext value in
   if TypeId_eqb TypeIds_NumberObject id
   then ret (VNumber (ToNumber scriptContext value))
   else if TypeId_eqb TypeIds_StringObject id
   then ret (VString (ToString scriptContext value))
   else if TypeId_eqb TypeIds_BooleanObject id
   then ret (VBoolean (JavascriptBooleanObject_GetValue scriptContext value))
   else ret value) s = (Normal (unwrap_step scriptContext value), s).
Proof.
  rewrite <- unwrap_step_eq. cbv zeta.
  repeat match goal with |- context [if ?b then _ else _] => destruct b end;
    reflexivity.
Qed.

(** C3. The preprocessing of [StrHelper] is, for every key, value, holder
    and session, the three steps in this order: the toJSON hook of the
    first level of the prototype chain (from the value itself) exposing a
    callable [toJSON], called as [value.toJSON(key)]; then the replacer
    function, if one is configured, called on the holder with the key and
    the value; then the unwrapping of a boxed Number, String or Boolean,
    after which neither the hook nor the replacer is applied again. The
    session is left as it was. *)
Theorem C3_preprocessing_steps_in_order key value holder s :
  StrHelper_prepare scriptContext key value holder s
  = (ValuePreprocessor scriptContext (replacer s) key value holder, s).
Proof.
  unfold StrHelper_prepare, ValuePreprocessor.
  rewrite <- Get_ToJSON_toJSON_step.
  assert (Hprim : IsJsNativeObject scriptContext value || IsObject value = false ->
                  Get_ToJSON scriptContext key value = Normal (false, value)).
  { destruct value; simpl; intros H; try reflexivity.
    rewrite orb_true_r in H. discriminate. }
  destruct (IsJsNativeObject scriptContext value || IsObject value).
  - unfold bind at 1 2. unfold lift, ret at 1.
    destruct (Get_ToJSON scriptContext key value) as [[found hooked] | e]; [| reflexivity].
    cbn [snd]. unfold bind at 1. unfold gets. unfold replacer_step, bind.
    destruct (replacer s) as [| func | names len]; try apply unwrap_tail.
    unfold lift.
    destruct (CallFunction scriptContext func _) as [replaced | e]; [| reflexivity].
    apply unwrap_tail.
  - rewrite (Hprim eq_refl). cbn [snd].
    unfold bind at 1. unfold ret at 1. unfold bind at 1. unfold gets.
    unfold replacer_step, bind.
    destruct (replacer s) as [| func | names len]; try apply unwrap_tail.
    unfold lift.
    destruct (CallFunction scriptContext func _) as [replaced | e]; [| reflexivity].
    apply unwrap_tail.
Qed.

End Preprocessing.

(** ** Elements and members left out (C2, C10) *)

Section Omission.

Variable scriptContext : ScriptContext.

Lemma StrHelper_dispatch_omitted rec prepared s :
  isOmitted scriptContext prepared = true ->
  StrHelper_dispatch scriptContext rec prepared s = (Normal VUndefined, s).
Proof.
  unfold isOmitted, StrHelper_dispatch. destruct prepared; try discriminate; try reflexivity.
  intros H. apply andb_true_iff in H as [Hn Hc].
  cbn [GetTypeId]. rewrite Hn, Hc. reflexivity.
Qed.

Lemma GetArrayElementString_omitted rec index arrayValue s s' :
  Str_index scriptContext rec index arrayValue s = (Normal VUndefined, s') ->
  GetArrayElementString scriptContext rec index arrayValue s = (Normal "null", s').
Proof.
  intros H. unfold GetArrayElementString. rewrite (bind_Normal _ _ _ _ _ H). reflexivity.
Qed.

Lemma StringifyMemberObject_omitted rec propertyName id value st propertyValue s s' :
  Str scriptContext rec propertyName id value propertyValue s = (Normal VUndefined, s') ->
  StringifyMemberObject scriptContext rec propertyName id value st propertyValue s
  = (Normal st, s').
Proof.
  intros H. unfold StringifyMemberObject. rewrite (bind_Normal _ _ _ _ _ H). reflexivity.
Qed.

(** The element at an index whose raw value is undefined, in an array that
    is not cross-site: [Str] returns it at once. *)
Lemma Str_index_undefined_element rec index holder s :
  JavascriptArray_Is scriptContext holder = true ->
  IsCrossSiteObject scriptContext holder = false ->
  DirectGetItem scriptContext holder index = VUndefined ->
  Str_index scriptContext rec index holder s = (Normal VUndefined, s).
Proof.
  intros Ha Hc Hu. unfold Str_index. rewrite Ha, Hc, Hu. reflexivity.
Qed.

(** C10. For an array that is not cross-site, the element at an index
    whose raw value is undefined gives the omit signal at once and is
    rendered as [null], the session untouched. This holds whatever
    [StrHelper] would do ([rec] is arbitrary) and whatever the replacer of
    the session is: preprocessing, that is the toJSON hook and the replacer
    function, is not reached for that element. *)
Theorem C10_undefined_element_is_not_preprocessed rec index holder s :
  JavascriptArray_Is scriptContext holder = true ->
  IsCrossSiteObject scriptContext holder = false ->
  DirectGetItem scriptContext holder index = VUndefined ->
  Str_index scriptContext rec index holder s = (Normal VUndefined, s)
  /\ GetArrayElementString scriptContext rec index holder s = (Normal "null", s).
Proof.
  intros Ha Hc Hu.
  pose proof (Str_index_undefined_element rec index holder s Ha Hc Hu) as H.
  split; [exact H | apply GetArrayElementString_omitted; exact H].
Qed.

End Omission.

(** The theorem C10 at the first element of [[undefined, 1]], with the
    replacer function that turns undefined into 7. *)
Lemma C10_undefined_element_witness :
  let s := InitReplacer_function (VObject 8%nat) (sessionWithSpace sampleContext VNull) in
  JavascriptArray_Is sampleContext (VObject 1%nat) = true
  /\ DirectGetItem sampleContext (VObject 1%nat) 0 = VUndefined
  /\ GetArrayElementString sampleContext (StrHelper sampleContext 5) 0 (VObject 1%nat) s
     = (Normal "null", s).
Proof.
  split; [reflexivity | split; [reflexivity |]].
  apply (C10_undefined_element_is_not_preprocessed sampleContext); reflexivity.
Defined.

(** With that replacer function, the undefined element of the array is
    rendered as [null], while the undefined member of an object goes
    through the replacer and is rendered as 7. *)
Example replacer_function_on_undefined :
  Stringify sampleContext 10 [VUndefined; VObject 1%nat; VObject 8%nat]%list
  = Normal (VString "[null,1]")
  /\ Stringify sampleContext 10 [VUndefined; VObject 0%nat; VObject 8%nat]%list
     = Normal (VString ("{" ++ QUOTE ++ "a" ++ QUOTE ++ ":7," ++ QUOTE ++ "b" ++ QUOTE ++ ":1}")).
Proof. split; vm_compute; reflexivity. Qed.

(** ** Circular structures (C1) *)

(** C1. When the prepared value is an object that is not a function and
    its identity is on the cycle stack (the stack of its kind), [StrHelper]
    throws the circular structure TypeError right where it would have
    pushed the identity and serialized the members: the session is the one
    preprocessing left, nothing has been pushed, and the completion is the
    exception alone, without any text. *)
Theorem C1_circular_structure_throws
  scriptContext stack key value holder s prepared s1 :
  StrHelper_prepare scriptContext key value holder s = (Normal prepared, s1) ->
  IsObject prepared = true ->
  IsCallable scriptContext prepared = false ->
  Has prepared (IsJsNativeObject scriptContext prepared) (objectStack s1) = true ->
  StrHelper scriptContext (S stack) key value holder s
  = (Throw (TypeError JSERR_JSONSerializeCircular), s1).
Proof.
  intros Hp Ho Hc Hhas. cbn [StrHelper]. unfold StrHelper_body.
  rewrite (bind_Normal _ _ _ _ _ Hp). unfold StrHelper_dispatch.
  destruct prepared; try discriminate Ho. cbn [GetTypeId].
  destruct (IsJsNativeObject scriptContext (VObject o)).
  - rewrite Hc. cbn [negb]. unfold bind at 1. unfold gets. rewrite Hhas. reflexivity.
  - rewrite Ho. unfold bind at 1. unfold gets. rewrite Hhas. reflexivity.
Qed.

(** The theorem at the object [x] with [x.self = x], met again as the value
    of its own property while it is being serialized. *)
Lemma C1_circular_structure_witness :
  let s := set_objectStack (Push (VObject 2%nat) true JSONStack_new)
             (sessionWithSpace sampleContext VNull) in
  StrHelper sampleContext 1 "self" (VObject 2%nat) (VObject 2%nat) s
  = (Throw (TypeError JSERR_JSONSerializeCircular), s).
Proof.
  apply (C1_circular_structure_throws sampleContext 0 "self" (VObject 2%nat)
           (VObject 2%nat) _ (VObject 2%nat)); reflexivity.
Defined.

(** An exception of the serializer of the members ends the enclosing
    member of an object and the enclosing element of an array. *)
Lemma StringifyMemberObject_throws scriptContext rec propertyName id value st
  propertyValue s e s' :
  Str scriptContext rec propertyName id value propertyValue s = (Throw e, s') ->
  StringifyMemberObject scriptContext rec propertyName id value st propertyValue s
  = (Throw e, s').
Proof. intros H. unfold StringifyMemberObject. apply bind_Throw. exact H. Qed.

Lemma GetArrayElementString_throws scriptContext rec index arrayValue s e s' :
  Str_index scriptContext rec index arrayValue s = (Throw e, s') ->
  GetArrayElementString scriptContext rec index arrayValue s = (Throw e, s').
Proof. intros H. unfold GetArrayElementString. apply bind_Throw. exact H. Qed.

Lemma foreach_throws {A S : Type} (body : A -> S -> M S) a rest acc s e s' :
  body a acc s = (Throw e, s') ->
  foreach (a :: rest) body acc s = (Throw e, s').
Proof. intros H. cbn [foreach]. apply bind_Throw. exact H. Qed.

(** The whole call fails for [x] with [x.self = x], and for the array
    [[x]], whatever the indentation. *)
Example Stringify_circular :
  Stringify sampleContext 10 [VUndefined; VObject 2%nat]%list
  = Throw (TypeError JSERR_JSONSerializeCircular)
  /\ Stringify sampleContext 10 [VUndefined; VObject 10%nat; VNull; VInteger 2]%list
     = Throw (TypeError JSERR_JSONSerializeCircular).
Proof. split; vm_compute; reflexivity. Qed.

(** An object met twice along paths that do not overlap is serialized each
    time. *)
Example Stringify_shared_sibling :
  let context :=
    heapOf [plainObject [("k", VInteger 1)];
            arrayObject [VObject 0%nat; VObject 0%nat]]%list in
  Stringify context 10 [VUndefined; VObject 1%nat]%list
  = Normal (VString ("[{" ++ QUOTE ++ "k" ++ QUOTE ++ ":1},{"
                          ++ QUOTE ++ "k" ++ QUOTE ++ ":1}]")).
Proof. vm_compute. reflexivity. Qed.

(** ** Objects without members (C8) *)

Lemma set_indent_back s i : set_indent (indent s) (set_indent i s) = s.
Proof. destruct s. reflexivity. Qed.

Section EmptyObjects.

Variable scriptContext : ScriptContext.
Variable rec : JavascriptString -> Var -> Var -> M Var.


(** A loop whose body gives back the accumulator gives it back. *)
Lemma foreach_unchanged {A S : Type} (body : A -> S -> M S) :
  (forall a acc s, exists s', body a acc s = (Normal acc, s')) ->
  forall l acc s, exists s', foreach l body acc s = (Normal acc, s').
Proof.
  intros Hbody. induction l as [| a l IH]; intros acc s; cbn [foreach].
  - exists s. reflexivity.
  - destruct (Hbody a acc s) as [s1 H1]. rewrite (bind_Normal _ _ _ _ _ H1). apply IH.
Qed.

End EmptyObjects.


(** The whole call with a replacer array without a name, pretty-printed
    or not. *)
Example Stringify_empty_filter :
  Stringify sampleContext 10 [VUndefined; VObject 3%nat; VObject 9%nat; VInteger 2]%list
  = Normal (VString "{}")
  /\ Stringify sampleContext 10 [VUndefined; VObject 3%nat; VObject 9%nat]%list
     = Normal (VString "{}").
Proof. split; vm_compute; reflexivity. Qed.

(** ** Over-long arrays (C7) *)

(** A loop whose body always returns and leaves the session alone does so
    too. *)
Lemma foreach_returns {A S : Type} (body : A -> S -> M S) s :
  (forall a acc, exists acc', body a acc s = (Normal acc', s)) ->
  forall l acc, exists acc', foreach l body acc s = (Normal acc', s).
Proof.
  intros Hbody. induction l as [| a l IH]; intros acc; cbn [foreach].
  - exists acc. reflexivity.
  - destruct (Hbody a acc) as [acc1 H1]. rewrite (bind_Normal _ _ _ _ _ H1). apply IH.
Qed.

Section ArrayLength.

Variable scriptContext : ScriptContext.
Variable rec : JavascriptString -> Var -> Var -> M Var.

(** The text of an array once its elements are serialized, from a session
    whose depth is the one of the elements. *)
Lemma StringifyArray_wrap (res : JavascriptString) indentString stepBackIndent s :
  exists text,
    (g <- gets gap ;;
     match g with
     | Some _ =>
         indentString <- (match indentString with
                          | Some indentString => ret indentString
                          | None => ind <- gets indent ;; GetIndentString ind
                          end) ;;
         stepBack <- GetIndentString stepBackIndent ;;
         ret ("[" ++ NEWLINE ++ indentString ++ res ++ NEWLINE ++ stepBack ++ "]")
     | None => ret ("[" ++ res ++ "]")
     end) s = (Normal text, s).
Proof.
  unfold bind, gets, GetIndentString, ret.
  destruct (gap s); [destruct indentString |]; eexists; reflexivity.
Qed.

(** A genuine array none of whose elements is set is serialized whatever
    its length: no element reaches [StrHelper], and each is rendered as
    [null]. *)
Lemma StringifyArray_of_holes value s :
  JavascriptArray_Is scriptContext value = true ->
  IsCrossSiteObject scriptContext value = false ->
  (forall index, DirectGetItem scriptContext value index = VUndefined) ->
  exists text, StringifyArray scriptContext rec value s = (Normal (VString text), s).
Proof.
  intros Ha Hc Hu.
  assert (HE : forall k s0,
             GetArrayElementString scriptContext rec k value s0 = (Normal "null", s0)).
  { intros k s0. apply GetArrayElementString_omitted.
    apply Str_index_undefined_element; auto. }
  unfold StringifyArray. rewrite Ha.
  unfold bind at 1. unfold gets at 1. unfold bind at 1. unfold modify at 1.
  unfold bind at 1. unfold ret at 1.
  set (s1 := set_indent (uint32_wrap (indent s + 1)) s).
  set (length := JavascriptArray_GetLength scriptContext value).
  assert (Hres : exists text,
             (if length =? 0 then ret "[]"
              else
                inner <- (if length =? 1 then
                            element <- GetArrayElementString scriptContext rec 0 value ;;
                            ret (element, None)
                          else
                            ind <- gets indent ;;
                            indentString <- GetIndentString ind ;;
                            memberSeparator <- GetMemberSeparator indentString ;;
                            built <- foreach (indices length)
                              (fun k (acc : JavascriptString * bool) =>
                                 let '(res, isFirstMember) := acc in
                                 let res :=
                                   if negb isFirstMember then res ++ memberSeparator
                                   else res in
                                 arrayElementString <-
                                   GetArrayElementString scriptContext rec k value ;;
                                 ret (res ++ arrayElementString, false))
                              ("", true) ;;
                            ret (fst built, Some indentString)) ;;
                let '(res, indentString) := inner in
                g <- gets gap ;;
                match g with
                | Some _ =>
                    indentString <- (match indentString with
                                     | Some indentString => ret indentString
                                     | None => ind <- gets indent ;; GetIndentString ind
                                     end) ;;
                    stepBack <- GetIndentString (indent s) ;;
                    ret ("[" ++ NEWLINE ++ indentString ++ res
                             ++ NEWLINE ++ stepBack ++ "]")
                | None => ret ("[" ++ res ++ "]")
                end) s1 = (Normal text, s1)).
  { destruct (length =? 0); [eexists; reflexivity |].
    assert (Hinner : exists res indentString,
               (if length =? 1 then
                  element <- GetArrayElementString scriptContext rec 0 value ;;
                  ret (element, None)
                else
                  ind <- gets indent ;;
                  indentString <- GetIndentString ind ;;
                  memberSeparator <- GetMemberSeparator indentString ;;
                  built <- foreach (indices length)
                    (fun k (acc : JavascriptString * bool) =>
                       let '(res, isFirstMember) := acc in
                       let res :=
                         if negb isFirstMember then res ++ memberSeparator else res in
                       arrayElementString <-
                         GetArrayElementString scriptContext rec k value ;;
                       ret (res ++ arrayElementString, false))
                    ("", true) ;;
                  ret (fst built, Some indentString)) s1
               = (Normal (res, indentString), s1)).
    { destruct (length =? 1).
      - unfold bind. rewrite HE. eexists; eexists; reflexivity.
      - unfold bind at 1. unfold gets at 1.
        unfold bind at 1. unfold GetIndentString at 1. unfold bind at 1, gets at 1, ret at 1.
        unfold bind at 1. unfold GetMemberSeparator at 1. unfold bind at 1, gets at 1, ret at 1.
        match goal with
        | |- context [foreach ?l ?body ?acc] =>
            assert (Hbody : forall a acc0, exists acc', body a acc0 s1 = (Normal acc', s1))
              by (intros k [res isFirstMember]; unfold bind; rewrite HE;
                  eexists; reflexivity);
            destruct (foreach_returns body s1 Hbody l acc) as [built Hb]
        end.
        rewrite (bind_Normal _ _ _ _ _ Hb). eexists; eexists; reflexivity. }
    destruct Hinner as (res & indentString & Hinner).
    rewrite (bind_Normal _ _ _ _ _ Hinner).
    apply (StringifyArray_wrap res indentString (indent s) s1). }
  destruct Hres as [text Hres]. exists text.
  rewrite (bind_Normal _ _ _ _ _ Hres).
  unfold bind, modify, ret. subst s1. rewrite set_indent_back. reflexivity.
Qed.

(** For every array-like value that is not a genuine array, whose length
    is read through its [length] property, a length at or beyond
    [MaxCharCount] makes [StringifyArray] throw the RangeError before any
    element is looked at ([rec] is never called). *)
Lemma overlong_array_like_throws value s :
  JavascriptArray_Is scriptContext value = false ->
  MaxCharCount <= ToLength scriptContext (OP_GetLength scriptContext value) ->
  StringifyArray scriptContext rec value s
  = (Throw (RangeError JSERR_OutOfBoundString),
     set_indent (uint32_wrap (indent s + 1)) s).
Proof.
  intros Ha Hlen. unfold StringifyArray. rewrite Ha.
  apply Z.leb_le in Hlen. rewrite Hlen. reflexivity.
Qed.

End ArrayLength.

(** ** The replacer name table (C4, C9) *)

(** *** Stores in a buffer *)

Lemma length_store {A : Type} (table : list A) index entry :
  List.length (store table index entry) = List.length table.
Proof.
  revert index. induction table as [| first rest IH]; intros [| index]; simpl; auto.
Qed.

Lemma firstn_store_next {A : Type} (table : list A) index entry :
  (index < List.length table)%nat ->
  firstn (S index) (store table index entry) = (firstn index table ++ [entry])%list.
Proof.
  revert index. induction table as [| first rest IH]; intros [| index] H; simpl in *;
    try lia.
  - reflexivity.
  - f_equal. apply IH. lia.
Qed.

Lemma skipn_store_before {A : Type} (table : list A) index entry n :
  (index < n)%nat -> skipn n (store table index entry) = skipn n table.
Proof.
  revert index n. induction table as [| first rest IH]; intros [| index] [| n] H;
    simpl; try lia; try reflexivity.
  apply IH. lia.
Qed.

Lemma firstn_skipn_nth {A : Type} (table : list A) i n d :
  (i < List.length table)%nat ->
  firstn (S n) (skipn i table) = (nth i table d :: firstn n (skipn (S i) table))%list.
Proof.
  revert i. induction table as [| first rest IH]; intros [| i] H; simpl in *; try lia.
  - reflexivity.
  - apply IH. lia.
Qed.

Lemma uint32_wrap_small z : 0 <= z < UINT32_MODULUS -> uint32_wrap z = z.
Proof. intros H. unfold uint32_wrap. apply Z.mod_small. exact H. Qed.

Lemma uint32_wrap_range z : 0 <= uint32_wrap z < UINT32_MODULUS.
Proof. unfold uint32_wrap. apply Z.mod_pos_bound. reflexivity. Qed.

(** *** Duplicates *)

Lemma filter_filter {A : Type} (f g : A -> bool) l :
  filter f (filter g l) = filter (fun x => g x && f x) l.
Proof.
  induction l as [| x l IH]; simpl; [reflexivity |].
  destruct (g x); simpl; [destruct (f x) |]; rewrite IH; reflexivity.
Qed.

(** Skipping the ids met so far keeps, of the names still to come, the
    first occurrences that were not met. *)
Lemma keepUnseen_keepFirst names : forall seen,
  keepUnseen seen (map entryOfName names)
  = map entryOfName (filter (unseen seen) (keepFirst names)).
Proof.
  induction names as [| name rest IH]; intros seen; [reflexivity |].
  cbn [map keepUnseen keepFirst filter entryOfName propRecord GetOrAddPropertyRecord GetPropertyId].
  rewrite IH, filter_filter.
  assert (Hext : filter (unseen (PropertyIdOfName name :: seen)) (keepFirst rest)
                 = filter (fun x => negb (String.eqb x name) && unseen seen x)
                     (keepFirst rest)).
  { apply filter_ext. intros x. unfold unseen. cbn [existsb PropertyId_eqb].
    rewrite negb_orb. reflexivity. }
  rewrite Hext.
  assert (Hu : unseen seen name
               = negb (existsb (PropertyId_eqb (PropertyIdOfName name)) seen))
    by reflexivity.
  rewrite Hu.
  destruct (existsb (PropertyId_eqb (PropertyIdOfName name)) seen); reflexivity.
Qed.

Lemma keepUnseen_nil names :
  keepUnseen [] (map entryOfName names) = map entryOfName (keepFirst names).
Proof.
  rewrite keepUnseen_keepFirst. f_equal.
  induction (keepFirst names) as [| x l IH]; simpl; [reflexivity |]. f_equal. exact IH.
Qed.

Lemma firstn_S_nth {A : Type} (table : list A) i d :
  (i < List.length table)%nat ->
  firstn (S i) table = (firstn i table ++ [nth i table d])%list.
Proof.
  revert i. induction table as [| first rest IH]; intros [| i] H; simpl in *; try lia.
  - reflexivity.
  - f_equal. apply IH. lia.
Qed.

(** The in-place loop: with [j] entries kept among the first [i], going
    through the next [n] entries keeps those whose id was not met, moved
    down to the positions from [j] on. *)
Lemma eliminateDuplicates_keepUnseen n : forall i tbl seen j,
  (j <= i)%nat ->
  (i + n <= List.length tbl)%nat ->
  Z.of_nat (List.length tbl) < UINT32_MODULUS ->
  exists tbl' j',
    eliminateDuplicates (map Z.of_nat (seq i n)) tbl seen (Z.of_nat j)
    = (tbl', Z.of_nat j')
    /\ firstn j' tbl' = (firstn j tbl ++ keepUnseen seen (firstn n (skipn i tbl)))%list
    /\ (j' <= i + n)%nat
    /\ List.length tbl' = List.length tbl.
Proof.
  induction n as [| n IH]; intros i tbl seen j Hji Hlen Hbound.
  - exists tbl, j. cbn [seq map eliminateDuplicates firstn keepUnseen].
    rewrite app_nil_r. repeat split. lia.
  - cbn [seq map eliminateDuplicates TestAndSet].
    rewrite (firstn_skipn_nth tbl i n uninitialized) by lia.
    cbn [keepUnseen]. unfold entryAt. rewrite Nat2Z.id.
    set (entry := nth i tbl uninitialized).
    destruct (existsb (PropertyId_eqb (GetPropertyId (propRecord entry))) seen).
    + destruct (IH (S i) tbl (GetPropertyId (propRecord entry) :: seen)%list j)
        as (tbl' & j' & He & Hf & Hj & Hl); try lia.
      exists tbl', j'. repeat split; try assumption. lia.
    + set (tbl1 := if negb (Z.of_nat j =? Z.of_nat i)
                   then store tbl (Z.to_nat (Z.of_nat j)) entry else tbl).
      assert (H1 : List.length tbl1 = List.length tbl
                   /\ firstn (S j) tbl1 = (firstn j tbl ++ [entry])%list
                   /\ skipn (S i) tbl1 = skipn (S i) tbl).
      { subst tbl1. rewrite Nat2Z.id.
        destruct (Z.eqb_spec (Z.of_nat j) (Z.of_nat i)) as [E | E]; cbn [negb].
        - apply Nat2Z.inj in E. subst j. repeat split.
          apply firstn_S_nth. lia.
        - assert (j < i)%nat by lia.
          rewrite length_store, firstn_store_next, skipn_store_before by lia.
          repeat split. }
      destruct H1 as (Hl1 & Hf1 & Hs1).
      rewrite uint32_wrap_small by lia.
      replace (Z.of_nat j + 1) with (Z.of_nat (S j)) by lia.
      destruct (IH (S i) tbl1 (GetPropertyId (propRecord entry) :: seen)%list (S j))
        as (tbl' & j' & He & Hf & Hj & Hl); try lia.
      exists tbl', j'. rewrite He, Hf, Hf1, Hs1, <- app_assoc.
      repeat split; lia.
Qed.

Section NameTableFacts.

Variable scriptContext : ScriptContext.
Variable replacerArg : Var.

Lemma IsValidReplacerType_producesName item :
  IsValidReplacerType (GetTypeId scriptContext item) = producesName scriptContext item.
Proof.
  destruct item; try reflexivity;
    cbn [GetTypeId producesName];
    destruct (typeId (GetObject scriptContext o)); reflexivity.
Qed.

(** [AddToNameTable] on an element that produces a name, and on one that
    does not. *)
Lemma AddToNameTable_name nameTable tableLen size item :
  producesName scriptContext item = true ->
  AddToNameTable scriptContext nameTable tableLen size item
  = if tableLen =? size then Throw FatalInternalError
    else Normal (store nameTable (Z.to_nat tableLen)
                       (entryOfName (nameOf scriptContext item)),
                 uint32_wrap (tableLen + 1)).
Proof.
  unfold AddToNameTable, nameOf, entryOfName.
  destruct item; try discriminate; try reflexivity;
    cbn [producesName GetTypeId];
    destruct (typeId (GetObject scriptContext o)); try discriminate; reflexivity.
Qed.

Lemma AddToNameTable_skip nameTable tableLen size item :
  producesName scriptContext item = false ->
  AddToNameTable scriptContext nameTable tableLen size item = Normal (nameTable, tableLen).
Proof.
  unfold AddToNameTable.
  destruct item; try discriminate; try reflexivity;
    cbn [producesName GetTypeId];
    destruct (typeId (GetObject scriptContext o)); try discriminate; reflexivity.
Qed.

Lemma validItems_cons i range :
  nameProducingAt scriptContext replacerArg (i :: range)
  = (match GetItem scriptContext replacerArg i with
     | Some item => if producesName scriptContext item then [item] else []
     | None => []
     end ++ nameProducingAt scriptContext replacerArg range)%list.
Proof.
  unfold nameProducingAt, elementsAt. cbn [flat_map]. rewrite filter_app. f_equal.
  destruct (GetItem scriptContext replacerArg i) as [item |]; [| reflexivity].
  cbn [filter]. destruct (producesName scriptContext item); reflexivity.
Qed.

Lemma validItems_length_le range :
  (List.length (nameProducingAt scriptContext replacerArg range) <= List.length range)%nat.
Proof.
  induction range as [| i range IH]; [apply Nat.le_refl |].
  rewrite validItems_cons, length_app. cbn [List.length].
  destruct (GetItem scriptContext replacerArg i) as [item |];
    [destruct (producesName scriptContext item) |]; cbn [List.length]; lia.
Qed.

(** The counting pass counts the name-producing elements, reading the
    array directly or not. *)
Lemma count_pass (isArray : bool) range : forall count,
  0 <= count ->
  count + Z.of_nat (List.length range) < UINT32_MODULUS ->
  fold_left
    (fun (count i : Z) =>
       if isArray then
         let idn := GetTypeId scriptContext (DirectGetItem scriptContext replacerArg i) in
         if IsValidReplacerType idn then uint32_wrap (count + 1) else count
       else
         match GetItem scriptContext replacerArg i with
         | Some item =>
             let idn := GetTypeId scriptContext item in
             if IsValidReplacerType idn then uint32_wrap (count + 1) else count
         | None => count
         end)
    range count
  = count + Z.of_nat (List.length (nameProducingAt scriptContext replacerArg range)).
Proof.
  induction range as [| i range IH]; intros count Hc Hb.
  - cbn. lia.
  - cbn [fold_left List.length] in *. rewrite validItems_cons, length_app.
    unfold DirectGetItem. cbv zeta.
    destruct (GetItem scriptContext replacerArg i) as [item |].
    + rewrite IsValidReplacerType_producesName.
      destruct (producesName scriptContext item); cbn [List.length];
        destruct isArray; rewrite IH; try rewrite uint32_wrap_small; lia.
    + cbn [GetTypeId IsValidReplacerType List.length].
      destruct isArray; rewrite IH; lia.
Qed.

(** The fill pass appends the entries of the name-producing elements, as
    long as the table has room for them. *)
Lemma fill_pass direct cnt range : forall tbl t,
  (t + List.length (nameProducingAt scriptContext replacerArg range) <= cnt)%nat ->
  (cnt <= List.length tbl)%nat ->
  Z.of_nat cnt < UINT32_MODULUS ->
  exists tbl',
    fillNameTable scriptContext replacerArg direct (Z.of_nat cnt) range tbl (Z.of_nat t)
    = Normal (tbl', Z.of_nat (t + List.length (nameProducingAt scriptContext replacerArg range)))
    /\ List.length tbl' = List.length tbl
    /\ firstn (t + List.length (nameProducingAt scriptContext replacerArg range)) tbl'
       = (firstn t tbl
          ++ map entryOfName (map (nameOf scriptContext) (nameProducingAt scriptContext replacerArg range)))%list.
Proof.
  induction range as [| i range IH]; intros tbl t Ht Hcnt Hb.
  - exists tbl. unfold nameProducingAt.
    cbn [fillNameTable elementsAt flat_map filter List.length map].
    rewrite Nat.add_0_r, app_nil_r. repeat split.
  - rewrite validItems_cons in *. rewrite length_app in *.
    cbn [fillNameTable]. unfold DirectGetItem.
    assert (Hskip : forall item,
               producesName scriptContext item = false ->
               (t + List.length (nameProducingAt scriptContext replacerArg range) <= cnt)%nat ->
               exists tbl',
                 match AddToNameTable scriptContext tbl (Z.of_nat t) (Z.of_nat cnt) item with
                 | Normal (nameTable', tableLen') =>
                     fillNameTable scriptContext replacerArg direct (Z.of_nat cnt) range
                       nameTable' tableLen'
                 | Throw e => Throw e
                 end
                 = Normal (tbl', Z.of_nat (t + (0 + List.length (nameProducingAt scriptContext replacerArg range))))
                 /\ List.length tbl' = List.length tbl
                 /\ firstn (t + (0 + List.length (nameProducingAt scriptContext replacerArg range))) tbl'
                    = (firstn t tbl
                       ++ map entryOfName
                            (map (nameOf scriptContext) ([] ++ nameProducingAt scriptContext replacerArg range)))%list).
    { intros item Hp Ht'. rewrite (AddToNameTable_skip _ _ _ _ Hp).
      apply IH; assumption. }
    destruct (GetItem scriptContext replacerArg i) as [item |].
    + destruct (producesName scriptContext item) eqn:Hp.
      * cbn [List.length] in *.
        assert (Hadd : AddToNameTable scriptContext tbl (Z.of_nat t) (Z.of_nat cnt) item
                       = Normal (store tbl t (entryOfName (nameOf scriptContext item)),
                                 Z.of_nat (S t))).
        { rewrite (AddToNameTable_name _ _ _ _ Hp).
          destruct (Z.eqb_spec (Z.of_nat t) (Z.of_nat cnt)) as [E | E]; [lia |].
          rewrite Nat2Z.id, uint32_wrap_small by lia. do 2 f_equal. lia. }
        destruct (IH (store tbl t (entryOfName (nameOf scriptContext item))) (S t))
          as (tbl' & Hf & Hl & Hn); try assumption.
        { cbn [Nat.add] in Ht. lia. }
        { rewrite length_store. assumption. }
        exists tbl'.
        replace (t + (1 + List.length (nameProducingAt scriptContext replacerArg range)))%nat
          with (S t + List.length (nameProducingAt scriptContext replacerArg range))%nat by lia.
        rewrite length_store in Hl. rewrite firstn_store_next in Hn by lia.
        rewrite <- app_assoc in Hn.
        destruct direct; rewrite Hadd, Hf; repeat split; assumption.
      * cbn [List.length] in Ht.
        destruct direct; apply (Hskip item Hp); lia.
    + cbn [List.length] in Ht. destruct direct.
      * apply (Hskip VUndefined eq_refl). lia.
      * apply IH; try assumption; lia.
Qed.

End NameTableFacts.

Lemma replacerLength_range scriptContext replacerArg :
  0 <= replacerLength scriptContext replacerArg < UINT32_MODULUS.
Proof.
  unfold replacerLength, JavascriptArray_GetLength, ToUInt32.
  destruct (JavascriptArray_Is scriptContext replacerArg).
  - destruct replacerArg; try (split; [apply Z.le_refl | reflexivity]).
    apply uint32_wrap_range.
  - destruct (ToNumber _ _); try (split; [apply Z.le_refl | reflexivity]).
    apply uint32_wrap_range.
Qed.

Lemma length_indices length : List.length (indices length) = Z.to_nat length.
Proof. unfold indices. rewrite length_map, length_seq. reflexivity. Qed.

(** The count of the counting pass is the number of name-producing
    elements. *)
Lemma countValidReplacerItems_eq scriptContext replacerArg :
  countValidReplacerItems scriptContext replacerArg
    (JavascriptArray_Is scriptContext replacerArg)
    (replacerLength scriptContext replacerArg)
  = Z.of_nat (List.length (nameProducingAt scriptContext replacerArg
                             (indices (replacerLength scriptContext replacerArg)))).
Proof.
  pose proof (replacerLength_range scriptContext replacerArg) as Hr.
  unfold countValidReplacerItems. rewrite count_pass.
  - reflexivity.
  - apply Z.le_refl.
  - rewrite length_indices. lia.
Qed.

(** What [Stringify_nameTable] comes to: the fill pass writes the entries
    of all the name-producing elements, [count] of them, and the table in
    use afterwards is the one of the name filter. *)
Lemma Stringify_nameTable_spec scriptContext replacerArg :
  let isArray := JavascriptArray_Is scriptContext replacerArg in
  let length := replacerLength scriptContext replacerArg in
  let count := countValidReplacerItems scriptContext replacerArg isArray length in
  (exists filled,
      fillNameTable scriptContext replacerArg
        (isArray && IsCrossSiteObject scriptContext replacerArg) count
        (indices length) (AnewArray count) 0 = Normal (filled, count))
  /\ exists nameTable tableLen,
      Stringify_nameTable scriptContext replacerArg = Normal (nameTable, Z.of_nat tableLen)
      /\ firstn tableLen nameTable
         = map entryOfName (NameFilter scriptContext replacerArg)
      /\ (tableLen <= List.length nameTable)%nat.
Proof.
  cbv zeta.
  pose proof (replacerLength_range scriptContext replacerArg) as Hr.
  unfold Stringify_nameTable, NameFilter.
  fold (replacerLength scriptContext replacerArg).
  rewrite countValidReplacerItems_eq.
  set (valid := nameProducingAt scriptContext replacerArg
                  (indices (replacerLength scriptContext replacerArg))).
  set (cnt := List.length valid).
  assert (Hcnt : Z.of_nat cnt < UINT32_MODULUS).
  { pose proof (validItems_length_le scriptContext replacerArg
                  (indices (replacerLength scriptContext replacerArg))) as Hle.
    rewrite length_indices in Hle. fold valid in Hle. fold cnt in Hle. lia. }
  destruct (fill_pass scriptContext replacerArg
              (JavascriptArray_Is scriptContext replacerArg
               && IsCrossSiteObject scriptContext replacerArg)
              cnt (indices (replacerLength scriptContext replacerArg))
              (AnewArray (Z.of_nat cnt)) 0%nat)
    as (filled & Hfill & Hlen & Hnames).
  { fold valid. fold cnt. lia. }
  { unfold AnewArray. rewrite repeat_length, Nat2Z.id. apply Nat.le_refl. }
  { exact Hcnt. }
  fold valid in Hfill, Hnames. fold cnt in Hfill, Hnames.
  cbn [Nat.add firstn app] in Hfill, Hnames. change (Z.of_nat 0) with 0 in Hfill.
  assert (Hlen' : List.length filled = cnt).
  { rewrite Hlen. unfold AnewArray. rewrite repeat_length, Nat2Z.id. reflexivity. }
  split; [exists filled; exact Hfill |].
  destruct (Z.eqb_spec (Z.of_nat cnt) 0) as [E | E]; cbn [negb].
  - exists []%list, 0%nat. split; [reflexivity |].
    assert (Hv : valid = []%list) by (apply length_zero_iff_nil; fold cnt; lia).
    rewrite Hv. split; [reflexivity | apply Nat.le_refl].
  - rewrite Hfill.
    assert (Hall : filled = map entryOfName (map (nameOf scriptContext) valid)).
    { rewrite <- Hnames. symmetry. apply firstn_all2. lia. }
    destruct (eliminateDuplicates_keepUnseen cnt 0 filled []%list 0)
      as (tbl' & j' & He & Hf & Hj & Hl); try lia.
    exists tbl', j'. unfold indices. rewrite Nat2Z.id.
    change 0 with (Z.of_nat 0). rewrite He. split; [reflexivity |].
    split; [| lia].
    rewrite Hf. cbn [firstn app skipn].
    rewrite firstn_all2 by lia. rewrite Hall. apply keepUnseen_nil.
Qed.

(** *** The members a name table selects *)

Lemma foreach_map {A B S : Type} (f : A -> B) (body : B -> S -> M S) l :
  forall acc s, foreach (map f l) body acc s = foreach l (fun a => body (f a)) acc s.
Proof.
  induction l as [| a l IH]; intros acc s; [reflexivity |].
  cbn [map foreach]. unfold bind. destruct (body (f a) acc s) as [[acc' | e] s'];
    [apply IH | reflexivity].
Qed.

Lemma map_nth_seq {A : Type} (table : list A) d n : forall i,
  (i + n <= List.length table)%nat ->
  map (fun k => nth k table d) (seq i n) = firstn n (skipn i table).
Proof.
  induction n as [| n IH]; intros i H; [reflexivity |].
  cbn [seq map]. rewrite (firstn_skipn_nth table i n d) by lia.
  f_equal. apply IH. lia.
Qed.

Lemma map_entryAt_indices nameTable tableLen :
  (tableLen <= List.length nameTable)%nat ->
  map (entryAt nameTable) (indices (Z.of_nat tableLen)) = firstn tableLen nameTable.
Proof.
  intros H. unfold indices. rewrite Nat2Z.id, map_map.
  change (firstn tableLen nameTable) with (firstn tableLen (skipn 0 nameTable)).
  rewrite <- (map_nth_seq nameTable uninitialized tableLen 0) by lia.
  apply map_ext. intros k. unfold entryAt. rewrite Nat2Z.id. reflexivity.
Qed.

(** With a name table, the members of an object are looked up by the names
    of the entries in use, in the order of the table, and no other
    property of the object is looked at. *)
Lemma StringifyObject_members_of_table scriptContext rec o nameTable tableLen s :
  replacer s = ReplacerArray nameTable (Z.of_nat tableLen) ->
  (tableLen <= List.length nameTable)%nat ->
  StringifyObject_members scriptContext rec (VObject o) s
  = foreach (firstn tableLen nameTable)
      (fun entry st =>
         StringifyMemberObject scriptContext rec (propName entry)
           (GetPropertyId (propRecord entry)) (VObject o) st None)
      (mkMemberState "" None None true true) s.
Proof.
  intros Hr Hlen. unfold StringifyObject_members, bind at 1, gets. rewrite Hr.
  rewrite <- (map_entryAt_indices nameTable tableLen Hlen).
  symmetry. apply foreach_map.
Qed.

(** C4. The name table a replacer array resolves to holds, in its entries
    in use, the names of the name filter: of the elements of the array in
    index order, those that produce a name (Integer, String, Number and
    the boxed forms of these), each by its name, a name met before being
    dropped. With the filter [["a", "a", "b", "a"]] the object
    [{a: 1, b: 2, c: 3}] is serialized with the members [a] and [b], in
    that order. In general the members of an object are looked up by the
    names of the filter, in its order, and by nothing else. *)
Theorem C4_name_filter_first_occurrences scriptContext replacerArg :
  (exists nameTable tableLen,
      Stringify_nameTable scriptContext replacerArg = Normal (nameTable, Z.of_nat tableLen)
      /\ firstn tableLen nameTable
         = map entryOfName (NameFilter scriptContext replacerArg)
      /\ forall rec o s,
          replacer s = ReplacerArray nameTable (Z.of_nat tableLen) ->
          StringifyObject_members scriptContext rec (VObject o) s
          = foreach (NameFilter scriptContext replacerArg)
              (fun name st =>
                 StringifyMemberObject scriptContext rec name (PropertyIdOfName name)
                   (VObject o) st None)
              (mkMemberState "" None None true true) s)
  /\ NameFilter sampleContext (VObject 4%nat) = ["a"; "b"]%list
  /\ Stringify sampleContext 10 [VUndefined; VObject 3%nat; VObject 4%nat]%list
     = Normal (VString ("{" ++ QUOTE ++ "a" ++ QUOTE ++ ":1,"
                            ++ QUOTE ++ "b" ++ QUOTE ++ ":2}")).
Proof.
  split; [| split; vm_compute; reflexivity].
  destruct (Stringify_nameTable_spec scriptContext replacerArg)
    as (_ & nameTable & tableLen & Hn & Hf & Hlen).
  exists nameTable, tableLen. split; [exact Hn | split; [exact Hf |]].
  intros rec o s Hr.
  rewrite (StringifyObject_members_of_table _ _ _ _ _ _ Hr Hlen), Hf.
  apply foreach_map.
Qed.

(** The theorem C4 at the replacer array [["a", "a", "b", "a"]]. *)
Lemma C4_name_filter_witness :
  exists nameTable tableLen,
    Stringify_nameTable sampleContext (VObject 4%nat) = Normal (nameTable, Z.of_nat tableLen)
    /\ map propName (firstn tableLen nameTable) = ["a"; "b"]%list.
Proof.
  destruct (C4_name_filter_first_occurrences sampleContext (VObject 4%nat))
    as ((nameTable & tableLen & Hn & Hf & _) & HF & _).
  exists nameTable, tableLen. split; [exact Hn |].
  rewrite Hf, HF. reflexivity.
Defined.

(** ** The whole call on small inputs *)

(** No value, or the value undefined: no text. *)
Example Stringify_undefined :
  Stringify sampleContext 10 [VUndefined]%list = Normal VUndefined
  /\ Stringify sampleContext 10 [VUndefined; VUndefined]%list = Normal VUndefined.
Proof. split; reflexivity. Qed.

(** [{a: undefined, b: 1}] and [[undefined, 1]]. *)
Example Stringify_omitted :
  Stringify sampleContext 10 [VUndefined; VObject 0%nat]%list
  = Normal (VString ("{" ++ quoted "b" ++ ":1}"))
  /\ Stringify sampleContext 10 [VUndefined; VObject 1%nat]%list
     = Normal (VString "[null,1]").
Proof. split; vm_compute; reflexivity. Qed.

(** [{a: 1, b: 2}] with two spaces of indentation; a space of 15 is a
    space of 10. *)
Example Stringify_pretty :
  Stringify hookContext 10 [VUndefined; VObject 3%nat; VNull; VInteger 2]%list
  = Normal (VString ("{" ++ NEWLINE ++ "  " ++ quoted "a" ++ ": 1," ++ NEWLINE
                         ++ "  " ++ quoted "b" ++ ": 2" ++ NEWLINE ++ "}"))
  /\ Stringify hookContext 10 [VUndefined; VObject 3%nat; VNull; VInteger 15]%list
     = Stringify hookContext 10 [VUndefined; VObject 3%nat; VNull; VInteger 10]%list.
Proof. split; vm_compute; reflexivity. Qed.

(** [{a: NaN, b: Infinity}]. *)
Example Stringify_not_finite :
  Stringify hookContext 10 [VUndefined; VObject 2%nat]%list
  = Normal (VString ("{" ++ quoted "a" ++ ":null," ++ quoted "b" ++ ":null}")).
Proof. vm_compute. reflexivity. Qed.

(** An object with a [toJSON] of its own, one that inherits it, and a hook
    that returns the key it is given. *)
Example Stringify_toJSON :
  Stringify hookContext 10 [VUndefined; VObject 1%nat]%list = Normal (VString "42")
  /\ Stringify hookContext 10 [VUndefined; VObject 4%nat]%list = Normal (VString "42")
  /\ Stringify hookContext 10 [VUndefined; VObject 11%nat]%list
     = Normal (VString ("{" ++ quoted "k" ++ ":" ++ quoted "k" ++ "}")).
Proof. repeat split; vm_compute; reflexivity. Qed.

(** Wrapper objects are serialized as what they wrap. *)
Example Stringify_wrappers :
  Stringify hookContext 10 [VUndefined; VObject 8%nat]%list
  = Normal (VString ("[5," ++ quoted "s" ++ ",true]")).
Proof. vm_compute. reflexivity. Qed.

(** * Further properties of the serializer *)

(** ** Strings *)

Lemma append_nil_r (s : string) : s ++ "" = s.
Proof. induction s as [| c s IH]; simpl; [reflexivity | rewrite IH; reflexivity]. Qed.

Lemma append_assoc (a b c : string) : (a ++ b) ++ c = a ++ b ++ c.
Proof. induction a as [| x a IH]; simpl; [reflexivity | rewrite IH; reflexivity]. Qed.

Lemma length_append (a b : string) :
  String.length (a ++ b) = (String.length a + String.length b)%nat.
Proof. induction a as [| x a IH]; simpl; [reflexivity | rewrite IH; reflexivity]. Qed.

Lemma length_repeatString n text :
  String.length (repeatString n text) = (n * String.length text)%nat.
Proof.
  induction n as [| n IH]; simpl; [reflexivity |]. rewrite length_append, IH. reflexivity.
Qed.

Lemma repeatString_snoc n text : repeatString n text ++ text = text ++ repeatString n text.
Proof.
  induction n as [| n IH]; simpl; [symmetry; apply append_nil_r |].
  rewrite append_assoc, IH. reflexivity.
Qed.

(** ** The indentation string *)

Lemma fold_Concat_repeat {A : Type} (l : list A) gap : forall res,
  fold_left (fun res _ => Concat res gap) l res = res ++ repeatString (List.length l) gap.
Proof.
  induction l as [| a l IH]; intros res; simpl.
  - symmetry. apply append_nil_r.
  - rewrite IH. unfold Concat. rewrite append_assoc. reflexivity.
Qed.

Lemma GetIndentString_indentation count s :
  GetIndentString count s = (Normal (indentation (gap s) count), s).
Proof.
  unfold GetIndentString, bind, gets, ret, indentation.
  destruct (gap s) as [g |]; [| reflexivity].
  rewrite fold_Concat_repeat, length_indices. reflexivity.
Qed.

(** X1. [GetIndentString count] is the gap repeated [count] times, read
    off the session and leaving it as it was: its length is [count] times
    the length of the gap, and it is empty without a gap or at depth 0. *)
Theorem GetIndentString_repeats_gap count s :
  GetIndentString count s = (Normal (indentation (gap s) count), s)
  /\ GetLength (indentation (gap s) count) = Z.max 0 count * GetLength (gapText s).
Proof.
  split.
  - apply GetIndentString_indentation.
  - unfold indentation, gapText, GetLength. destruct (gap s) as [g |].
    + rewrite length_repeatString. lia.
    + simpl. lia.
Qed.

(** ** The name table *)

Lemma firstn_store_same {A : Type} (table : list A) index entry :
  firstn index (store table index entry) = firstn index table.
Proof.
  revert index. induction table as [| first rest IH]; intros [| index]; simpl;
    try reflexivity.
  f_equal. apply IH.
Qed.

(** X2. [AddToNameTable] stays inside the table: from [tableLen <= size]
    and a table of at least [size] entries, it either throws
    [FatalInternalError], which happens only when the table is full and
    the item produces a name, or returns with [tableLen] advanced by at
    most one and still within [size], the table of the same length, and
    no entry changed except the one at the old [tableLen]. *)
Theorem AddToNameTable_within_bounds scriptContext nameTable tableLen size item :
  0 <= tableLen <= size ->
  size <= Z.of_nat (List.length nameTable) ->
  size < UINT32_MODULUS ->
  match AddToNameTable scriptContext nameTable tableLen size item with
  | Throw e =>
      e = FatalInternalError /\ tableLen = size
      /\ producesName scriptContext item = true
  | Normal (nameTable', tableLen') =>
      tableLen <= tableLen' <= size
      /\ tableLen' <= tableLen + 1
      /\ List.length nameTable' = List.length nameTable
      /\ firstn (Z.to_nat tableLen) nameTable' = firstn (Z.to_nat tableLen) nameTable
      /\ skipn (Z.to_nat (tableLen + 1)) nameTable'
         = skipn (Z.to_nat (tableLen + 1)) nameTable
  end.
Proof.
  intros Ht Hs Hb.
  destruct (producesName scriptContext item) eqn:Hp.
  - rewrite (AddToNameTable_name _ _ _ _ _ Hp).
    destruct (Z.eqb_spec tableLen size) as [E | E]; [auto |].
    rewrite uint32_wrap_small by lia. rewrite length_store, firstn_store_same.
    rewrite skipn_store_before by lia. repeat split; lia.
  - rewrite (AddToNameTable_skip _ _ _ _ _ Hp). repeat split; lia.
Qed.

(** The theorem at a table of two entries with one in use, for a string. *)
Lemma AddToNameTable_within_bounds_witness :
  match AddToNameTable sampleContext [entryOfName "a"; uninitialized]%list 1 2
          (VString "b") with
  | Throw e =>
      e = FatalInternalError /\ 1 = 2
      /\ producesName sampleContext (VString "b") = true
  | Normal (nameTable', tableLen') =>
      1 <= tableLen' <= 2
      /\ tableLen' <= 1 + 1
      /\ List.length nameTable' = 2%nat
      /\ firstn (Z.to_nat 1) nameTable' = [entryOfName "a"]%list
      /\ skipn (Z.to_nat (1 + 1)) nameTable' = []%list
  end.
Proof.
  apply (AddToNameTable_within_bounds sampleContext
           [entryOfName "a"; uninitialized]%list 1 2 (VString "b")).
  - lia.
  - simpl. lia.
  - reflexivity.
Defined.

Lemma In_keepFirst names name : In name (keepFirst names) <-> In name names.
Proof.
  induction names as [| first rest IH]; [reflexivity |].
  cbn [keepFirst In]. rewrite filter_In, IH.
  destruct (String.eqb_spec name first) as [E | E]; cbn [negb].
  - subst. intuition.
  - intuition.
Qed.

Lemma NoDup_keepFirst names : NoDup (keepFirst names).
Proof.
  induction names as [| first rest IH]; cbn [keepFirst]; constructor.
  - rewrite filter_In. intros [_ H]. rewrite String.eqb_refl in H. discriminate.
  - apply NoDup_filter. exact IH.
Qed.

Lemma length_keepFirst names : (List.length (keepFirst names) <= List.length names)%nat.
Proof.
  induction names as [| first rest IH]; cbn [keepFirst List.length]; [lia |].
  apply le_n_S. eapply Nat.le_trans; [| exact IH].
  apply (filter_length_le (fun other => negb (String.eqb other first)) (keepFirst rest)).
Qed.

Lemma In_elementsAt scriptContext replacerArg range item :
  In item (elementsAt scriptContext replacerArg range)
  <-> exists i, In i range /\ GetItem scriptContext replacerArg i = Some item.
Proof.
  unfold elementsAt. rewrite in_flat_map. split.
  - intros (i & Hi & Hin). exists i. split; [exact Hi |].
    destruct (GetItem scriptContext replacerArg i) as [found |]; [| destruct Hin].
    destruct Hin as [-> | []]. reflexivity.
  - intros (i & Hi & Hg). exists i. split; [exact Hi |]. rewrite Hg. left. reflexivity.
Qed.

Lemma In_indices length i : In i (indices length) <-> 0 <= i < length.
Proof.
  unfold indices. rewrite in_map_iff. split.
  - intros (k & <- & Hk). apply in_seq in Hk. lia.
  - intros H. exists (Z.to_nat i). split; [lia |]. apply in_seq. lia.
Qed.

Lemma Stringify_nameTable_names scriptContext replacerArg :
  exists nameTable tableLen,
    Stringify_nameTable scriptContext replacerArg = Normal (nameTable, Z.of_nat tableLen)
    /\ NoDup (map propName (firstn tableLen nameTable))
    /\ (forall name,
           In name (map propName (firstn tableLen nameTable))
           <-> exists i item,
               0 <= i < replacerLength scriptContext replacerArg
               /\ GetItem scriptContext replacerArg i = Some item
               /\ producesName scriptContext item = true
               /\ nameOf scriptContext item = name)
    /\ Z.of_nat tableLen <= replacerLength scriptContext replacerArg.
Proof.
  destruct (Stringify_nameTable_spec scriptContext replacerArg)
    as (_ & nameTable & tableLen & Hn & Hf & Hlen).
  exists nameTable, tableLen. split; [exact Hn |].
  assert (Hnames : map propName (firstn tableLen nameTable)
                   = NameFilter scriptContext replacerArg).
  { rewrite Hf, map_map. cbn [entryOfName propName]. apply map_id. }
  rewrite Hnames. unfold NameFilter. split; [apply NoDup_keepFirst | split].
  - intros name. rewrite In_keepFirst, in_map_iff. unfold nameProducingAt. split.
    + intros (item & Hname & Hin). apply filter_In in Hin as [Hin Hp].
      apply In_elementsAt in Hin as (i & Hi & Hg). apply In_indices in Hi.
      exists i, item. auto.
    + intros (i & item & Hi & Hg & Hp & Hname). exists item. split; [exact Hname |].
      apply filter_In. split; [| exact Hp].
      apply In_elementsAt. exists i. split; [apply In_indices; exact Hi | exact Hg].
  - pose proof (replacerLength_range scriptContext replacerArg) as Hr.
    pose proof (length_keepFirst
                  (map (nameOf scriptContext)
                     (nameProducingAt scriptContext replacerArg
                        (indices (replacerLength scriptContext replacerArg))))) as H1.
    pose proof (validItems_length_le scriptContext replacerArg
                  (indices (replacerLength scriptContext replacerArg))) as H2.
    rewrite length_indices in H2. rewrite length_map in H1.
    assert (H3 : tableLen = List.length (NameFilter scriptContext replacerArg)).
    { rewrite <- Hnames, length_map, length_firstn. lia. }
    unfold NameFilter in H3. lia.
Qed.

(** X3. The names a replacer array resolves to, in the entries in use of
    the name table handed to [InitReplacer]: no name is there twice; a
    name is there exactly when some element of the array, at an index
    below its length, produces it; and there are no more names than the
    array has elements. *)
Theorem name_table_names_once scriptContext replacerArg nameTable tableLen :
  Stringify_nameTable scriptContext replacerArg = Normal (nameTable, tableLen) ->
  let names := map propName (firstn (Z.to_nat tableLen) nameTable) in
  NoDup names
  /\ (forall name,
        In name names
        <-> exists i item,
            0 <= i < replacerLength scriptContext replacerArg
            /\ GetItem scriptContext replacerArg i = Some item
            /\ producesName scriptContext item = true
            /\ nameOf scriptContext item = name)
  /\ 0 <= tableLen <= replacerLength scriptContext replacerArg.
Proof.
  intros H names. subst names.
  destruct (Stringify_nameTable_names scriptContext replacerArg)
    as (nameTable' & tableLen' & H' & Hnodup & Hin & Hle).
  rewrite H in H'. inversion H'; subst. rewrite Nat2Z.id.
  split; [exact Hnodup |]. split; [exact Hin | lia].
Qed.

Lemma name_table_names_once_witness :
  let names :=
    map propName
      (firstn (Z.to_nat 2)
         [entryOfName "a"; entryOfName "b"; entryOfName "b"; entryOfName "a"]%list) in
  NoDup names
  /\ (forall name,
        In name names
        <-> exists i item,
            0 <= i < replacerLength sampleContext (VObject 4%nat)
            /\ GetItem sampleContext (VObject 4%nat) i = Some item
            /\ producesName sampleContext item = true
            /\ nameOf sampleContext item = name)
  /\ 0 <= 2 <= replacerLength sampleContext (VObject 4%nat).
Proof.
  apply (name_table_names_once sampleContext (VObject 4%nat)
           [entryOfName "a"; entryOfName "b"; entryOfName "b"; entryOfName "a"]%list 2).
  vm_compute. reflexivity.
Defined.

(** ** What the serializer returns *)

Lemma post_ret {A : Type} (P : A -> Prop) a : P a -> post P (ret a).
Proof. intros H s b s' E. inversion E; subst. exact H. Qed.

Lemma post_throw {A : Type} (P : A -> Prop) e : post P (throw e).
Proof. intros s b s' E. discriminate E. Qed.

Lemma post_bind {A B : Type} (Q : A -> Prop) (P : B -> Prop) (m : M A) (k : A -> M B) :
  post Q m -> (forall a, Q a -> post P (k a)) -> post P (bind m k).
Proof.
  intros Hm Hk s b s' E.
  apply bind_inv in E as [(e & _ & He) | (a & s1 & Hs & Hka)]; [discriminate He |].
  exact (Hk a (Hm _ _ _ Hs) _ _ _ Hka).
Qed.

Lemma post_bind_any {A B : Type} (P : B -> Prop) (m : M A) (k : A -> M B) :
  (forall a, post P (k a)) -> post P (bind m k).
Proof.
  intros Hk. apply (post_bind (fun _ => True)); [intros s a s' _; exact I | auto].
Qed.

Section ReturnedText.

Variable scriptContext : ScriptContext.
Variable rec : JavascriptString -> Var -> Var -> M Var.

Lemma StringifyObject_returns_string value :
  post isString (StringifyObject scriptContext rec value).
Proof.
  unfold StringifyObject. repeat (apply post_bind_any; intros ?).
  apply post_ret. eexists; reflexivity.
Qed.

Lemma StringifyArray_returns_string value :
  post isString (StringifyArray scriptContext rec value).
Proof.
  unfold StringifyArray. repeat (apply post_bind_any; intros ?).
  apply post_ret. eexists; reflexivity.
Qed.

Lemma StrHelper_dispatch_returns_text value :
  post isText (StrHelper_dispatch scriptContext rec value).
Proof.
  assert (Htext : forall text, isText (VString text)) by (intros; right; eexists; reflexivity).
  assert (Hcomposite : forall (body : M Var) f g,
             post isString body ->
             post isText (modify f ;;; r <- body ;; modify g ;;; ret r)).
  { intros body f g Hbody. apply post_bind_any; intros _.
    apply (post_bind isString); [exact Hbody |].
    intros r (text & ->). apply post_bind_any; intros _. apply post_ret, Htext. }
  unfold StrHelper_dispatch.
  destruct (GetTypeId scriptContext value);
    try (apply post_ret; first [left; reflexivity | apply Htext]).
  - destruct (IsFinite _); apply post_ret, Htext.
  - destruct (IsFinite _); apply post_ret, Htext.
  - destruct (IsFinite _); apply post_ret, Htext.
  - destruct (IsJsNativeObject _ _).
    + destruct (negb _); [| apply post_ret; left; reflexivity].
      apply post_bind_any; intros has. destruct has; [apply post_throw |].
      apply Hcomposite.
      destruct (IsArray _ _);
        [apply StringifyArray_returns_string | apply StringifyObject_returns_string].
    + destruct (IsObject value); [| apply post_ret; left; reflexivity].
      apply post_bind_any; intros has. destruct has; [apply post_throw |].
      apply Hcomposite. apply StringifyObject_returns_string.
Qed.

End ReturnedText.

Lemma StrHelper_returns_text scriptContext stack key value holder :
  post isText (StrHelper scriptContext stack key value holder).
Proof.
  destruct stack as [| stack]; cbn [StrHelper]; [apply post_throw |].
  unfold StrHelper_body. apply post_bind_any; intros prepared.
  apply StrHelper_dispatch_returns_text.
Qed.

(** [Stringify] once the stack probe has passed and the value is there, in
    terms of [localValue]. *)
Lemma Stringify_local scriptContext stack args value :
  argument args 1 = Some value ->
  Stringify scriptContext (S stack) args
  = match localValue scriptContext args value with
    | None =>
        match value with
        | VObject o =>
            match invokeRemotely (GetObject scriptContext o) args with
            | Some result => Normal result
            | None => Normal VUndefined
            end
        | _ => Normal VUndefined
        end
    | Some value' =>
        let initialized : Completion StringifySession :=
          match argument args 2 with
          | Some replacerArg =>
              if IsArray scriptContext replacerArg then
                match Stringify_nameTable scriptContext replacerArg with
                | Normal (nameTable, tableLen) =>
                    Normal (InitReplacer_array nameTable tableLen StringifySession_new)
                | Throw e => Throw e
                end
              else if IsCallable scriptContext replacerArg then
                Normal (InitReplacer_function replacerArg StringifySession_new)
              else Normal StringifySession_new
          | None => Normal StringifySession_new
          end in
        match initialized with
        | Throw e => Throw e
        | Normal stringifySession =>
            let space := match argument args 3 with Some space => space | None => VNull end in
            let '(wrapper, context) :=
              CreateWrapper scriptContext (PropertyIdOfName "") value' in
            fst (Str context (StrHelper context stack) "" (PropertyIdOfName "")
                   (VObject wrapper) (Some value')
                   (CompleteInit scriptContext space stringifySession))
        end
    end.
Proof.
  intros Hv. unfold Stringify, localValue. rewrite Hv.
  destruct value; try reflexivity.
  destruct (typeId (GetObject scriptContext o)); try reflexivity.
  destruct (remoteObject (GetObject scriptContext o)); [reflexivity |].
  destruct (invokeRemotely (GetObject scriptContext o) args); reflexivity.
Qed.

(** X4. What the serializer gives back. [StrHelper], at any depth and for
    any value, returns undefined or a string when it returns;
    [StringifyObject] and [StringifyArray] return a string; and a call of
    [Stringify] that returns gives undefined or a string, unless the call
    was handed to a remote object, whose result it is. *)
Theorem Stringify_returns_text scriptContext :
  (forall stack key value holder s v s',
      StrHelper scriptContext stack key value holder s = (Normal v, s') -> isText v)
  /\ (forall rec value s v s',
      StringifyObject scriptContext rec value s = (Normal v, s') -> isString v)
  /\ (forall rec value s v s',
      StringifyArray scriptContext rec value s = (Normal v, s') -> isString v)
  /\ (forall stack args v,
      Stringify scriptContext stack args = Normal v ->
      isText v
      \/ exists value, argument args 1 = Some value
                       /\ localValue scriptContext args value = None).
Proof.
  split; [| split; [| split]].
  - intros stack key value holder s v s' H. exact (StrHelper_returns_text _ _ _ _ _ _ _ _ H).
  - intros rec value s v s' H. exact (StringifyObject_returns_string _ _ _ _ _ _ H).
  - intros rec value s v s' H. exact (StringifyArray_returns_string _ _ _ _ _ _ H).
  - intros stack args v H.
    destruct stack as [| stack]; [discriminate H |].
    destruct (argument args 1) as [value |] eqn:Hv.
    2: { unfold Stringify in H. rewrite Hv in H. inversion H. left. left. reflexivity. }
    rewrite (Stringify_local _ _ _ _ Hv) in H.
    destruct (localValue scriptContext args value) as [value' |] eqn:Hl;
      [| right; exists value; auto].
    left. cbv zeta in H.
    match type of H with
    | match ?init with _ => _ end = _ => destruct init as [session | e]
    end; [| discriminate H].
    cbn [CreateWrapper] in H.
    match type of H with
    | fst (?m ?s0) = _ => destruct (m s0) as [r s'] eqn:E
    end.
    cbn [fst] in H. subst r. unfold Str in E.
    exact (StrHelper_returns_text _ _ _ _ _ _ _ _ E).
Qed.

(** The theorem at [{x: [undefined, 1], y: {a: 1, b: 2, c: 3}}]. *)
Lemma Stringify_returns_text_witness :
  isText (VString "[null,1]").
Proof.
  apply (proj1 (Stringify_returns_text sampleContext) 5%nat "" (VObject 1%nat) VUndefined
           StringifySession_new (VString "[null,1]") StringifySession_new).
  vm_compute. reflexivity.
Defined.

(** ** Invariants of the session and the exceptions thrown *)

Section Maintains.

Variable I : StringifySession -> Prop.
Variable E : Exception -> Prop.

Lemma maintains_ret {A : Type} (a : A) : maintains I E (ret a).
Proof. intros s r s' Hi H. inversion H; subst. split; [exact Hi | discriminate]. Qed.

Lemma maintains_gets {A : Type} (f : StringifySession -> A) : maintains I E (gets f).
Proof. intros s r s' Hi H. inversion H; subst. split; [exact Hi | discriminate]. Qed.

Lemma maintains_throw {A : Type} e : E e -> maintains I E (@throw A e).
Proof.
  intros He s r s' Hi H. inversion H; subst. split; [exact Hi |].
  intros e' H'. inversion H'; subst. exact He.
Qed.

Lemma maintains_modify f : (forall s, I s -> I (f s)) -> maintains I E (modify f).
Proof. intros Hf s r s' Hi H. inversion H; subst. split; [auto | discriminate]. Qed.

Lemma maintains_bind {A B : Type} (m : M A) (k : A -> M B) :
  maintains I E m -> (forall a, maintains I E (k a)) -> maintains I E (bind m k).
Proof.
  intros Hm Hk s r s' Hi H.
  apply bind_inv in H as [(e & Hs & ->) | (a & s1 & Hs & Hka)].
  - destruct (Hm _ _ _ Hi Hs) as (Hi' & He). split; [exact Hi' |].
    intros e' H'. inversion H'; subst. apply He. reflexivity.
  - destruct (Hm _ _ _ Hi Hs) as (Hi1 & _). exact (Hk a _ _ _ Hi1 Hka).
Qed.

(** A read of the session followed by what depends on it, judged at the
    session read. *)
Lemma maintains_gets_bind {A B : Type} (f : StringifySession -> A) (k : A -> M B) :
  (forall s r s', I s -> k (f s) s = (r, s') -> I s' /\ (forall e, r = Throw e -> E e)) ->
  maintains I E (bind (gets f) k).
Proof. intros Hk s r s' Hi H. exact (Hk s r s' Hi H). Qed.

Lemma maintains_foreach {A S : Type} (l : list A) (body : A -> S -> M S) :
  (forall a acc, maintains I E (body a acc)) -> forall acc, maintains I E (foreach l body acc).
Proof.
  intros Hbody. induction l as [| a l IH]; intros acc; cbn [foreach].
  - apply maintains_ret.
  - apply maintains_bind; auto.
Qed.

Variable scriptContext : ScriptContext.

Hypothesis I_indent : forall s i, I s -> I (set_indent i s).
Hypothesis I_separator :
  forall s, I s -> I (set_propertySeparator (Some (separatorFor (gap s))) s).
Hypothesis I_push :
  forall s o b,
    I s -> Has (VObject o) b (objectStack s) = false ->
    I (set_objectStack (Push (VObject o) b (objectStack s)) s).
Hypothesis I_pop :
  forall s o b s0,
    I s -> I s0 -> objectStack s0 = Push (VObject o) b (objectStack s) ->
    I (set_objectStack (Pop b (objectStack s0)) s0).
Hypothesis E_circular : E (TypeError JSERR_JSONSerializeCircular).
Hypothesis E_range : E (RangeError JSERR_OutOfBoundString).
Hypothesis E_hook :
  forall key value e, Get_ToJSON scriptContext key value = Throw e -> E e.
Hypothesis E_replacer :
  forall s func args e,
    I s -> replacer s = ReplacerFunction func ->
    CallFunction scriptContext func args = Throw e -> E e.

Variable rec : JavascriptString -> Var -> Var -> M Var.
Hypothesis rec_maintains : forall key value holder, maintains I E (rec key value holder).
Hypothesis rec_keeps : forall key value holder, keeps (rec key value holder).

(** Goals [maintains I E m] are solved along the structure of [m]. *)
Ltac maintains_step :=
  match goal with
  | |- maintains _ _ (bind _ _) => apply maintains_bind; [| intros ?]
  | |- maintains _ _ (ret _) => apply maintains_ret
  | |- maintains _ _ (throw _) => apply maintains_throw; assumption
  | |- maintains _ _ (gets _) => apply maintains_gets
  | |- maintains _ _ (modify (set_indent _)) =>
      apply maintains_modify; intros ? ?; apply I_indent; assumption
  | |- maintains _ _ (foreach _ _ _) => apply maintains_foreach; intros ? ?
  | |- maintains _ _ (rec _ _ _) => apply rec_maintains
  | |- maintains _ _ (if ?b then _ else _) => destruct b
  | |- maintains _ _ (match ?x with _ => _ end) => destruct x
  end.

Lemma GetPropertySeparator_maintains : maintains I E GetPropertySeparator.
Proof.
  unfold GetPropertySeparator. apply maintains_gets_bind. intros s r s' Hi H.
  destruct (propertySeparator s).
  - inversion H; subst. split; [exact Hi | discriminate].
  - inversion H; subst. split; [apply I_separator; exact Hi | discriminate].
Qed.

Lemma StrHelper_prepare_maintains key value holder :
  maintains I E (StrHelper_prepare scriptContext key value holder).
Proof.
  unfold StrHelper_prepare. apply maintains_bind.
  - destruct (_ || _); [| apply maintains_ret].
    apply maintains_bind; [| intros; apply maintains_ret].
    intros s r s' Hi H. inversion H; subst. split; [exact Hi |].
    intros e He. exact (E_hook _ _ _ He).
  - intros hooked. apply maintains_gets_bind. intros s r s' Hi H.
    assert (Htail : forall v, maintains I E
              (let id := GetTypeId scriptContext v in
               if TypeId_eqb TypeIds_NumberObject id
               then ret (VNumber (ToNumber scriptContext v))
               else if TypeId_eqb TypeIds_StringObject id
               then ret (VString (ToString scriptContext v))
               else if TypeId_eqb TypeIds_BooleanObject id
               then ret (VBoolean (JavascriptBooleanObject_GetValue scriptContext v))
               else ret v)).
    { intros v. cbv zeta. repeat maintains_step. }
    destruct (replacer s) as [| func | names len] eqn:Hr;
      try exact (maintains_bind _ _ (maintains_ret hooked) Htail _ _ _ Hi H).
    refine (maintains_bind _ _ _ Htail _ _ _ Hi H).
    intros s0 r0 s0' Hi0 H0. inversion H0; subst. split; [exact Hi0 |].
    intros e He. exact (E_replacer _ _ _ _ Hi Hr He).
Qed.

Lemma StringifyMemberObject_maintains propertyName id value st propertyValue :
  maintains I E (StringifyMemberObject scriptContext rec propertyName id value st
                   propertyValue).
Proof.
  pose proof GetPropertySeparator_maintains as HS.
  unfold StringifyMemberObject, Str, GetIndentString, GetMemberSeparator.
  repeat first [ apply HS | maintains_step ].
Qed.

Lemma StringifyObject_indexed_maintains value isDynamicObject names :
  forall propertyCount st,
    maintains I E (StringifyObject_indexed scriptContext rec value isDynamicObject names
                     propertyCount st).
Proof.
  induction names as [| propertyName rest IH]; intros propertyCount st;
    cbn [StringifyObject_indexed].
  - apply maintains_ret.
  - destruct (propertyCount >? 0); [| apply maintains_ret].
    destruct (isDynamicObject && _); [apply maintains_ret |].
    apply maintains_bind; [apply StringifyMemberObject_maintains | intros; apply IH].
Qed.

Lemma StringifyObject_named_maintains value dynamicObject entry st :
  maintains I E (StringifyObject_named scriptContext rec value dynamicObject entry st).
Proof.
  unfold StringifyObject_named.
  destruct (entryId entry); try apply maintains_ret;
    (destruct (lookupEntry _ _); [| apply maintains_ret];
     destruct (negb (entryEnumerable _)); [apply maintains_ret |];
     destruct (negb (IsSymbol _)); [| apply maintains_ret];
     apply StringifyMemberObject_maintains).
Qed.

Lemma StringifyObject_maintains value :
  maintains I E (StringifyObject scriptContext rec value).
Proof.
  pose proof StringifyMemberObject_maintains as HM.
  pose proof StringifyObject_indexed_maintains as HI.
  pose proof StringifyObject_named_maintains as HN.
  unfold StringifyObject, StringifyObject_members, GetIndentString.
  repeat first [ apply HM | apply HI | apply HN | maintains_step ].
Qed.

Lemma StringifyArray_maintains value :
  maintains I E (StringifyArray scriptContext rec value).
Proof.
  unfold StringifyArray, GetArrayElementString, Str_index, GetIndentString,
    GetMemberSeparator.
  repeat maintains_step.
Qed.

Lemma StrHelper_dispatch_maintains value :
  maintains I E (StrHelper_dispatch scriptContext rec value).
Proof.
  assert (Hframe : forall o b (body : M Var),
             maintains I E body -> keeps body ->
             maintains I E
               (has <- gets (fun s => Has (VObject o) b (objectStack s)) ;;
                if has then throw (TypeError JSERR_JSONSerializeCircular)
                else
                  modify (fun s => set_objectStack (Push (VObject o) b (objectStack s)) s) ;;;
                  r <- body ;;
                  modify (fun s => set_objectStack (Pop b (objectStack s)) s) ;;;
                  ret r)).
  { intros o b body Hbody Hkeeps. apply maintains_gets_bind. intros s r s' Hi H.
    destruct (Has (VObject o) b (objectStack s)) eqn:Hhas.
    - exact (maintains_throw _ E_circular _ _ _ Hi H).
    - unfold bind at 1, modify at 1 in H. unfold bind at 1 in H.
      destruct (body (set_objectStack (Push (VObject o) b (objectStack s)) s))
        as [[r0 | e] s0] eqn:Hrun.
      + destruct (Hbody _ _ _ (I_push _ _ _ Hi Hhas) Hrun) as (Hi0 & _).
        destruct (Hkeeps _ _ _ Hrun) as (_ & _ & Hn).
        destruct (Hn r0 eq_refl) as (Hstack & _).
        unfold bind, modify, ret in H. inversion H; subst.
        split; [exact (I_pop _ _ _ _ Hi Hi0 Hstack) | discriminate].
      + destruct (Hbody _ _ _ (I_push _ _ _ Hi Hhas) Hrun) as (Hi0 & He).
        inversion H; subst. split; [exact Hi0 |].
        intros e0 H0. inversion H0; subst. apply He. reflexivity. }
  unfold StrHelper_dispatch.
  destruct value; cbn [GetTypeId]; try apply maintains_ret;
    try (destruct (IsFinite _); apply maintains_ret).
  destruct (typeId (GetObject scriptContext o)) eqn:Ht;
    (destruct (IsJsNativeObject scriptContext (VObject o));
     [ destruct (negb _); [| apply maintains_ret];
       destruct (IsArray scriptContext (VObject o));
       apply Hframe;
       first [ apply StringifyArray_maintains | apply StringifyObject_maintains
             | apply StringifyArray_keeps; exact rec_keeps
             | apply StringifyObject_keeps; exact rec_keeps ]
     | cbn [IsObject]; apply Hframe;
       [apply StringifyObject_maintains | apply StringifyObject_keeps; exact rec_keeps] ]).
Qed.

Lemma StrHelper_body_maintains key value holder :
  maintains I E (StrHelper_body scriptContext rec key value holder).
Proof.
  unfold StrHelper_body. apply maintains_bind;
    [apply StrHelper_prepare_maintains | intros; apply StrHelper_dispatch_maintains].
Qed.

End Maintains.

(** [StrHelper] maintains every property of the session that the
    assignments to the depth, to the cached separator and to the cycle stack
    maintain, and throws only what the stack probe, the two errors of the
    serializer, the hooks and the replacer function throw. *)
Lemma StrHelper_maintains (I : StringifySession -> Prop) (E : Exception -> Prop)
  scriptContext :
  (forall s i, I s -> I (set_indent i s)) ->
  (forall s, I s -> I (set_propertySeparator (Some (separatorFor (gap s))) s)) ->
  (forall s o b,
      I s -> Has (VObject o) b (objectStack s) = false ->
      I (set_objectStack (Push (VObject o) b (objectStack s)) s)) ->
  (forall s o b s0,
      I s -> I s0 -> objectStack s0 = Push (VObject o) b (objectStack s) ->
      I (set_objectStack (Pop b (objectStack s0)) s0)) ->
  E (TypeError JSERR_JSONSerializeCircular) ->
  E (RangeError JSERR_OutOfBoundString) ->
  E StackOverflow ->
  (forall key value e, Get_ToJSON scriptContext key value = Throw e -> E e) ->
  (forall s func args e,
      I s -> replacer s = ReplacerFunction func ->
      CallFunction scriptContext func args = Throw e -> E e) ->
  forall stack key value holder,
    maintains I E (StrHelper scriptContext stack key value holder).
Proof.
  intros H1 H2 H3 H4 H5 H6 H7 H8 H9.
  induction stack as [| stack IH]; intros key value holder; cbn [StrHelper].
  - apply maintains_throw. exact H7.
  - apply StrHelper_body_maintains; try assumption.
    intros key0 value0 holder0. apply StrHelper_keeps.
Qed.

(** *** The cycle stack *)

Lemma existsb_SameObject_In o stack :
  existsb (SameObject (VObject o)) stack = false -> ~ In (VObject o) stack.
Proof.
  induction stack as [| x stack IH]; cbn [existsb In]; [tauto |].
  intros H. apply orb_false_iff in H as [Hx Hrest].
  intros [-> | Hin].
  - cbn [SameObject] in Hx. rewrite Nat.eqb_refl in Hx. discriminate.
  - exact (IH Hrest Hin).
Qed.

Lemma NoDup_tl {A : Type} (l : list A) : NoDup l -> NoDup (tl l).
Proof. intros H. destruct l; [exact H | inversion H; assumption]. Qed.

(** X6. [StrHelper] never has an identity twice on the cycle stack: when
    no identity is twice on it at the call, none is when the call returns
    and none is at the point where an exception leaves it. *)
Theorem cycle_stack_identities_stay_distinct
  scriptContext stack key value holder s r s' :
  distinctIdentities (objectStack s) ->
  StrHelper scriptContext stack key value holder s = (r, s') ->
  distinctIdentities (objectStack s').
Proof.
  intros Hd H.
  refine (proj1 (StrHelper_maintains (fun s => distinctIdentities (objectStack s))
                   (fun _ => True) scriptContext _ _ _ _ _ _ _ _ _
                   stack key value holder s r s' Hd H)); auto.
  - intros s0 o b [Hjs Hdom] Hhas. unfold Has in Hhas.
    destruct b; cbn; split; auto; constructor; auto;
      apply existsb_SameObject_In; exact Hhas.
  - intros s0 o b s1 _ [Hjs Hdom] _.
    destruct b; cbn; split; auto; apply NoDup_tl; assumption.
Qed.

Lemma cycle_stack_identities_stay_distinct_witness :
  distinctIdentities
    (objectStack
       (snd (StrHelper sampleContext 10 "" (VObject 2%nat) VUndefined
               StringifySession_new))).
Proof.
  apply (cycle_stack_identities_stay_distinct sampleContext 10 "" (VObject 2%nat)
           VUndefined StringifySession_new (Throw (TypeError JSERR_JSONSerializeCircular))).
  - split; constructor.
  - vm_compute. reflexivity.
Defined.

(** ** The text of an array and of an object *)

Lemma keeps_collect {A B : Type} (f : A -> M B) (l : list A) :
  (forall a, keeps (f a)) -> keeps (collect f l).
Proof.
  intros Hf. induction l as [| a l IH]; cbn [collect].
  - apply keeps_ret.
  - apply keeps_bind; [apply Hf | intros b].
    apply keeps_bind; [exact IH | intros; apply keeps_ret].
Qed.

Lemma length_collect {A B : Type} (f : A -> M B) (l : list A) :
  forall s texts s', collect f l s = (Normal texts, s') -> List.length texts = List.length l.
Proof.
  induction l as [| a l IH]; intros s texts s' H; cbn [collect] in H.
  - inversion H; subst. reflexivity.
  - unfold bind at 1 in H. destruct (f a s) as [[b | e] s1]; [| discriminate].
    unfold bind at 1 in H. destruct (collect f l s1) as [[bs | e] s2] eqn:Hrest;
      [| discriminate].
    inversion H; subst. cbn [List.length]. f_equal. exact (IH _ _ _ Hrest).
Qed.

Lemma concat_tails sep texts : forall x,
  String.concat sep (x :: texts) = x ++ tails sep texts.
Proof.
  induction texts as [| y texts IH]; intros x.
  - cbn. symmetry. apply append_nil_r.
  - change (String.concat sep (x :: y :: texts))
      with (x ++ sep ++ String.concat sep (y :: texts)).
    rewrite IH. reflexivity.
Qed.

Lemma fold_arrayStep sep texts : forall res,
  fold_left (arrayStep sep) texts (res, false) = (res ++ tails sep texts, false).
Proof.
  induction texts as [| x texts IH]; intros res; cbn [fold_left tails].
  - rewrite append_nil_r. reflexivity.
  - unfold arrayStep at 2. cbn [fst snd negb]. rewrite IH.
    rewrite !append_assoc. reflexivity.
Qed.

Lemma fold_arrayStep_first sep x texts :
  fst (fold_left (arrayStep sep) (x :: texts) ("", true)) = String.concat sep (x :: texts).
Proof.
  cbn [fold_left]. unfold arrayStep at 2. cbn [fst snd negb].
  rewrite fold_arrayStep, concat_tails. reflexivity.
Qed.

Lemma foreach_collect_array {A : Type} (f : A -> M JavascriptString) memberSeparator
  (l : list A) :
  forall acc s,
    foreach l
      (fun k (acc : JavascriptString * bool) =>
         let '(res, isFirstMember) := acc in
         let res := if negb isFirstMember then res ++ memberSeparator else res in
         arrayElementString <- f k ;;
         ret (res ++ arrayElementString, false))
      acc s
    = match collect f l s with
      | (Normal texts, s') => (Normal (fold_left (arrayStep memberSeparator) texts acc), s')
      | (Throw e, s') => (Throw e, s')
      end.
Proof.
  induction l as [| a l IH]; intros [res isFirstMember] s; cbn [foreach collect].
  - reflexivity.
  - unfold bind at 1. unfold bind at 1. unfold bind at 2.
    destruct (f a s) as [[text | e] s1]; [| reflexivity].
    unfold ret at 1. rewrite IH. unfold bind at 1.
    destruct (collect f l s1) as [[texts | e] s2]; reflexivity.
Qed.

Lemma bind_run {A B : Type} (m : M A) (k : A -> M B) s :
  bind m k s = match m s with
               | (Normal a, s') => k a s'
               | (Throw e, s') => (Throw e, s')
               end.
Proof. reflexivity. Qed.

Section ArrayText.

Variable scriptContext : ScriptContext.
Variable rec : JavascriptString -> Var -> Var -> M Var.
Hypothesis rec_keeps : forall key value holder, keeps (rec key value holder).

Lemma StringifyArray_collect value s :
  StringifyArray scriptContext rec value s
  = let s1 := set_indent (uint32_wrap (indent s + 1)) s in
    match arrayLikeLength scriptContext value with
    | None => (Throw (RangeError JSERR_OutOfBoundString), s1)
    | Some length =>
        match collect (fun k => GetArrayElementString scriptContext rec k value)
                (indices length) s1 with
        | (Normal texts, s') =>
            (Normal (VString (enclosed "[" "]" (gap s) (indent s) texts)),
             set_indent (indent s) s')
        | (Throw e, s') => (Throw e, s')
        end
    end.
Proof.
  cbv zeta. set (s1 := set_indent (uint32_wrap (indent s + 1)) s).
  assert (Hlen :
            (if JavascriptArray_Is scriptContext value
             then ret (JavascriptArray_GetLength scriptContext value)
             else
               let len := ToLength scriptContext (OP_GetLength scriptContext value) in
               if MaxCharCount <=? len
               then throw (RangeError JSERR_OutOfBoundString)
               else ret (uint32_wrap len)) s1
            = match arrayLikeLength scriptContext value with
              | Some length => (Normal length, s1)
              | None => (Throw (RangeError JSERR_OutOfBoundString), s1)
              end
            /\ forall length, arrayLikeLength scriptContext value = Some length -> 0 <= length).
  { unfold arrayLikeLength. destruct (JavascriptArray_Is scriptContext value).
    - split; [reflexivity |]. intros length H. inversion H; subst.
      unfold JavascriptArray_GetLength. destruct value; try lia.
      apply uint32_wrap_range.
    - cbv zeta. destruct (MaxCharCount <=? _); split; try reflexivity; try discriminate.
      intros length H. inversion H; subst. apply uint32_wrap_range. }
  destruct Hlen as (Hlen & Hpos).
  unfold StringifyArray. unfold bind at 1. unfold gets at 1.
  unfold bind at 1. unfold modify at 1. fold s1.
  unfold bind at 1. cbv zeta in Hlen. rewrite Hlen.
  destruct (arrayLikeLength scriptContext value) as [length |]; [| reflexivity].
  specialize (Hpos length eq_refl).
  pose proof (keeps_collect (fun k => GetArrayElementString scriptContext rec k value)
                (indices length)
                (fun k => GetArrayElementString_keeps scriptContext rec rec_keeps k value))
    as Hkeeps.
  pose proof (length_collect (fun k => GetArrayElementString scriptContext rec k value)
                (indices length)) as Hlength.
  rewrite bind_run.
  destruct (length =? 0) eqn:H0.
  - apply Z.eqb_eq in H0. subst length. reflexivity.
  - apply Z.eqb_neq in H0. rewrite bind_run.
    destruct (length =? 1) eqn:H1.
    + apply Z.eqb_eq in H1. subst length.
      change (indices 1) with [0]%list. cbn [collect].
      rewrite !bind_run.
      destruct (GetArrayElementString scriptContext rec 0 value s1)
        as [[element | e] s2] eqn:He; [| reflexivity].
      destruct (GetArrayElementString_keeps scriptContext rec rec_keeps _ _ _ _ _ He)
        as (Hg & _ & Hn).
      destruct (Hn _ eq_refl) as (_ & Hi).
      change (gap s2 = gap s) in Hg. change (indent s2 = uint32_wrap (indent s + 1)) in Hi.
      unfold bind, ret, gets, modify. rewrite Hg. unfold enclosed.
      destruct (gap s) as [g |] eqn:Hgs; [| reflexivity].
      cbv beta. rewrite GetIndentString_indentation, Hg, Hi, ?Hgs.
      rewrite GetIndentString_indentation, Hg, ?Hgs. reflexivity.
    + apply Z.eqb_neq in H1.
      unfold bind at 1. unfold gets at 1.
      unfold bind at 1. rewrite GetIndentString_indentation.
      unfold bind at 1. unfold GetMemberSeparator at 1. unfold bind at 1.
      unfold gets at 1. unfold ret at 1.
      unfold bind at 1.
      change (gap s1) with (gap s). change (indent s1) with (uint32_wrap (indent s + 1)).
      pose proof (foreach_collect_array
                    (fun k => GetArrayElementString scriptContext rec k value)
                    (match gap s with
                     | Some _ =>
                         Concat ("," ++ NEWLINE)
                           (indentation (gap s) (uint32_wrap (indent s + 1)))
                     | None => ","
                     end)
                    (indices length) ("", true) s1) as HF.
      match goal with
      | |- context [foreach ?l ?b ?a ?st] =>
          match type of HF with
          | _ = ?R =>
              let H := fresh in
              assert (H : foreach l b a st = R) by exact HF; rewrite H; clear H
          end
      end.
      clear HF.
      destruct (collect (fun k => GetArrayElementString scriptContext rec k value)
                  (indices length) s1) as [[texts | e] s2] eqn:Hc; [| reflexivity].
      destruct (Hkeeps _ _ _ Hc) as (Hg & _ & _). change (gap s2 = gap s) in Hg.
      specialize (Hlength _ _ _ Hc). rewrite length_indices in Hlength.
      destruct texts as [| x texts]; [cbn in Hlength; lia |].
      cbv beta iota. unfold ret at 1. cbv beta iota.
      rewrite fold_arrayStep_first.
      unfold bind, gets, ret, modify. rewrite Hg. unfold enclosed.
      destruct (gap s) as [g |] eqn:Hgs; [| reflexivity].
      cbv beta. rewrite GetIndentString_indentation, Hg, ?Hgs. reflexivity.
Qed.

End ArrayText.

(** X7. The text of an array is the texts of its elements, each serialized
    once in index order one level deeper, joined by commas between square
    brackets ([enclosed]); the first exception of an element ends the
    call, and an array-like whose length reaches [MaxCharCount] is refused
    before any element is read. The depth is put back on return. *)
Theorem StringifyArray_joins_elements scriptContext stack value s :
  StringifyArray scriptContext (StrHelper scriptContext stack) value s
  = let s1 := set_indent (uint32_wrap (indent s + 1)) s in
    match arrayLikeLength scriptContext value with
    | None => (Throw (RangeError JSERR_OutOfBoundString), s1)
    | Some length =>
        match collect (fun k =>
                         GetArrayElementString scriptContext (StrHelper scriptContext stack)
                           k value)
                (indices length) s1 with
        | (Normal texts, s') =>
            (Normal (VString (enclosed "[" "]" (gap s) (indent s) texts)),
             set_indent (indent s) s')
        | (Throw e, s') => (Throw e, s')
        end
    end.
Proof.
  apply StringifyArray_collect. intros key v holder. apply StrHelper_keeps.
Qed.

Lemma foreach_app {A S : Type} (body : A -> S -> M S) (l1 l2 : list A) :
  forall acc s,
    foreach (l1 ++ l2) body acc s
    = (acc' <- foreach l1 body acc ;; foreach l2 body acc') s.
Proof.
  induction l1 as [| a l1 IH]; intros acc s; [reflexivity |].
  cbn [app foreach]. unfold bind.
  destruct (body a acc s) as [[acc' | e] s']; [| reflexivity].
  rewrite IH. reflexivity.
Qed.

Section ObjectText.

Variable scriptContext : ScriptContext.
Variable rec : JavascriptString -> Var -> Var -> M Var.

Lemma StringifyObject_indexed_visits value isDynamicObject names :
  forall propertyCount st s,
    StringifyObject_indexed scriptContext rec value isDynamicObject names propertyCount st s
    = foreach (map memberOfName
                 (indexedNames isDynamicObject (firstn (Z.to_nat propertyCount) names)))
        (visit scriptContext rec value) st s.
Proof.
  induction names as [| propertyName rest IH]; intros propertyCount st s;
    cbn [StringifyObject_indexed].
  - rewrite firstn_nil. reflexivity.
  - destruct (propertyCount >? 0) eqn:Hc.
    + apply Z.gtb_lt in Hc.
      replace (Z.to_nat propertyCount) with (S (Z.to_nat (propertyCount - 1))) by lia.
      cbn [firstn indexedNames].
      destruct (isDynamicObject && negb (IsNumeric (GetOrAddPropertyRecord propertyName)));
        [reflexivity |].
      cbn [map foreach]. unfold bind.
      change (visit scriptContext rec value (memberOfName propertyName) st s)
        with (StringifyMemberObject scriptContext rec propertyName
                (GetPropertyId (GetOrAddPropertyRecord propertyName)) value st None s).
      destruct (StringifyMemberObject scriptContext rec propertyName
                  (GetPropertyId (GetOrAddPropertyRecord propertyName)) value st None s)
        as [[st' | e] s']; [apply IH | reflexivity].
    + assert (Hz : Z.to_nat propertyCount = 0%nat).
      { destruct (Z.gtb_spec propertyCount 0); [discriminate | lia]. }
      rewrite Hz. reflexivity.
Qed.

Lemma StringifyObject_named_visits value dynamicObject entry st :
  StringifyObject_named scriptContext rec value dynamicObject entry st
  = match namedMember dynamicObject entry with
    | Some m => visit scriptContext rec value m st
    | None => ret st
    end.
Proof.
  unfold StringifyObject_named, namedMember.
  destruct (entryId entry); try reflexivity;
    (destruct (lookupEntry _ _) as [found |]; [| reflexivity];
     destruct (negb (entryEnumerable found)); [reflexivity |];
     destruct (negb (IsSymbol _)); reflexivity).
Qed.

Lemma foreach_named_visits value dynamicObject entries :
  forall st s,
    foreach entries (StringifyObject_named scriptContext rec value dynamicObject) st s
    = foreach (present (map (namedMember dynamicObject) entries)) (visit scriptContext rec value) st s.
Proof.
  induction entries as [| entry entries IH]; intros st s; [reflexivity |].
  cbn [map foreach]. unfold present. cbn [flat_map]. fold (@present Member).
  rewrite StringifyObject_named_visits.
  destruct (namedMember dynamicObject entry) as [m |].
  - cbn [app foreach]. unfold bind.
    destruct (visit scriptContext rec value m st s) as [[st' | e] s']; [apply IH | reflexivity].
  - cbn [app]. unfold bind, ret. apply IH.
Qed.

Lemma foreach_filter_visits value (keep : JavascriptString -> option bool) keys :
  forall st s,
    foreach keys
      (fun propertyName st =>
         match keep propertyName with
         | Some true => visit scriptContext rec value (memberOfName propertyName) st
         | _ => ret st
         end) st s
    = foreach (map memberOfName
                 (filter (fun propertyName =>
                            match keep propertyName with
                            | Some true => true
                            | _ => false
                            end) keys))
        (visit scriptContext rec value) st s.
Proof.
  induction keys as [| key keys IH]; intros st s; [reflexivity |].
  cbn [foreach filter]. destruct (keep key) as [[|] |].
  - cbn [map foreach]. unfold bind.
    destruct (visit scriptContext rec value (memberOfName key) st s) as [[st' | e] s'];
      [apply IH | reflexivity].
  - unfold bind, ret. apply IH.
  - unfold bind, ret. apply IH.
Qed.

(** The member loops of [StringifyObject] visit the members of [members],
    in that order. *)
Lemma StringifyObject_members_visits value s :
  StringifyObject_members scriptContext rec value s
  = foreach (members scriptContext (replacer s) value) (visit scriptContext rec value)
      (mkMemberState "" None None true true) s.
Proof.
  unfold StringifyObject_members. unfold bind at 1. unfold gets at 1.
  unfold members. destruct value; try reflexivity.
  assert (Hother :
            forall r,
              (if JavascriptProxy_Is scriptContext (VObject o) then
                 foreach (propertyKeysTrap (GetObject scriptContext o))
                   (fun propertyName st =>
                      let id := GetPropertyId (GetOrAddPropertyRecord propertyName) in
                      match GetOwnPropertyDescriptor scriptContext o id with
                      | Some true =>
                          StringifyMemberObject scriptContext rec propertyName id
                            (VObject o) st None
                      | _ => ret st
                      end)
                   (mkMemberState "" None None true true)
               else
                 match enumerator (GetObject scriptContext o) with
                 | Some names =>
                     let isDynamicObject := isDynamicObject (GetObject scriptContext o) in
                     let hasObjectArray :=
                       isDynamicObject
                       && match objectArray (GetObject scriptContext o) with
                          | Some _ => true
                          | None => false
                          end in
                     let repFunctionIsReplacerType :=
                       match r with ReplacerFunction _ => true | _ => false end in
                     let requiresStoringNames :=
                       repFunctionIsReplacerType && (negb isDynamicObject || hasObjectArray) in
                     if negb requiresStoringNames then
                       st <- (if negb isDynamicObject || hasObjectArray then
                                let propertyCount := GetPropertyCount names in
                                StringifyObject_indexed scriptContext rec (VObject o)
                                  isDynamicObject names propertyCount
                                  (mkMemberState "" None None true true)
                              else ret (mkMemberState "" None None true true)) ;;
                       if isDynamicObject then
                         foreach (typeHandler (GetObject scriptContext o))
                           (StringifyObject_named scriptContext rec (VObject o)
                              (GetObject scriptContext o)) st
                       else ret st
                     else
                       let precisePropertyCount := GetPropertyCount names in
                       if precisePropertyCount >? 0 then
                         let nameTable := firstn (Z.to_nat precisePropertyCount) names in
                         foreach nameTable
                           (fun propertyName st =>
                              let id :=
                                GetPropertyId (GetOrAddPropertyRecord propertyName) in
                              StringifyMemberObject scriptContext rec propertyName id
                                (VObject o) st None)
                           (mkMemberState "" None None true true)
                       else ret (mkMemberState "" None None true true)
                 | None => ret (mkMemberState "" None None true true)
                 end) s
              = foreach
                  (if JavascriptProxy_Is scriptContext (VObject o) then
                     map memberOfName
                       (filter (fun propertyName =>
                                  match GetOwnPropertyDescriptor scriptContext o
                                          (GetPropertyId
                                             (GetOrAddPropertyRecord propertyName)) with
                                  | Some true => true
                                  | _ => false
                                  end)
                               (propertyKeysTrap (GetObject scriptContext o)))
                   else
                     match enumerator (GetObject scriptContext o) with
                     | Some names =>
                         let isDynamicObject :=
                           isDynamicObject (GetObject scriptContext o) in
                         let hasObjectArray :=
                           isDynamicObject
                           && match objectArray (GetObject scriptContext o) with
                              | Some _ => true
                              | None => false
                              end in
                         let repFunctionIsReplacerType :=
                           match r with ReplacerFunction _ => true | _ => false end in
                         let requiresStoringNames :=
                           repFunctionIsReplacerType
                           && (negb isDynamicObject || hasObjectArray) in
                         let propertyCount := Z.to_nat (GetPropertyCount names) in
                         if negb requiresStoringNames then
                           (if negb isDynamicObject || hasObjectArray
                            then map memberOfName
                                   (indexedNames isDynamicObject
                                      (firstn propertyCount names))
                            else nil)
                           ++ (if isDynamicObject
                               then present (map (namedMember (GetObject scriptContext o))
                                               (typeHandler (GetObject scriptContext o)))
                               else nil)
                         else map memberOfName (firstn propertyCount names)
                     | None => nil
                     end)%list
                  (visit scriptContext rec (VObject o)) (mkMemberState "" None None true true) s).
  { intros r. destruct (JavascriptProxy_Is scriptContext (VObject o)).
    - cbv zeta.
      exact (foreach_filter_visits (VObject o)
               (fun propertyName =>
                  GetOwnPropertyDescriptor scriptContext o
                    (GetPropertyId (GetOrAddPropertyRecord propertyName)))
               _ _ s).
    - destruct (enumerator (GetObject scriptContext o)) as [names |]; [| reflexivity].
      cbv zeta.
      destruct (negb _) eqn:Hstore.
      + rewrite foreach_app. unfold bind.
        destruct (negb (isDynamicObject (GetObject scriptContext o)) || _).
        * rewrite StringifyObject_indexed_visits.
          destruct (foreach _ (visit scriptContext rec (VObject o)) _ s) as [[st | e] s']; [| reflexivity].
          destruct (isDynamicObject (GetObject scriptContext o));
            [apply foreach_named_visits | reflexivity].
        * cbn [foreach]. unfold ret at 1 3.
          destruct (isDynamicObject (GetObject scriptContext o));
            [apply foreach_named_visits | reflexivity].
      + destruct (GetPropertyCount names >? 0) eqn:Hc.
        * rewrite foreach_map. reflexivity.
        * assert (Hz : Z.to_nat (GetPropertyCount names) = 0%nat).
          { destruct (Z.gtb_spec (GetPropertyCount names) 0); [discriminate | lia]. }
          rewrite Hz. reflexivity. }
  destruct (replacer s) as [| func | propertyNames length].
  - apply (Hother ReplacerNone).
  - apply (Hother (ReplacerFunction func)).
  - rewrite foreach_map. reflexivity.
Qed.

End ObjectText.

Lemma concat_snoc sep texts x :
  String.concat sep (texts ++ [x])%list
  = match texts with
    | nil => x
    | _ => String.concat sep texts ++ sep ++ x
    end.
Proof.
  induction texts as [| y texts IH]; [reflexivity |].
  destruct texts as [| z texts]; [reflexivity |].
  change (String.concat sep ((y :: z :: texts) ++ [x])%list)
    with (y ++ sep ++ String.concat sep ((z :: texts) ++ [x])%list).
  rewrite IH.
  change (String.concat sep (y :: z :: texts))
    with (y ++ sep ++ String.concat sep (z :: texts)).
  rewrite !append_assoc. reflexivity.
Qed.

Lemma GetPropertySeparator_returns s :
  exists separator s', GetPropertySeparator s = (Normal separator, s').
Proof.
  unfold GetPropertySeparator, bind, gets, modify, ret.
  destruct (propertySeparator s); eexists; eexists; reflexivity.
Qed.

Lemma present_cons {A : Type} (x : option A) l :
  present (x :: l) = (present [x] ++ present l)%list.
Proof. unfold present. cbn [flat_map]. rewrite app_nil_r. reflexivity. Qed.

Section ObjectJoin.

Variable scriptContext : ScriptContext.
Variable rec : JavascriptString -> Var -> Var -> M Var.
Hypothesis rec_keeps : forall key value holder, keeps (rec key value holder).

Lemma visit_memberText value m st texts s :
  joinedSoFar (gap s) (indent s) st texts ->
  match memberText scriptContext rec value m s, visit scriptContext rec value m st s with
  | (Normal text, s1), (Normal st', s2) =>
      s1 = s2 /\ joinedSoFar (gap s) (indent s) st' (texts ++ present [text])%list
  | (Throw e1, s1), (Throw e2, s2) => e1 = e2 /\ s1 = s2
  | _, _ => False
  end.
Proof.
  intros (Hempty & Hfirst & Hresult & Hcache).
  destruct (memberText scriptContext rec value m s) as [r1 s1'] eqn:H1.
  destruct (visit scriptContext rec value m st s) as [r2 s2'] eqn:H2.
  unfold memberText in H1. unfold visit, StringifyMemberObject in H2.
  unfold bind at 1 in H1. unfold bind at 1 in H2.
  destruct (Str scriptContext rec (memberName m) (memberId m) value (memberValue m) s)
    as [[v | e] s1] eqn:HS;
    [| inversion H1; inversion H2; subst; split; reflexivity].
  destruct (Str_keeps scriptContext rec rec_keeps _ _ _ _ _ _ _ HS) as (Hg & _ & Hn).
  destruct (Hn _ eq_refl) as (_ & Hi).
  destruct (negb (IsUndefinedObject v)).
  - destruct (GetPropertySeparator_returns s1) as (separator & s2 & Hsep).
    unfold bind at 1 in H1. rewrite Hsep in H1. unfold ret at 1 in H1.
    unfold bind at 1 in H2.
    assert (Hst :
              exists st1,
                (if negb (isFirstMember st) then
                   match indentString st with
                   | None =>
                       ind <- gets indent ;;
                       indentString' <- GetIndentString ind ;;
                       memberSeparator' <- GetMemberSeparator indentString' ;;
                       ret (mkMemberState (result st) (Some indentString')
                              (Some memberSeparator') (isFirstMember st) (isEmpty st))
                   | Some _ => ret st
                   end
                 else ret st) s1 = (Normal st1, s1)
                /\ result st1 = result st
                /\ isFirstMember st1 = isFirstMember st
                /\ (isFirstMember st = false ->
                    memberSeparator st1 = Some (memberSeparatorFor (gap s) (indent s)))
                /\ ((indentString st1 = None /\ memberSeparator st1 = None)
                    \/ (indentString st1 = Some (indentation (gap s) (indent s))
                        /\ memberSeparator st1
                           = Some (memberSeparatorFor (gap s) (indent s))))).
    { destruct (isFirstMember st) eqn:Hf; cbn [negb].
      - exists st. repeat split; auto. discriminate.
      - destruct Hcache as [(Hin & Hms) | (Hin & Hms)]; rewrite Hin.
        + eexists. split.
          * unfold bind at 1. unfold gets at 1. unfold bind at 1.
            rewrite GetIndentString_indentation. unfold bind at 1.
            unfold GetMemberSeparator, bind, gets, ret. reflexivity.
          * cbn [result isFirstMember memberSeparator indentString].
            rewrite Hg, Hi. unfold memberSeparatorFor.
            repeat split; auto.
        + exists st. repeat split; auto. }
    destruct Hst as (st1 & Hrun & Hr1 & Hf1 & Hsep1 & Hcache1).
    rewrite Hrun in H2. unfold bind at 1 in H2. rewrite Hsep in H2. unfold ret at 1 in H2.
    inversion H1; inversion H2; subst. clear H1 H2.
    split; [reflexivity |].
    unfold joinedSoFar.
    cbn [isEmpty isFirstMember result indentString memberSeparator present flat_map app].
    rewrite concat_snoc, Hf1, Hr1, Hresult.
    rewrite Hempty in Hfirst.
    destruct texts as [| y texts].
    + rewrite Hfirst. cbn [negb]. repeat split; auto.
    + rewrite Hfirst. cbn [negb]. pose proof (Hsep1 Hfirst) as Hm. rewrite Hm.
      repeat split; auto.
      destruct Hcache1 as [(Ha & Hb) | (Ha & Hb)];
        [rewrite Hm in Hb; discriminate | right; split; [exact Ha | reflexivity]].
  - unfold ret in H1, H2. inversion H1; inversion H2; subst. clear H1 H2.
    split; [reflexivity |].
    cbn [present flat_map]. rewrite app_nil_r.
    unfold joinedSoFar. auto.
Qed.

Lemma foreach_visit_collect value l :
  forall st texts s,
    joinedSoFar (gap s) (indent s) st texts ->
    match collect (memberText scriptContext rec value) l s,
          foreach l (visit scriptContext rec value) st s with
    | (Normal more, s1), (Normal st', s2) =>
        s1 = s2 /\ joinedSoFar (gap s) (indent s) st' (texts ++ present more)%list
    | (Throw e1, s1), (Throw e2, s2) => e1 = e2 /\ s1 = s2
    | _, _ => False
    end.
Proof.
  induction l as [| m l IH]; intros st texts s Hst; cbn [collect foreach].
  - unfold ret. split; [reflexivity |]. cbn [present flat_map]. rewrite app_nil_r.
    exact Hst.
  - pose proof (visit_memberText value m st texts s Hst) as Hstep.
    destruct (bind (memberText scriptContext rec value m)
                (fun b => bs <- collect (memberText scriptContext rec value) l ;;
                          ret (b :: bs)%list) s) as [r1 sa] eqn:HC.
    destruct (bind (visit scriptContext rec value m st)
                (fun acc' => foreach l (visit scriptContext rec value) acc') s)
      as [r2 sb] eqn:HF.
    unfold bind at 1 in HC. unfold bind at 1 in HF.
    destruct (memberText scriptContext rec value m s) as [[text | e1] s1] eqn:H1;
      destruct (visit scriptContext rec value m st s) as [[st1 | e2] s2] eqn:H2;
      try contradiction.
    + destruct Hstep as (<- & Hst1).
      destruct (StringifyMemberObject_keeps scriptContext rec rec_keeps _ _ _ _ _ _ _ _ H2)
        as (Hg & _ & Hn).
      destruct (Hn _ eq_refl) as (_ & Hi).
      rewrite <- Hg, <- Hi in Hst1 |- *.
      specialize (IH st1 _ s1 Hst1).
      unfold bind at 1 in HC.
      destruct (collect (memberText scriptContext rec value) l s1) as [[more | e1] s3];
        destruct (foreach l (visit scriptContext rec value) st1 s1) as [[st2 | e2] s4];
        try contradiction; inversion HC; inversion HF; subst; clear HC HF.
      * destruct IH as (<- & Hst2). split; [reflexivity |].
        rewrite present_cons, app_assoc. exact Hst2.
      * exact IH.
    + inversion HC; inversion HF; subst. exact Hstep.
Qed.

Lemma keeps_memberText value m : keeps (memberText scriptContext rec value m).
Proof.
  unfold memberText.
  apply keeps_bind; [apply Str_keeps; exact rec_keeps | intros v].
  destruct (negb _); [| apply keeps_ret].
  apply keeps_bind; [apply GetPropertySeparator_keeps | intros; apply keeps_ret].
Qed.

Lemma StringifyObject_collect value s :
  StringifyObject scriptContext rec value s
  = let s1 := set_indent (uint32_wrap (indent s + 1)) s in
    match collect (memberText scriptContext rec value)
            (members scriptContext (replacer s) value) s1 with
    | (Normal texts, s') =>
        (Normal (VString (enclosed "{" "}" (gap s) (indent s) (present texts))),
         set_indent (indent s) s')
    | (Throw e, s') => (Throw e, s')
    end.
Proof.
  cbv zeta. set (s1 := set_indent (uint32_wrap (indent s + 1)) s).
  unfold StringifyObject. unfold bind at 1. unfold gets at 1.
  unfold bind at 1. unfold modify at 1. fold s1.
  unfold bind at 1. rewrite StringifyObject_members_visits.
  change (replacer s1) with (replacer s).
  pose proof (foreach_visit_collect value (members scriptContext (replacer s) value)
                (mkMemberState "" None None true true) nil s1) as Hloop.
  assert (Hinit : joinedSoFar (gap s1) (indent s1) (mkMemberState "" None None true true)
                    nil).
  { split; [reflexivity | split; [reflexivity | split; [reflexivity |]]].
    left. split; reflexivity. }
  specialize (Hloop Hinit). clear Hinit.
  pose proof (keeps_collect (memberText scriptContext rec value)
                (members scriptContext (replacer s) value) (keeps_memberText value))
    as Hkeeps.
  destruct (collect (memberText scriptContext rec value)
              (members scriptContext (replacer s) value) s1) as [[texts | e1] s2] eqn:Hc;
    destruct (foreach (members scriptContext (replacer s) value)
                (visit scriptContext rec value) (mkMemberState "" None None true true) s1)
      as [[st | e2] s3];
    try contradiction.
  - destruct Hloop as (<- & Hempty & _ & Hresult & Hcache).
    destruct (Hkeeps _ _ _ Hc) as (Hg & _ & Hn).
    destruct (Hn _ eq_refl) as (_ & Hi).
    change (gap s2 = gap s) in Hg. change (indent s2 = uint32_wrap (indent s + 1)) in Hi.
    change (gap s1) with (gap s) in Hresult, Hcache.
    change (indent s1) with (uint32_wrap (indent s + 1)) in Hresult, Hcache.
    cbn [app] in Hempty, Hresult.
    unfold bind at 1. rewrite Hempty. unfold enclosed.
    destruct (present texts) as [| x rest]; [reflexivity |].
    unfold bind at 1. unfold gets at 1. rewrite Hg.
    unfold memberSeparatorFor in Hresult.
    destruct (gap s) as [g |] eqn:Hgs.
    + assert (Hin :
                (match indentString st with
                 | Some indentString => ret indentString
                 | None => ind <- gets indent ;; GetIndentString ind
                 end) s2
                = (Normal (indentation (Some g) (uint32_wrap (indent s + 1))), s2)).
      { destruct Hcache as [(Hin & _) | (Hin & _)]; rewrite Hin; [| reflexivity].
        unfold bind, gets. rewrite GetIndentString_indentation, Hg, Hi. reflexivity. }
      unfold bind at 1. rewrite Hin.
      unfold bind at 1. rewrite GetIndentString_indentation, Hg.
      unfold ret at 1. unfold bind, modify, ret. rewrite Hresult. reflexivity.
    + unfold ret at 1. unfold bind, modify, ret. rewrite Hresult. reflexivity.
  - destruct Hloop as (<- & <-). reflexivity.
Qed.

End ObjectJoin.

(** X8. The text of an object is the texts of its members, joined by commas
    between braces ([enclosed]). The members are those of [members], each
    looked up and serialized once in that order, one level deeper: the
    names of the replacer name table; else the enumerable keys of a proxy;
    else, with a replacer function and an object that is not dynamic or
    has indexed properties, the names of the enumerator; else the names of
    the enumerator (for a dynamic object, the leading numeric ones)
    followed by the enumerable properties of the type handler that are not
    symbols. A member whose value serializes to
    undefined is left out; any other is its quoted name, the property
    separator and its text. The first exception of a member ends the
    call, and the depth is put back on return. (The stack probe that
    precedes the allocation of the stored names is not part of the
    embedding.) *)
Theorem StringifyObject_joins_members scriptContext stack value s :
  StringifyObject scriptContext (StrHelper scriptContext stack) value s
  = let s1 := set_indent (uint32_wrap (indent s + 1)) s in
    match collect (memberText scriptContext (StrHelper scriptContext stack) value)
            (members scriptContext (replacer s) value) s1 with
    | (Normal texts, s') =>
        (Normal (VString (enclosed "{" "}" (gap s) (indent s) (present texts))),
         set_indent (indent s) s')
    | (Throw e, s') => (Throw e, s')
    end.
Proof.
  apply StringifyObject_collect. intros key v holder. apply StrHelper_keeps.
Qed.

(** ** The property separator *)

(** X9. The property separator is a colon, followed by one space when
    there is a gap: [GetPropertySeparator] returns it from every session
    whose cached separator, if any, goes with its gap, and caches it; and
    [StrHelper] leaves such a session such a session, whether it returns
    or throws. *)
Theorem property_separator_follows_gap scriptContext stack key value holder s :
  separatorConsistent s ->
  (exists s1,
      GetPropertySeparator s = (Normal (separatorFor (gap s)), s1)
      /\ propertySeparator s1 = Some (separatorFor (gap s))
      /\ gap s1 = gap s)
  /\ (forall r s',
        StrHelper scriptContext stack key value holder s = (r, s') ->
        separatorConsistent s').
Proof.
  intros Hs. split.
  - unfold GetPropertySeparator, bind, gets, modify, ret.
    destruct Hs as [Hp | Hp]; rewrite Hp.
    + eexists. split; [reflexivity |]. split; reflexivity.
    + exists s. split; [reflexivity |]. split; [exact Hp | reflexivity].
  - intros r s' H.
    refine (proj1 (StrHelper_maintains separatorConsistent (fun _ => True) scriptContext
                     _ _ _ _ _ _ _ _ _ stack key value holder s r s' Hs H)); auto.
    intros s0 _. right. reflexivity.
Qed.

Lemma property_separator_follows_gap_witness :
  exists s1,
    GetPropertySeparator (sessionWithSpace sampleContext (VInteger 2))
    = (Normal ": ", s1)
    /\ propertySeparator s1 = Some ": "
    /\ gap s1 = Some "  ".
Proof.
  apply (property_separator_follows_gap sampleContext 0 "" VUndefined VUndefined
           (sessionWithSpace sampleContext (VInteger 2))).
  left. reflexivity.
Defined.

(** ** The count of the names of an enumerator *)

Lemma fold_GetPropertyCount {A : Type} (names : list A) : forall count,
  0 <= count < UINT32_MODULUS ->
  fold_left (fun count _ => uint32_wrap (count + 1)) names count
  = uint32_wrap (count + Z.of_nat (List.length names)).
Proof.
  induction names as [| name names IH]; intros count Hc; cbn [fold_left List.length].
  - rewrite Z.add_0_r. symmetry. apply uint32_wrap_small. exact Hc.
  - rewrite IH by apply uint32_wrap_range.
    unfold uint32_wrap. rewrite Zplus_mod_idemp_l. f_equal. lia.
Qed.

(** X10. [GetPropertyCount] counts the names of the enumerator in a
    [uint32]: it is their number modulo [2^32], so their number itself
    below [2^32], and then the first [GetPropertyCount] names are all of
    them. *)
Theorem GetPropertyCount_counts_names (names : list JavascriptString) :
  GetPropertyCount names = Z.of_nat (List.length names) mod UINT32_MODULUS
  /\ (Z.of_nat (List.length names) < UINT32_MODULUS ->
      GetPropertyCount names = Z.of_nat (List.length names)
      /\ firstn (Z.to_nat (GetPropertyCount names)) names = names).
Proof.
  assert (H : GetPropertyCount names = Z.of_nat (List.length names) mod UINT32_MODULUS).
  { unfold GetPropertyCount. rewrite fold_GetPropertyCount.
    - reflexivity.
    - unfold UINT32_MODULUS. lia. }
  split; [exact H |].
  intros Hsmall. rewrite H, Z.mod_small by lia.
  split; [reflexivity |]. rewrite Nat2Z.id. apply firstn_all.
Qed.

Lemma GetPropertyCount_counts_names_witness :
  GetPropertyCount ["a"; "b"; "c"]%list = 3
  /\ firstn (Z.to_nat (GetPropertyCount ["a"; "b"; "c"]%list)) ["a"; "b"; "c"]%list
     = ["a"; "b"; "c"]%list.
Proof.
  apply (proj2 (GetPropertyCount_counts_names ["a"; "b"; "c"]%list)).
  vm_compute. reflexivity.
Defined.

(** ** The session after [CompleteInit] *)

Lemma CompleteInit_withGap s buffer len :
  gap s = None ->
  0 <= len <= 10 ->
  len <= GetLength buffer ->
  let s' := set_objectStack JSONStack_new
              (if negb (len =? 0) then set_gap (Some (NewCopyBuffer buffer len)) s else s) in
  (gap s' = None <-> len = 0)
  /\ (forall g, gap s' = Some g -> 1 <= GetLength g <= 10)
  /\ replacer s' = replacer s
  /\ indent s' = indent s
  /\ propertySeparator s' = propertySeparator s
  /\ objectStack s' = JSONStack_new.
Proof.
  intros Hgap Hlen Hbuf. cbv zeta.
  destruct (len =? 0) eqn:H0; cbn [negb].
  - apply Z.eqb_eq in H0. cbn. rewrite Hgap.
    split; [split; auto |].
    split; [intros g Hg; discriminate |]. auto.
  - apply Z.eqb_neq in H0. cbn.
    split; [split; [discriminate | intros; contradiction] |].
    split; [| auto].
    intros g Hg. inversion Hg; subst. rewrite GetLength_NewCopyBuffer by lia. lia.
Qed.

Lemma min__le a b : min_ a b = Z.min a b.
Proof. unfold min_. destruct (Z.ltb_spec a b); lia. Qed.

(** X12. From a session without a gap, [CompleteInit] never leaves an
    empty gap: the session has a gap of 1 to 10 characters, or none at
    all, which is the case exactly when the space argument gives no
    character. It starts the cycle stack anew and leaves the replacer, the
    depth and the cached separator as they are. *)
Theorem CompleteInit_gap_is_not_empty scriptContext space s :
  gap s = None ->
  let s' := CompleteInit scriptContext space s in
  (gap s' = None <-> gapText s' = "")
  /\ (forall g, gap s' = Some g -> 1 <= GetLength g <= 10)
  /\ replacer s' = replacer s
  /\ indent s' = indent s
  /\ propertySeparator s' = propertySeparator s
  /\ objectStack s' = JSONStack_new.
Proof.
  intros Hgap s'.
  assert (H : (forall g, gap s' = Some g -> 1 <= GetLength g <= 10)
              /\ replacer s' = replacer s
              /\ indent s' = indent s
              /\ propertySeparator s' = propertySeparator s
              /\ objectStack s' = JSONStack_new).
  { assert (Hnumber : 0 <= max_ 0 (static_cast_int
                                     (min_double (double_of_Z JSONspaceSize)
                                        (ToInteger scriptContext space))) <= 10).
    { unfold ToInteger. rewrite cast_min_ToInteger. apply clampNumber_range. }
    assert (Hstring : forall text,
               0 <= min_ JSONspaceSize (GetLength text) <= 10
               /\ min_ JSONspaceSize (GetLength text) <= GetLength text).
    { intros text. rewrite min__le. pose proof (GetLength_nonneg text).
      unfold JSONspaceSize. lia. }
    assert (Hbuffer : forall len, 0 <= len <= 10 -> len <= GetLength jsonSpace_Buffer).
    { intros len Hlen. change (GetLength jsonSpace_Buffer) with 10. lia. }
    subst s'. unfold CompleteInit. cbv zeta.
    assert (Hinteger : 0 <= max_ 0 (min_ JSONspaceSize (ToInt32 space)) <= 10).
    { rewrite max_min_clamp. apply clampSpace_range. }
    destruct (GetTypeId scriptContext space) as [| | | | | | | | | []];
      first
        [ match goal with
          | |- context [set_gap (Some (NewCopyBuffer ?buffer ?len)) s] =>
              refine (proj2 (CompleteInit_withGap s buffer len Hgap _ _));
              first [ exact Hinteger | exact Hnumber | exact (proj1 (Hstring _))
                    | exact (Hbuffer _ Hinteger) | exact (Hbuffer _ Hnumber)
                    | exact (proj2 (Hstring _)) ]
          end
        | cbn; rewrite Hgap; split; [intros g Hg; discriminate | auto] ]. }
  split; [| exact H].
  destruct H as (Hg & _). unfold gapText.
  destruct (gap s') as [g |]; [| split; reflexivity].
  split; [discriminate |].
  intros Hempty. subst g. specialize (Hg "" eq_refl). vm_compute in Hg.
  destruct Hg as (Hg & _). exfalso. apply Hg. reflexivity.
Qed.

Lemma CompleteInit_gap_is_not_empty_witness :
  let s' := CompleteInit sampleContext (VString "") StringifySession_new in
  (gap s' = None <-> gapText s' = "")
  /\ (forall g, gap s' = Some g -> 1 <= GetLength g <= 10)
  /\ replacer s' = replacer StringifySession_new
  /\ indent s' = indent StringifySession_new
  /\ propertySeparator s' = propertySeparator StringifySession_new
  /\ objectStack s' = JSONStack_new.
Proof.
  apply (CompleteInit_gap_is_not_empty sampleContext (VString "") StringifySession_new).
  reflexivity.
Defined.

(** ** Missing elements and missing properties *)

(** X13. What is not there is not preprocessed. An element that an
    array-like (anything but an array of this script context) does not
    have, or has as undefined, is rendered as [null]; a property that the
    holder does not have, looked up by its name, is left out of the
    object. Neither reaches [StrHelper] ([rec] is arbitrary), so neither a
    [toJSON] hook nor the replacer function sees it, and the session is
    untouched. *)
Theorem missing_value_is_not_preprocessed scriptContext rec holder s :
  (forall index,
      JavascriptArray_Is scriptContext holder
      && negb (IsCrossSiteObject scriptContext holder) = false ->
      GetItem scriptContext holder index = None
      \/ GetItem scriptContext holder index = Some VUndefined ->
      GetArrayElementString scriptContext rec index holder s = (Normal "null", s))
  /\ (forall propertyName id st,
        GetProperty scriptContext holder id = None ->
        Str scriptContext rec propertyName id holder None s = (Normal undefined, s)
        /\ StringifyMemberObject scriptContext rec propertyName id holder st None s
           = (Normal st, s)).
Proof.
  split.
  - intros index Harray Hitem.
    unfold GetArrayElementString, Str_index. rewrite Harray.
    destruct Hitem as [Hitem | Hitem]; rewrite Hitem; reflexivity.
  - intros propertyName id st Hmissing.
    assert (HS : Str scriptContext rec propertyName id holder None s = (Normal undefined, s)).
    { unfold Str. rewrite Hmissing. reflexivity. }
    split; [exact HS |].
    unfold StringifyMemberObject. unfold bind at 1. rewrite HS. reflexivity.
Qed.

Lemma missing_value_is_not_preprocessed_witness :
  GetArrayElementString sampleContext (StrHelper sampleContext 5) 0 (VObject 7%nat)
    StringifySession_new
  = (Normal "null", StringifySession_new)
  /\ StringifyMemberObject sampleContext (StrHelper sampleContext 5) "z"
       (PropertyIdOfName "z") (VObject 3%nat) (mkMemberState "" None None true true) None
       StringifySession_new
     = (Normal (mkMemberState "" None None true true), StringifySession_new).
Proof.
  split.
  - apply (proj1 (missing_value_is_not_preprocessed sampleContext (StrHelper sampleContext 5)
                    (VObject 7%nat) StringifySession_new) 0).
    + reflexivity.
    + left. reflexivity.
  - apply (proj2 (missing_value_is_not_preprocessed sampleContext (StrHelper sampleContext 5)
                    (VObject 3%nat) StringifySession_new) "z" (PropertyIdOfName "z")).
    reflexivity.
Defined.

(** ** The replacer and the depth *)

(** X14. [StrHelper] never changes the replacer of the session, whether it
    returns or throws, and when it returns the depth is the one it was
    called at: [StringifyObject] and [StringifyArray] put it back before
    they return. *)
Theorem StrHelper_keeps_replacer_and_depth scriptContext stack key value holder s r s' :
  StrHelper scriptContext stack key value holder s = (r, s') ->
  replacer s' = replacer s
  /\ (forall v, r = Normal v -> indent s' = indent s).
Proof.
  intros H. destruct (StrHelper_keeps _ _ _ _ _ _ _ _ H) as (_ & Hr & Hn).
  split; [exact Hr |].
  intros v Hv. exact (proj2 (Hn v Hv)).
Qed.

Lemma StrHelper_keeps_replacer_and_depth_witness :
  replacer (snd (StrHelper sampleContext 5 "" (VObject 5%nat) VUndefined
                   (sessionWithSpace sampleContext (VInteger 2))))
  = replacer (sessionWithSpace sampleContext (VInteger 2))
  /\ (forall v,
        fst (StrHelper sampleContext 5 "" (VObject 5%nat) VUndefined
               (sessionWithSpace sampleContext (VInteger 2))) = Normal v ->
        indent (snd (StrHelper sampleContext 5 "" (VObject 5%nat) VUndefined
                       (sessionWithSpace sampleContext (VInteger 2))))
        = indent (sessionWithSpace sampleContext (VInteger 2))).
Proof.
  apply (StrHelper_keeps_replacer_and_depth sampleContext 5 "" (VObject 5%nat) VUndefined
           (sessionWithSpace sampleContext (VInteger 2))).
  vm_compute. reflexivity.
Defined.

(** * The claims that rest on the properties above *)

(** ** The cycle stack (C6) *)

Lemma stackExtends_refl stack : stackExtends stack stack.
Proof. exists []%list, []%list. split; reflexivity. Qed.

Lemma stackExtends_Push base stack value b :
  stackExtends base stack -> stackExtends base (Push value b stack).
Proof.
  intros (js & dom & Hjs & Hdom). unfold Push. destruct b; cbn.
  - exists (value :: js)%list, dom. rewrite Hjs. split; [reflexivity | exact Hdom].
  - exists js, (value :: dom)%list. rewrite Hdom. split; [exact Hjs | reflexivity].
Qed.

Lemma Has_stackExtends_Push o b stack stack' :
  stackExtends (Push (VObject o) b stack) stack' -> Has (VObject o) b stack' = true.
Proof.
  intros (js & dom & Hjs & Hdom). unfold Has, Push in *.
  destruct b; cbn in *; [rewrite Hjs | rewrite Hdom];
    rewrite existsb_app; cbn [existsb SameObject]; rewrite Nat.eqb_refl;
    apply orb_true_r.
Qed.

(** Whatever the way [StrHelper] and the serializers of members are left,
    the cycle stack they leave is the one they found with more identities
    on it. *)
Lemma StrHelper_extends scriptContext base stack key value holder :
  maintains (fun s => stackExtends base (objectStack s)) (fun _ => True)
    (StrHelper scriptContext stack key value holder).
Proof.
  apply StrHelper_maintains; auto.
  - intros s o b Hs _. apply stackExtends_Push. exact Hs.
  - intros s o b s0 Hs _ Hstack. cbn. rewrite Hstack, Pop_Push. exact Hs.
Qed.

Lemma serializeMembers_extends scriptContext base stack value :
  maintains (fun s => stackExtends base (objectStack s)) (fun _ => True)
    (serializeMembers scriptContext (StrHelper scriptContext stack) value).
Proof.
  unfold serializeMembers.
  destruct (IsJsNativeObject scriptContext value); [destruct (IsArray scriptContext value) |];
    first [ apply StringifyArray_maintains | apply StringifyObject_maintains ];
    auto; intros; apply StrHelper_extends.
Qed.

Lemma serializeMembers_keeps scriptContext stack value :
  keeps (serializeMembers scriptContext (StrHelper scriptContext stack) value).
Proof.
  unfold serializeMembers.
  destruct (IsJsNativeObject scriptContext value); [destruct (IsArray scriptContext value) |];
    first [ apply StringifyArray_keeps | apply StringifyObject_keeps ];
    intros; apply StrHelper_keeps.
Qed.

Lemma StrHelper_dispatch_pushes scriptContext rec o b s :
  cycleStackOf scriptContext (VObject o) = Some b ->
  Has (VObject o) b (objectStack s) = false ->
  StrHelper_dispatch scriptContext rec (VObject o) s
  = match serializeMembers scriptContext rec (VObject o)
            (set_objectStack (Push (VObject o) b (objectStack s)) s) with
    | (Normal r, s1) => (Normal r, set_objectStack (Pop b (objectStack s1)) s1)
    | (Throw e, s1) => (Throw e, s1)
    end.
Proof.
  unfold cycleStackOf, serializeMembers. intros Hkind Hhas.
  destruct (IsJsNativeObject scriptContext (VObject o)) eqn:Hn.
  - destruct (IsCallable scriptContext (VObject o)) eqn:Hc; [discriminate |].
    cbn [negb] in Hkind. inversion Hkind; subst b.
    apply StrHelper_dispatch_frame; assumption.
  - cbn [IsObject] in Hkind. inversion Hkind; subst b.
    unfold StrHelper_dispatch. cbn [GetTypeId].
    destruct (typeId (GetObject scriptContext o)) eqn:Ht;
      rewrite Hn; cbn [IsObject];
      unfold bind at 1; unfold gets at 1; rewrite Hhas;
      unfold bind, modify, ret;
      destruct (StringifyObject scriptContext rec (VObject o)
                  (set_objectStack (Push (VObject o) false (objectStack s)) s))
        as [[r | e] s1]; reflexivity.
Qed.

(** C6, as the code has it. In the [default:] case of [StrHelper], for an
    identity that is not on its stack, the identity is pushed, the members
    are serialized from the session with the identity on the stack, and
    the identity is popped when they return: the members leave the stack
    as it was with the identity on it, and the pop brings back the stack
    of the entry. When the members throw there is no pop: the stack the
    exception leaves still has the identity on it, on top of the stack of
    the entry and below the identities of the nested frames that were
    unwound. So [StrHelper] itself: when it returns, the cycle stack and
    the depth are those of its entry; when it throws, the stack is the one
    of its entry with the identities of the unwound frames on it. *)
Theorem C6_pushed_for_members_popped_on_return scriptContext stack :
  (forall o b s,
      cycleStackOf scriptContext (VObject o) = Some b ->
      Has (VObject o) b (objectStack s) = false ->
      let pushed := set_objectStack (Push (VObject o) b (objectStack s)) s in
      let members :=
        serializeMembers scriptContext (StrHelper scriptContext stack) (VObject o) in
      StrHelper_dispatch scriptContext (StrHelper scriptContext stack) (VObject o) s
      = match members pushed with
        | (Normal r, s1) => (Normal r, set_objectStack (Pop b (objectStack s1)) s1)
        | (Throw e, s1) => (Throw e, s1)
        end
      /\ (forall r s1,
            members pushed = (Normal r, s1) ->
            objectStack s1 = Push (VObject o) b (objectStack s)
            /\ Pop b (objectStack s1) = objectStack s)
      /\ (forall e s1,
            members pushed = (Throw e, s1) ->
            stackExtends (Push (VObject o) b (objectStack s)) (objectStack s1)
            /\ Has (VObject o) b (objectStack s1) = true))
  /\ (forall key value holder s r s',
        StrHelper scriptContext stack key value holder s = (r, s') ->
        (forall v, r = Normal v -> objectStack s' = objectStack s /\ indent s' = indent s)
        /\ stackExtends (objectStack s) (objectStack s')).
Proof.
  split.
  - intros o b s Hkind Hhas pushed members. subst pushed members.
    split; [apply StrHelper_dispatch_pushes; assumption |]. split.
    + intros r s1 H.
      destruct (serializeMembers_keeps _ _ _ _ _ _ H) as (_ & _ & Hn).
      destruct (Hn r eq_refl) as (Hstack & _). cbn in Hstack.
      split; [exact Hstack | rewrite Hstack; apply Pop_Push].
    + intros e s1 H.
      assert (Hext : stackExtends (Push (VObject o) b (objectStack s)) (objectStack s1)).
      { refine (proj1 (serializeMembers_extends scriptContext
                         (Push (VObject o) b (objectStack s)) stack (VObject o)
                         _ _ _ _ H)).
        cbn. apply stackExtends_refl. }
      split; [exact Hext | exact (Has_stackExtends_Push _ _ _ _ Hext)].
  - intros key value holder s r s' H. split.
    + intros v Hv. subst r.
      destruct (StrHelper_keeps _ _ _ _ _ _ _ _ H) as (_ & _ & Hn).
      exact (Hn v eq_refl).
    + exact (proj1 (StrHelper_extends scriptContext (objectStack s) stack key value holder
                      s r s' (stackExtends_refl _) H)).
Qed.

(** The theorem at [x] with [x.self = x], whose member throws, and at
    [{x: [undefined, 1], y: {a: 1, b: 2, c: 3}}], which returns. *)
Lemma C6_pushed_for_members_popped_on_return_witness :
  (stackExtends (Push (VObject 2%nat) true (objectStack StringifySession_new))
     (objectStack
        (snd (serializeMembers sampleContext (StrHelper sampleContext 5) (VObject 2%nat)
                (set_objectStack (Push (VObject 2%nat) true (objectStack StringifySession_new))
                   StringifySession_new))))
   /\ Has (VObject 2%nat) true
        (objectStack
           (snd (serializeMembers sampleContext (StrHelper sampleContext 5) (VObject 2%nat)
                   (set_objectStack
                      (Push (VObject 2%nat) true (objectStack StringifySession_new))
                      StringifySession_new)))) = true)
  /\ (objectStack
        (snd (StrHelper sampleContext 5 "" (VObject 5%nat) (VObject 10%nat)
                (sessionWithSpace sampleContext VNull)))
      = objectStack (sessionWithSpace sampleContext VNull)
      /\ indent
           (snd (StrHelper sampleContext 5 "" (VObject 5%nat) (VObject 10%nat)
                   (sessionWithSpace sampleContext VNull)))
         = indent (sessionWithSpace sampleContext VNull)).
Proof.
  split.
  - apply (proj2 (proj2 (proj1 (C6_pushed_for_members_popped_on_return sampleContext 5)
                           2%nat true StringifySession_new eq_refl eq_refl))
             (TypeError JSERR_JSONSerializeCircular)).
    vm_compute. reflexivity.
  - refine (proj1 (proj2 (C6_pushed_for_members_popped_on_return sampleContext 5)
                     "" (VObject 5%nat) (VObject 10%nat)
                     (sessionWithSpace sampleContext VNull)
                     (Normal
                        (VString ("{" ++ quoted "x" ++ ":[null,1]," ++ quoted "y" ++ ":{"
                                      ++ quoted "a" ++ ":1," ++ quoted "b" ++ ":2,"
                                      ++ quoted "c" ++ ":3}}")))
                     _ _) _ eq_refl).
    vm_compute. reflexivity.
Defined.

(** ** Elements and members left out (C2) *)

Lemma collect_GetArrayElementString scriptContext rec value l :
  forall s,
    collect (fun k => GetArrayElementString scriptContext rec k value) l s
    = match collect (fun k => Str_index scriptContext rec k value) l s with
      | (Normal elements, s') => (Normal (map arrayElementText elements), s')
      | (Throw e, s') => (Throw e, s')
      end.
Proof.
  induction l as [| k l IH]; intros s; cbn [collect]; [reflexivity |].
  unfold bind at 1 3. unfold GetArrayElementString at 1. unfold bind at 1.
  destruct (Str_index scriptContext rec k value s) as [[element | e] s1]; [| reflexivity].
  assert (Htext : (if IsUndefinedObject element then ret "null"
                   else ret (JavascriptString_FromVar element)) s1
                  = (Normal (arrayElementText element), s1)).
  { unfold arrayElementText. destruct (IsUndefinedObject element); reflexivity. }
  rewrite Htext. unfold bind. rewrite IH.
  destruct (collect (fun k0 => Str_index scriptContext rec k0 value) l s1)
    as [[elements | e] s2]; reflexivity.
Qed.

(** C2, as the code has it. The text of an array is built from one text
    for each index [0 .. length - 1], in order: the literal [null] where
    [Str] gives the omit signal for the element, its text otherwise; so
    the output is never sparse. The text of an object is built from the
    members for which [Str] does not give the signal: a member for which
    it does contributes nothing, neither name nor separator. [StrHelper]
    gives the signal when the prepared value is undefined, a symbol or a
    function of the script engine. *)
Theorem C2_omitted_null_in_array_dropped_in_object scriptContext stack :
  (forall value s,
      StringifyArray scriptContext (StrHelper scriptContext stack) value s
      = let s1 := set_indent (uint32_wrap (indent s + 1)) s in
        match arrayLikeLength scriptContext value with
        | None => (Throw (RangeError JSERR_OutOfBoundString), s1)
        | Some length =>
            match collect (fun k => Str_index scriptContext (StrHelper scriptContext stack)
                                      k value)
                    (indices length) s1 with
            | (Normal elements, s') =>
                (Normal (VString (enclosed "[" "]" (gap s) (indent s)
                                    (map arrayElementText elements))),
                 set_indent (indent s) s')
            | (Throw e, s') => (Throw e, s')
            end
        end)
  /\ (forall value length s elements s',
        collect (fun k => Str_index scriptContext (StrHelper scriptContext stack) k value)
          (indices length) s = (Normal elements, s') ->
        List.length (map arrayElementText elements) = Z.to_nat length)
  /\ arrayElementText VUndefined = "null"
  /\ (forall value s,
        StringifyObject scriptContext (StrHelper scriptContext stack) value s
        = let s1 := set_indent (uint32_wrap (indent s + 1)) s in
          match collect (memberText scriptContext (StrHelper scriptContext stack) value)
                  (members scriptContext (replacer s) value) s1 with
          | (Normal texts, s') =>
              (Normal (VString (enclosed "{" "}" (gap s) (indent s) (present texts))),
               set_indent (indent s) s')
          | (Throw e, s') => (Throw e, s')
          end)
  /\ (forall value m s s1,
        Str scriptContext (StrHelper scriptContext stack) (memberName m) (memberId m)
          value (memberValue m) s = (Normal VUndefined, s1) ->
        memberText scriptContext (StrHelper scriptContext stack) value m s
        = (Normal None, s1))
  /\ (forall key value holder s prepared s1,
        StrHelper_prepare scriptContext key value holder s = (Normal prepared, s1) ->
        isOmitted scriptContext prepared = true ->
        StrHelper scriptContext (S stack) key value holder s = (Normal VUndefined, s1)).
Proof.
  assert (Hkeeps : forall key value holder,
             keeps (StrHelper scriptContext stack key value holder)).
  { intros. apply StrHelper_keeps. }
  split; [| split; [| split; [| split; [| split]]]].
  - intros value s. rewrite (StringifyArray_collect scriptContext _ Hkeeps). cbv zeta.
    destruct (arrayLikeLength scriptContext value) as [length |]; [| reflexivity].
    rewrite collect_GetArrayElementString.
    destruct (collect _ (indices length) _) as [[elements | e] s']; reflexivity.
  - intros value length s elements s' H.
    rewrite length_map, (length_collect _ _ _ _ _ H). apply length_indices.
  - reflexivity.
  - intros value s. apply StringifyObject_collect. exact Hkeeps.
  - intros value m s s1 H. unfold memberText. unfold bind. rewrite H. reflexivity.
  - intros key value holder s prepared s1 Hp Ho. cbn [StrHelper].
    unfold StrHelper_body. rewrite (bind_Normal _ _ _ _ _ Hp).
    apply StrHelper_dispatch_omitted. assumption.
Qed.

(** C2 does not hold for every callable value. A callable object of the
    host is not an object of the script engine: [StrHelper] serializes it
    as an object. As the element of an array it is rendered as [{}], not
    as [null], and as the value of a member it is not left out. *)
Lemma C2_callable_host_object_is_serialized :
  IsCallable hostContext (VObject 0%nat) = true
  /\ StrHelper_prepare hostContext "0" (VObject 0%nat) (VObject 1%nat) StringifySession_new
     = (Normal (VObject 0%nat), StringifySession_new)
  /\ fst (GetArrayElementString hostContext (StrHelper hostContext 5) 0 (VObject 1%nat)
            StringifySession_new) = Normal "{}"
  /\ Stringify hostContext 10 [VUndefined; VObject 1%nat]%list = Normal (VString "[{}]")
  /\ Stringify hostContext 10 [VUndefined; VObject 2%nat]%list
     = Normal (VString ("{" ++ quoted "m" ++ ":{}}")).
Proof. repeat split; vm_compute; reflexivity. Qed.

(** The theorem at [[undefined, 1]], at [{a: undefined, b: 1}] and at the
    function of the sample heap. *)
Lemma C2_omitted_witness :
  List.length (map arrayElementText [VUndefined; VString "1"]%list) = Z.to_nat 2
  /\ memberText sampleContext (StrHelper sampleContext 5) (VObject 0%nat)
       (memberOfName "a") StringifySession_new
     = (Normal None, StringifySession_new)
  /\ StrHelper sampleContext 6 "f" (VObject 8%nat) (VObject 0%nat) StringifySession_new
     = (Normal VUndefined, StringifySession_new).
Proof.
  split; [| split].
  - apply (proj1 (proj2 (C2_omitted_null_in_array_dropped_in_object sampleContext 5))
             (VObject 1%nat) 2 StringifySession_new _ StringifySession_new).
    vm_compute. reflexivity.
  - apply (proj1 (proj2 (proj2 (proj2 (proj2
             (C2_omitted_null_in_array_dropped_in_object sampleContext 5)))))
             (VObject 0%nat) (memberOfName "a")).
    vm_compute. reflexivity.
  - apply (proj2 (proj2 (proj2 (proj2 (proj2
             (C2_omitted_null_in_array_dropped_in_object sampleContext 5)))))
             "f" (VObject 8%nat) (VObject 0%nat) StringifySession_new (VObject 8%nat)).
    + vm_compute. reflexivity.
    + reflexivity.
Defined.

(** ** Objects without members (C8) *)



(** ** Over-long arrays (C7) *)

(** C7. The length check is missing for genuine arrays. The array of
    length [MaxCharCount] without elements (object 6 of the sample heap,
    an array whose [length] was set) is a genuine array: its length is
    taken as it is, [StringifyArray] goes on with that length and what it
    ends in is not the RangeError. The proxy of an array whose [length]
    reads [2^31] (object 7) takes the other branch, where the same length
    is refused with the RangeError at once. (What the string builder does
    with a text of that length is not part of the embedding.) *)
Theorem C7_genuine_array_not_checked :
  let s := sessionWithSpace sampleContext VNull in
  (JavascriptArray_Is sampleContext (VObject 6%nat) = true
   /\ JavascriptArray_GetLength sampleContext (VObject 6%nat) = MaxCharCount
   /\ arrayLikeLength sampleContext (VObject 6%nat) = Some MaxCharCount
   /\ fst (StringifyArray sampleContext (StrHelper sampleContext 5) (VObject 6%nat) s)
      <> Throw (RangeError JSERR_OutOfBoundString))
  /\ (JavascriptArray_Is sampleContext (VObject 7%nat) = false
      /\ ToLength sampleContext (OP_GetLength sampleContext (VObject 7%nat)) = 2 ^ 31
      /\ arrayLikeLength sampleContext (VObject 7%nat) = None
      /\ fst (StringifyArray sampleContext (StrHelper sampleContext 5) (VObject 7%nat) s)
         = Throw (RangeError JSERR_OutOfBoundString)).
Proof.
  cbv zeta. split.
  - split; [reflexivity | split; [reflexivity | split; [reflexivity |]]].
    destruct (StringifyArray_of_holes sampleContext (StrHelper sampleContext 5)
                (VObject 6%nat) (sessionWithSpace sampleContext VNull))
      as [text H]; try reflexivity.
    rewrite H. discriminate.
  - split; [reflexivity | split; [reflexivity | split; [reflexivity |]]].
    rewrite (overlong_array_like_throws sampleContext (StrHelper sampleContext 5)
               (VObject 7%nat) (sessionWithSpace sampleContext VNull)).
    + reflexivity.
    + reflexivity.
    + vm_compute. discriminate.
Qed.

(** ** The fill pass of the name table (C9) *)

Lemma AddToNameTable_scripted_passive scriptContext nameTable tableLen size item :
  AddToNameTable_scripted passiveToString scriptContext nameTable tableLen size item
  = (AddToNameTable scriptContext nameTable tableLen size item, scriptContext).
Proof.
  unfold AddToNameTable_scripted, AddToNameTable, passiveToString.
  destruct (GetTypeId scriptContext item) as [| | | | | | | | | []];
    try reflexivity;
    try (destruct (tableLen =? size); reflexivity).
  destruct item; try reflexivity; destruct (tableLen =? size); reflexivity.
Qed.

Lemma fillNameTable_scripted_passive scriptContext replacerArg direct count range :
  forall nameTable tableLen,
    fillNameTable_scripted passiveToString replacerArg direct count range scriptContext
      nameTable tableLen
    = (fillNameTable scriptContext replacerArg direct count range nameTable tableLen,
       scriptContext).
Proof.
  induction range as [| i range IH]; intros nameTable tableLen;
    cbn [fillNameTable_scripted fillNameTable]; [reflexivity |].
  destruct direct.
  - rewrite AddToNameTable_scripted_passive.
    destruct (AddToNameTable scriptContext nameTable tableLen count
                (DirectGetItem scriptContext replacerArg i)) as [[nameTable' tableLen'] | e];
      [apply IH | reflexivity].
  - destruct (GetItem scriptContext replacerArg i) as [item |]; [| apply IH].
    rewrite AddToNameTable_scripted_passive.
    destruct (AddToNameTable scriptContext nameTable tableLen count item)
      as [[nameTable' tableLen'] | e]; [apply IH | reflexivity].
Qed.

(** With a conversion that runs no script the resolution of a replacer
    array is the one of [Stringify_nameTable], on a heap that stays as it
    is. *)
Lemma Stringify_nameTable_scripted_passive scriptContext replacerArg :
  Stringify_nameTable_scripted passiveToString scriptContext replacerArg
  = (Stringify_nameTable scriptContext replacerArg, scriptContext).
Proof.
  unfold Stringify_nameTable_scripted, Stringify_nameTable. cbv zeta.
  destruct (negb (_ =? 0)); [| reflexivity].
  rewrite fillNameTable_scripted_passive.
  destruct (fillNameTable _ _ _ _ _ _ _) as [[nameTable tableLen] | e]; reflexivity.
Qed.

(** C9. The fill pass can find the table full. The replacer array is
    [r = [n, true]] with [n] a Number object whose [toString] stores ['x']
    in [r[1]]. The counting pass counts one name-producing element, [n].
    The fill pass converts [n], which runs [toString], appends its name,
    then reads [r[1]] again, finds the string ['x'] with [tableLen ==
    size], and ends in [FatalInternalError]. With the same heap and a
    conversion that leaves it alone the table is the single name of
    [n]. *)
Theorem C9_fill_pass_overruns_count :
  JavascriptArray_GetLength writingContext (VObject 0%nat) = 2
  /\ countValidReplacerItems writingContext (VObject 0%nat) true 2 = 1
  /\ AddToNameTable_scripted writingToString writingContext (AnewArray 1) 0 1
       (VObject 1%nat)
     = (Normal ([entryOfName "1"]%list, 1), snd (writingToString writingContext (VObject 1%nat)))
  /\ GetItem (snd (writingToString writingContext (VObject 1%nat))) (VObject 0%nat) 1
     = Some (VString "x")
  /\ fst (AddToNameTable_scripted writingToString
            (snd (writingToString writingContext (VObject 1%nat)))
            [entryOfName "1"]%list 1 1 (VString "x"))
     = Throw FatalInternalError
  /\ fst (Stringify_nameTable_scripted writingToString writingContext (VObject 0%nat))
     = Throw FatalInternalError
  /\ fst (Stringify_nameTable_scripted passiveToString writingContext (VObject 0%nat))
     = Normal ([entryOfName "1"]%list, 1).
Proof. repeat split; vm_compute; reflexivity. Qed.
